(** * Brand-monitoring tools: a shallow embedding

    Two batch programs are embedded here:

    - [Collector]: [info-collector/domain_info_collector.py]
      ([get_domain_info], [process_csv_files]);
    - [TldChecker]: [top level domain checker/domain_tld_checker.py]
      ([extract_meaningful_base], [get_domain_variant_info], [main]).

    Python strings are modelled as [string] restricted to ASCII, Python
    [int] as [Z], lists as [list], insertion-ordered dicts as association
    lists.  The WHOIS client, the DNS resolver and the public-suffix
    extractor are external collaborators: they are parameters of the
    embedding (a [Network] of canned replies, an extractor function).
    Every query sent to the network is recorded in a trace, so that
    "a lookup is (not) performed" is a statement about that trace.
    Local variables live in a record; exceptions are values of type [exn];
    a statement block is a computation in the monad [M], in which the
    mutations done before an exception is raised stay visible to the
    handler, as in Python.

    Left out: the prompts and progress messages, the pauses between
    queries, the construction of the resolver and its time limits, the
    opening of the files, and the quoting done by the CSV writer (a row
    is the list of its fields).  A network answers the same query the
    same way each time it is asked. *)

From Stdlib Require Import List String Ascii Bool Arith NArith ZArith Lia.
From Stdlib Require Import Permutation Sorted RelationClasses.
From Stdlib Require Import DecimalString DecimalZ DecimalN.
Import ListNotations.

Set Warnings "-register-all".

#[local] Open Scope list_scope.
#[local] Open Scope string_scope.

(* ================================================================== *)
(** * Python primitives used by both programs *)
(* ================================================================== *)

Module Py.

(** [str.isspace] on ASCII: TAB..CR, FS..US and SPACE. *)
Definition isspace (c : ascii) : bool :=
  let n := N_of_ascii c in
  (((9 <=? n) && (n <=? 13)) || ((28 <=? n) && (n <=? 31)) || (n =? 32))%N.

Fixpoint lstrip (s : string) : string :=
  match s with
  | EmptyString => EmptyString
  | String c s' => if isspace c then lstrip s' else s
  end.

(** Removal of the longest suffix whose characters all satisfy [p]. *)
Fixpoint rstrip_with (p : ascii -> bool) (s : string) : string :=
  match s with
  | EmptyString => EmptyString
  | String c s' =>
      match rstrip_with p s' with
      | EmptyString => if p c then EmptyString else String c EmptyString
      | r => String c r
      end
  end.

Definition rstrip (s : string) : string := rstrip_with isspace s.

(** [s.strip()] *)
Definition strip (s : string) : string := rstrip (lstrip s).

(** [s.rstrip(ch)] for a one-character argument. *)
Definition rstrip_char (ch : ascii) (s : string) : string :=
  rstrip_with (Ascii.eqb ch) s.

Definition lower_char (c : ascii) : ascii :=
  let n := N_of_ascii c in
  if ((65 <=? n) && (n <=? 90))%N then ascii_of_N (n + 32) else c.

Definition upper_char (c : ascii) : ascii :=
  let n := N_of_ascii c in
  if ((97 <=? n) && (n <=? 122))%N then ascii_of_N (n - 32) else c.

Fixpoint map_chars (f : ascii -> ascii) (s : string) : string :=
  match s with
  | EmptyString => EmptyString
  | String c s' => String (f c) (map_chars f s')
  end.

(** [s.lower()] *)
Definition lower (s : string) : string := map_chars lower_char s.

(** [s.capitalize()] *)
Definition capitalize (s : string) : string :=
  match s with
  | EmptyString => EmptyString
  | String c s' => String (upper_char c) (lower s')
  end.

(** [needle in hay] on strings. *)
Fixpoint contains (needle hay : string) : bool :=
  String.prefix needle hay
  || match hay with
     | EmptyString => false
     | String _ hay' => contains needle hay'
     end.

(** [c in s] for a one-character needle. *)
Fixpoint has_char (c : ascii) (s : string) : bool :=
  match s with
  | EmptyString => false
  | String a s' => Ascii.eqb a c || has_char c s'
  end.

(** [s.startswith(p)] *)
Definition startswith (p s : string) : bool := String.prefix p s.

(** [s.split(sep)] for a one-character separator: never empty. *)
Fixpoint split_char (sep : ascii) (s : string) : list string :=
  match s with
  | EmptyString => [EmptyString]
  | String c s' =>
      if Ascii.eqb c sep then EmptyString :: split_char sep s'
      else match split_char sep s' with
           | h :: t => String c h :: t
           | [] => [String c EmptyString]
           end
  end.

(** [s.split()]: maximal runs of non-whitespace characters. *)
Fixpoint split (s : string) : list string :=
  match s with
  | EmptyString => []
  | String c s' =>
      if isspace c then split s'
      else match s' with
           | EmptyString => [String c EmptyString]
           | String d _ =>
               if isspace d then String c EmptyString :: split s'
               else match split s' with
                    | h :: t => String c h :: t
                    | [] => [String c EmptyString]
                    end
           end
  end.

(** [s.replace(old, new)] for a one-character [old]. *)
Fixpoint replace_char (old : ascii) (new : string) (s : string) : string :=
  match s with
  | EmptyString => EmptyString
  | String c s' =>
      if Ascii.eqb c old then new ++ replace_char old new s'
      else String c (replace_char old new s')
  end.

(** [sep.join(l)] on a list of strings. *)
Definition join (sep : string) (l : list string) : string := String.concat sep l.

(** [s[:n]] *)
Definition take (n : nat) (s : string) : string := String.substring 0 n s.

(** [len(s)] *)
Definition len (s : string) : nat := String.length s.

(** All characters of [s] satisfy [p]. *)
Fixpoint all_chars (p : ascii -> bool) (s : string) : bool :=
  match s with
  | EmptyString => true
  | String c s' => p c && all_chars p s'
  end.

(** [s] holds no whitespace character. *)
Definition no_space (s : string) : bool :=
  all_chars (fun c => negb (isspace c)) s.

(** Truth value of a string and of a list. *)
Definition nonempty (s : string) : bool :=
  match s with EmptyString => false | _ => true end.

Definition nonnil {A : Type} (l : list A) : bool :=
  match l with [] => false | _ => true end.

(** [str(n)] and [int(s)] on integers.  [int] also accepts a leading [+],
    digit-group underscores and surrounding blanks; none of them occurs in
    the tokens the programs parse, and they are rejected here. *)
Definition str_of_int (z : Z) : string := NilZero.string_of_int (Z.to_int z).

Definition int_of_str (s : string) : option Z :=
  option_map Z.of_int (NilZero.int_of_string s).

(** Zero-padded decimal rendering, as [%0wd]. *)
Fixpoint zeros (n : nat) : string :=
  match n with O => EmptyString | S n' => String "0" (zeros n') end.

Definition pad (w : nat) (n : N) : string :=
  let s := NilZero.string_of_uint (N.to_uint n) in
  zeros (w - String.length s) ++ s.

(** ** Sorting

    [list.sort] and [sorted] are stable; so is this insertion sort, in
    which an element is placed in front of the first element that is not
    smaller than it. *)
Section Sort.
Context {A K : Type} (key : A -> K) (leb : K -> K -> bool).

Fixpoint insert_by (x : A) (l : list A) : list A :=
  match l with
  | [] => [x]
  | y :: l' => if leb (key x) (key y) then x :: l else y :: insert_by x l'
  end.

Fixpoint sort_by (l : list A) : list A :=
  match l with
  | [] => []
  | x :: l' => insert_by x (sort_by l')
  end.
End Sort.

(** [sorted(l)] on strings: code-point order, which is byte order. *)
Definition sorted (l : list string) : list string :=
  sort_by (fun s => s) String.leb l.

(** [list(set(l))]: the distinct elements; their order is unspecified in
    Python and is irrelevant below, where the list is always sorted next. *)
Definition distinct (l : list string) : list string := nodup string_dec l.

(** [sorted(list(set(l)))] *)
Definition sorted_set (l : list string) : list string := sorted (distinct l).

(** Order on the sort keys [(int, str)] of the MX entries: tuples compare
    lexicographically. *)
Definition key_leb (k1 k2 : Z * string) : bool :=
  (fst k1 <? fst k2)%Z || ((fst k1 =? fst k2)%Z && String.leb (snd k1) (snd k2)).

(** Insertion-ordered dict with string keys. *)
Definition dict (V : Type) : Type := list (string * V).

Fixpoint dict_get {V : Type} (k : string) (d : dict V) : option V :=
  match d with
  | [] => None
  | (k', v) :: d' => if String.eqb k k' then Some v else dict_get k d'
  end.

(** [d[k] = v]: an existing key keeps its position. *)
Fixpoint dict_set {V : Type} (k : string) (v : V) (d : dict V) : dict V :=
  match d with
  | [] => [(k, v)]
  | (k', v') :: d' =>
      if String.eqb k k' then (k, v) :: d' else (k', v') :: dict_set k v d'
  end.

(** [d.update(d2)] *)
Definition dict_update {V : Type} (d d2 : dict V) : dict V :=
  fold_left (fun acc kv => dict_set (fst kv) (snd kv) acc) d2 d.

Definition dict_keys {V : Type} (d : dict V) : list string := map fst d.

End Py.

(* ================================================================== *)
(** * Values, exceptions and the external collaborators *)
(* ================================================================== *)

Module Model.
Import Py.

(** A naive [datetime.datetime]. *)
Record datetime : Type := Datetime {
  year : N; month : N; day : N;
  hour : N; minute : N; second : N; microsecond : N
}.

(** The values a WHOIS attribute may hold: [None], a [str], a
    [datetime], or a list of such values. *)
Inductive pyval : Type :=
| PNone
| PStr (s : string)
| PDate (d : datetime)
| PList (l : list pyval).

Definition truthy (v : pyval) : bool :=
  match v with
  | PNone => false
  | PStr s => nonempty s
  | PDate _ => true
  | PList l => nonnil l
  end.

Definition is_list (v : pyval) : bool :=
  match v with PList _ => true | _ => false end.

Definition is_str (v : pyval) : bool :=
  match v with PStr _ => true | _ => false end.

(** [type(v)]'s full name, as it appears in interpreter messages. *)
Definition tp_name (v : pyval) : string :=
  match v with
  | PNone => "NoneType"
  | PStr _ => "str"
  | PDate _ => "datetime.datetime"
  | PList _ => "list"
  end.

Definition str_of_datetime (d : datetime) : string :=
  pad 4 (year d) ++ "-" ++ pad 2 (month d) ++ "-" ++ pad 2 (day d) ++ " "
  ++ pad 2 (hour d) ++ ":" ++ pad 2 (minute d) ++ ":" ++ pad 2 (second d)
  ++ (if (microsecond d =? 0)%N then "" else "." ++ pad 6 (microsecond d)).

Definition repr_of_datetime (d : datetime) : string :=
  let num n := NilZero.string_of_uint (N.to_uint n) in
  "datetime.datetime(" ++ num (year d) ++ ", " ++ num (month d) ++ ", "
  ++ num (day d) ++ ", " ++ num (hour d) ++ ", " ++ num (minute d)
  ++ (if (microsecond d =? 0)%N
      then (if (second d =? 0)%N then "" else ", " ++ num (second d))
      else ", " ++ num (second d) ++ ", " ++ num (microsecond d))
  ++ ")".

Definition hex_digit (n : N) : ascii :=
  if (n <? 10)%N then ascii_of_N (48 + n) else ascii_of_N (87 + n).

Definition single_quote : ascii := ascii_of_N 39.
Definition double_quote : ascii := ascii_of_N 34.

Definition repr_char (quote : ascii) (c : ascii) : string :=
  let n := N_of_ascii c in
  if Ascii.eqb c quote || Ascii.eqb c "\"%char then String "\"%char (String c "")
  else if (n =? 9)%N then "\t"
  else if (n =? 10)%N then "\n"
  else if (n =? 13)%N then "\r"
  else if ((n <? 32) || (n =? 127))%N
       then String "\"%char (String "x"%char
              (String (hex_digit (n / 16)) (String (hex_digit (n mod 16)) "")))
  else String c "".

Fixpoint repr_chars (quote : ascii) (s : string) : string :=
  match s with
  | EmptyString => EmptyString
  | String c s' => repr_char quote c ++ repr_chars quote s'
  end.

(** [repr(s)] of a string: single quotes, unless the text holds a single
    quote and no double quote. *)
Definition repr_of_str (s : string) : string :=
  let quote : ascii :=
    if has_char single_quote s && negb (has_char double_quote s)
    then double_quote else single_quote in
  String quote (repr_chars quote s) ++ String quote "".

Fixpoint repr (v : pyval) : string :=
  match v with
  | PNone => "None"
  | PStr s => repr_of_str s
  | PDate d => repr_of_datetime d
  | PList l => "[" ++ join ", " (map repr l) ++ "]"
  end.

(** [str(v)], which is also what an f-string field [{v}] renders. *)
Definition str (v : pyval) : string :=
  match v with
  | PStr s => s
  | PDate d => str_of_datetime d
  | _ => repr v
  end.

(** A class name is an identifier: a letter or an underscore, then
    letters, digits and underscores. *)
Definition is_alpha (c : ascii) : bool :=
  let n := N_of_ascii c in
  (((65 <=? n) && (n <=? 90)) || ((97 <=? n) && (n <=? 122)))%N.

Definition is_digit (c : ascii) : bool :=
  let n := N_of_ascii c in ((48 <=? n) && (n <=? 57))%N.

Definition is_identifier (s : string) : bool :=
  match s with
  | EmptyString => false
  | String c s' =>
      (is_alpha c || Ascii.eqb c "_")
      && all_chars (fun a => is_alpha a || is_digit a || Ascii.eqb a "_") s'
  end.

Record identifier : Type := Identifier {
  id_text : string;
  id_ok : is_identifier id_text = true
}.

(** Exception classes the programs tell apart in their handlers; every
    other class is [OtherError] with its [__name__]. *)
Inductive exn_class : Type :=
| NXDOMAIN | NoAnswer | DnsTimeout
| PywhoisError | ConnectionResetError | SocketTimeout
| AttributeError | IndexError | TypeError | ValueError
| OtherError (name : identifier).

Record exn : Type := Exn { exn_cls : exn_class; exn_str : string }.

(** [type(e).__name__] *)
Definition exn_type_name (e : exn) : string :=
  match exn_cls e with
  | NXDOMAIN => "NXDOMAIN"
  | NoAnswer => "NoAnswer"
  | DnsTimeout => "LifetimeTimeout"
  | PywhoisError => "PywhoisError"
  | ConnectionResetError => "ConnectionResetError"
  | SocketTimeout => "timeout"
  | AttributeError => "AttributeError"
  | IndexError => "IndexError"
  | TypeError => "TypeError"
  | ValueError => "ValueError"
  | OtherError name => id_text name
  end.

(** The object returned by [whois.whois]: attribute lookup may fail
    ([w_getattr a = None] stands for [AttributeError]); when the object
    is a [dict], [w_items] holds its entries. *)
Record whois_obj : Type := WhoisObj {
  w_class : string;
  w_getattr : string -> option pyval;
  w_items : option (dict pyval)
}.

(** [python-whois]'s own entry type: a dict whose attribute lookup
    falls back to [dict.get]. *)
Definition whois_entry (items : dict pyval) : whois_obj :=
  {| w_class := "WhoisEntry";
     w_getattr := fun a =>
       Some (match dict_get a items with Some v => v | None => PNone end);
     w_items := Some items |}.

(** [bool(w)] for an object that is not [None]. *)
Definition obj_truthy (w : whois_obj) : bool :=
  match w_items w with
  | Some items => nonnil items
  | None => true
  end.

Inductive rdtype : Type := RdA | RdAAAA | RdNS | RdMX.

(** The replies of the outside world.  DNS answers are given by what the
    programs read from each record: [rdata.to_text()] for addresses,
    [rdata.target.to_text()] for NS, and the pair
    [(rdata.preference, rdata.exchange.to_text())] for MX. *)
Record Network : Type := {
  dns_addr : string -> rdtype -> exn + list string;
  dns_ns : string -> exn + list string;
  dns_mx : string -> exn + list (Z * string);
  whois_reply : string -> exn + option whois_obj
}.

Inductive query : Type :=
| QDns (qname : string) (rd : rdtype)
| QWhois (qname : string).

Definition is_whois (q : query) : bool :=
  match q with QWhois _ => true | QDns _ _ => false end.

(** ** The monad of statement blocks *)

Record Out (L A : Type) : Type := MkOut {
  res : exn + A;
  store : L;
  queries : list query
}.
Arguments MkOut {L A} _ _ _.
Arguments res {L A} _.
Arguments store {L A} _.
Arguments queries {L A} _.

Definition M (L A : Type) : Type := L -> list query -> Out L A.

Definition ret {L A : Type} (a : A) : M L A :=
  fun l t => MkOut (inr a) l t.

Definition raise {L A : Type} (e : exn) : M L A :=
  fun l t => MkOut (inl e) l t.

Definition bind {L A B : Type} (c : M L A) (k : A -> M L B) : M L B :=
  fun l t =>
    let o := c l t in
    match res o with
    | inl e => MkOut (inl e) (store o) (queries o)
    | inr a => k a (store o) (queries o)
    end.

(** [try: body  except ...: handler e] *)
Definition try_except {L A : Type} (body : M L A) (handler : exn -> M L A)
  : M L A :=
  fun l t =>
    let o := body l t in
    match res o with
    | inl e => handler e (store o) (queries o)
    | inr a => o
    end.

Definition get {L : Type} : M L L := fun l t => MkOut (inr l) l t.

Definition modify {L : Type} (f : L -> L) : M L unit :=
  fun l t => MkOut (inr tt) (f l) t.

Definition lift {L A : Type} (r : exn + A) : M L A :=
  fun l t => MkOut r l t.

(** A query: logged, then answered by the network. *)
Definition ask {L A : Type} (q : query) (reply : exn + A) : M L A :=
  fun l t => MkOut reply l (t ++ [q]).

(** A call: the callee runs on fresh locals and shares the world. *)
Definition call {L L' A : Type} (init : L') (body : M L' A) : M L A :=
  fun l t =>
    let o := body init t in
    MkOut (res o) l (queries o).

Declare Scope py_scope.
Delimit Scope py_scope with py.
Notation "x <- c1 ;; c2" := (bind c1 (fun x => c2))
  (at level 61, c1 at next level, right associativity) : py_scope.
Notation "c1 ;; c2" := (bind c1 (fun _ => c2))
  (at level 61, right associativity) : py_scope.
#[local] Open Scope py_scope.

Fixpoint for_each {L A : Type} (l : list A) (body : A -> M L unit)
  : M L unit :=
  match l with
  | [] => ret tt
  | x :: l' => body x ;; for_each l' body
  end.

(** Attribute access on the WHOIS object. *)
Definition no_attribute (cls attr : string) : exn :=
  Exn AttributeError
      ("'" ++ cls ++ "' object has no attribute '" ++ attr ++ "'").

(** [w.attr] *)
Definition getattr (w : whois_obj) (attr : string) : exn + pyval :=
  match w_getattr w attr with
  | Some v => inr v
  | None => inl (no_attribute (w_class w) attr)
  end.

(** [hasattr(w, attr)] *)
Definition hasattr (w : whois_obj) (attr : string) : bool :=
  match w_getattr w attr with Some _ => true | None => false end.

(** [getattr(w, attr, None)] *)
Definition getattr_default (w : whois_obj) (attr : string) : pyval :=
  match w_getattr w attr with Some v => v | None => PNone end.

(** [w.get(key)]: the dict method, absent on other objects. *)
Definition dict_get_method (w : whois_obj) (key : string) : exn + pyval :=
  match w_items w with
  | Some items =>
      inr (match dict_get key items with Some v => v | None => PNone end)
  | None => inl (no_attribute (w_class w) "get")
  end.

(** [sep.join(v)] on a value: a list of strings, or a string (joined
    character by character); anything else is a [TypeError]. *)
Fixpoint join_items (i : nat) (l : list pyval) : exn + list string :=
  match l with
  | [] => inr []
  | PStr s :: l' =>
      match join_items (S i) l' with
      | inr r => inr (s :: r)
      | inl e => inl e
      end
  | v :: _ =>
      inl (Exn TypeError
             ("sequence item " ++ str_of_int (Z.of_nat i)
              ++ ": expected str instance, " ++ tp_name v ++ " found"))
  end.

Fixpoint chars (s : string) : list string :=
  match s with
  | EmptyString => []
  | String c s' => String c "" :: chars s'
  end.

Definition join_val (sep : string) (v : pyval) : exn + string :=
  match v with
  | PList l =>
      match join_items 0 l with
      | inr r => inr (join sep r)
      | inl e => inl e
      end
  | PStr s => inr (join sep (chars s))
  | _ => inl (Exn TypeError "can only join an iterable")
  end.

(** [l.sort(key=key)]: the keys are computed first, in order; a failing
    key leaves the list as it was and propagates. *)
Fixpoint decorate {A K : Type} (key : A -> exn + K) (l : list A)
  : exn + list (K * A) :=
  match l with
  | [] => inr []
  | x :: l' =>
      match key x with
      | inl e => inl e
      | inr k =>
          match decorate key l' with
          | inl e => inl e
          | inr r => inr ((k, x) :: r)
          end
      end
  end.

Definition sort_with_key {A K : Type} (key : A -> exn + K)
  (leb : K -> K -> bool) (l : list A) : exn + list A :=
  match decorate key l with
  | inl e => inl e
  | inr kl => inr (map snd (sort_by fst leb kl))
  end.

(** [csv.DictWriter._dict_to_list] with [extrasaction='raise'] and
    [restval=''], the defaults. *)
Definition dict_to_list (fieldnames : list string) (row : dict string)
  : exn + list string :=
  let wrong :=
    filter (fun k => negb (existsb (String.eqb k) fieldnames)) (dict_keys row) in
  if nonnil wrong then
    inl (Exn ValueError
           ("dict contains fields not in fieldnames: "
            ++ join ", " (map repr_of_str wrong)))
  else
    inr (map (fun k => match dict_get k row with
                       | Some v => v
                       | None => ""
                       end) fieldnames).

Definition nl : string := String (ascii_of_N 10) EmptyString.

(** ** Properties of statement blocks *)

(** The block preserves [P], however it ends. *)
Definition inv {L A : Type} (P : L -> Prop) (c : M L A) : Prop :=
  forall l t, P l -> P (store (c l t)).

(** No exception escapes from the block. *)
Definition total {L A : Type} (c : M L A) : Prop :=
  forall l t, exists a, res (c l t) = inr a.

(** The block only adds queries to the log. *)
Definition keeps_queries {L A : Type} (c : M L A) : Prop :=
  forall l t q, In q t -> In q (queries (c l t)).

(** When the block ends normally, [Q] holds of the final locals. *)
Definition ensures {L A : Type} (c : M L A) (Q : L -> Prop) : Prop :=
  forall l t a, res (c l t) = inr a -> Q (store (c l t)).

(** The block adds exactly the queries [qs] to the log, whatever the
    locals are and however it ends. *)
Definition emits {L A : Type} (c : M L A) (qs : list query) : Prop :=
  forall l t, queries (c l t) = (t ++ qs)%list.

(** The outcome and the final locals do not depend on the log. *)
Definition oblivious {L A : Type} (c : M L A) : Prop :=
  forall l t t', res (c l t) = res (c l t') /\ store (c l t) = store (c l t').

(** The block ends normally and its value is [f] of the final locals. *)
Definition returns {L A : Type} (f : L -> A) (c : M L A) : Prop :=
  forall l t, res (c l t) = inr (f (store (c l t))).

End Model.

(* ================================================================== *)
(** * The TLD variant checker ([domain_tld_checker.py]) *)
(* ================================================================== *)

Module TldChecker.
Import Py Model.
#[local] Open Scope py_scope.

(** The catalog as written in the source, before normalisation. *)
Definition TLDS_RAW : list string :=
  [ ".com"; ".org"; ".net"; ".co"; ".info"; ".biz"; ".us"; ".ca"; ".uk";
    ".io"; ".ai"; ".tech"; ".app"; ".online"; ".site"; ".website"; ".space";
    ".store"; ".xyz"; ".club"; ".vip"; ".link"; ".click"; ".top"; ".loan";
    ".support"; ".help"; ".services"; ".company"; ".solutions"; ".agency";
    ".email"; ".cc"; ".tv"; ".me"; ".asia"; ".mobi"; ".pro"; ".name";
    ".de"; ".fr"; ".au"; ".nl"; ".ru"; ".cn"; ".br"; ".in"; ".jp";
    ".live"; ".shop"; ".world"; ".guru"; ".news"; ".today"; ".ltd"; ".group" ].

Definition TLDS_TO_CHECK : list string :=
  sorted_set
    (map (fun tld => if startswith "." tld then tld else "." ++ tld) TLDS_RAW).

(** The triple returned by [tldextract.extract]. *)
Record ExtractResult : Type := {
  subdomain : string;
  domain : string;
  suffix : string
}.

Definition output_header : list string :=
  [ "Original Input Domain"; "Base Name Extracted"; "TLD Variant Checked";
    "Full Domain Queried"; "DNS Resolves (A/AAAA)"; "IP Addresses";
    "Name Servers (NS)"; "Mail Servers (MX)"; "WHOIS Creation Date";
    "WHOIS Updated Date"; "WHOIS Expiration Date"; "WHOIS Registrar";
    "WHOIS Domain Status"; "WHOIS Registrant Org"; "WHOIS Notes/Errors" ].

(** Local variables of [get_domain_variant_info]. *)
Record locals : Type := Locals {
  info : dict string;
  dns_errors : list string;
  whois_errors : list string;
  dns_resolved_ip : bool;
  dns_resolved_ns : bool;
  ip_addresses_list : list string;
  name_servers_list : list string;
  mail_servers_list : list string
}.

Definition init_locals (domain_variant : string) : locals :=
  {| info :=
       [ ("Full Domain Queried", domain_variant);
         ("DNS Resolves (A/AAAA)", "No");
         ("IP Addresses", "N/A");
         ("Name Servers (NS)", "N/A");
         ("Mail Servers (MX)", "N/A");
         ("WHOIS Creation Date", "N/A");
         ("WHOIS Updated Date", "N/A");
         ("WHOIS Expiration Date", "N/A");
         ("WHOIS Registrar", "N/A");
         ("WHOIS Domain Status", "N/A");
         ("WHOIS Registrant Org", "N/A");
         ("WHOIS Notes/Errors", "") ];
     dns_errors := [];
     whois_errors := [];
     dns_resolved_ip := false;
     dns_resolved_ns := false;
     ip_addresses_list := [];
     name_servers_list := [];
     mail_servers_list := [] |}.

(** [info[k] = v] *)
Definition set_info (k v : string) : M locals unit :=
  modify (fun l =>
    Locals (dict_set k v (info l)) (dns_errors l) (whois_errors l)
           (dns_resolved_ip l) (dns_resolved_ns l) (ip_addresses_list l)
           (name_servers_list l) (mail_servers_list l)).

(** [dns_errors.append(s)] *)
Definition append_dns_error (s : string) : M locals unit :=
  modify (fun l =>
    Locals (info l) (dns_errors l ++ [s]) (whois_errors l)
           (dns_resolved_ip l) (dns_resolved_ns l) (ip_addresses_list l)
           (name_servers_list l) (mail_servers_list l)).

(** [whois_errors.append(s)] *)
Definition append_whois_error (s : string) : M locals unit :=
  modify (fun l =>
    Locals (info l) (dns_errors l) (whois_errors l ++ [s])
           (dns_resolved_ip l) (dns_resolved_ns l) (ip_addresses_list l)
           (name_servers_list l) (mail_servers_list l)).

Definition set_dns_resolved_ip (b : bool) : M locals unit :=
  modify (fun l =>
    Locals (info l) (dns_errors l) (whois_errors l)
           b (dns_resolved_ns l) (ip_addresses_list l)
           (name_servers_list l) (mail_servers_list l)).

Definition set_dns_resolved_ns (b : bool) : M locals unit :=
  modify (fun l =>
    Locals (info l) (dns_errors l) (whois_errors l)
           (dns_resolved_ip l) b (ip_addresses_list l)
           (name_servers_list l) (mail_servers_list l)).

(** [ip_addresses_list.append(s)] *)
Definition append_ip (s : string) : M locals unit :=
  modify (fun l =>
    Locals (info l) (dns_errors l) (whois_errors l)
           (dns_resolved_ip l) (dns_resolved_ns l) (ip_addresses_list l ++ [s])
           (name_servers_list l) (mail_servers_list l)).

(** [name_servers_list.append(s)] *)
Definition append_ns (s : string) : M locals unit :=
  modify (fun l =>
    Locals (info l) (dns_errors l) (whois_errors l)
           (dns_resolved_ip l) (dns_resolved_ns l) (ip_addresses_list l)
           (name_servers_list l ++ [s]) (mail_servers_list l)).

(** [mail_servers_list.append(s)] *)
Definition append_mx (s : string) : M locals unit :=
  modify (fun l =>
    Locals (info l) (dns_errors l) (whois_errors l)
           (dns_resolved_ip l) (dns_resolved_ns l) (ip_addresses_list l)
           (name_servers_list l) (mail_servers_list l ++ [s])).

Definition set_mail_servers_list (ms : list string) : M locals unit :=
  modify (fun l =>
    Locals (info l) (dns_errors l) (whois_errors l)
           (dns_resolved_ip l) (dns_resolved_ns l) (ip_addresses_list l)
           (name_servers_list l) ms).

(** The entry the MX loop appends for one record:
    [f"{rdata.preference} {rdata.exchange.to_text().rstrip('.')}"]. *)
Definition mx_entry (rdata : Z * string) : string :=
  str_of_int (fst rdata) ++ " " ++ rstrip_char "." (snd rdata).

(** The sort key [lambda x: (int(x.split()[0]), x.split()[1])]. *)
Definition mx_sort_key (x : string) : exn + (Z * string) :=
  match nth_error (split x) 0 with
  | None => inl (Exn IndexError "list index out of range")
  | Some tok =>
      match int_of_str tok with
      | None =>
          inl (Exn ValueError
                 ("invalid literal for int() with base 10: " ++ repr_of_str tok))
      | Some n =>
          match nth_error (split x) 1 with
          | None => inl (Exn IndexError "list index out of range")
          | Some name => inr (n, name)
          end
      end
  end.

(** What the sort of the MX entries orders by, read off a record: its
    preference, then its exchange name without the trailing dots. *)
Definition mx_key (rdata : Z * string) : Z * string :=
  (fst rdata, rstrip_char "." (snd rdata)).

(** An exchange name that leaves a token behind: not empty once the
    trailing dots are gone, and free of whitespace. *)
Definition exchange_ok (rdata : Z * string) : bool :=
  nonempty (rstrip_char "." (snd rdata))
  && no_space (rstrip_char "." (snd rdata)).

(** Lines 129-133 of [get_val]: the attribute if the object has it,
    else the dict entry if the object is a dict, else [None]. *)
Definition field_value (data_obj : whois_obj) (attr_name : string) : pyval :=
  if hasattr data_obj attr_name then getattr_default data_obj attr_name
  else match w_items data_obj with
       | Some items =>
           match dict_get attr_name items with Some v => v | None => PNone end
       | None => PNone
       end.

(** [get_val], the closure defined inside the WHOIS block.  The
    parameter [is_list] is accepted and never read, as in the source. *)
Definition get_val (data_obj : whois_obj) (attr_name : string)
  (is_list_flag is_date : bool) : string :=
  let val := field_value data_obj attr_name in
  if truthy val then
    match val with
    | PList l =>
        if negb (nonnil l) then "N/A"
        else if is_date && nonnil l then
          match l with
          | v0 :: _ => str v0
          | [] => "N/A"
          end
        else
          join ", "
            (sorted_set (map (fun v => strip (str v)) (filter truthy l)))
    | _ => strip (str val)
    end
  else "N/A".

Definition pywhois_no_match_markers : list string :=
  [ "no match"; "not found"; "no entries"; "available"; "invalid query" ].

Section WithCollaborators.

Variable extract : string -> ExtractResult.
Variable net : Network.

Definition extract_meaningful_base (fqdn : string) : string :=
  let ext := extract (strip (lower fqdn)) in
  if nonempty (subdomain ext) then subdomain ext ++ "." ++ domain ext
  else domain ext.

(** Step 1: A and AAAA records. *)
Definition check_ip (domain_variant : string) : M locals unit :=
  try_except
    (for_each [RdA; RdAAAA] (fun rdtype =>
       answers <- ask (QDns domain_variant rdtype)
                      (dns_addr net domain_variant rdtype) ;;
       for_each answers (fun rdata => append_ip rdata)) ;;
     l <- get ;;
     if nonnil (ip_addresses_list l) then
       set_info "IP Addresses" (join ", " (sorted_set (ip_addresses_list l))) ;;
       set_info "DNS Resolves (A/AAAA)" "Yes" ;;
       set_dns_resolved_ip true
     else ret tt)
    (fun e =>
       match exn_cls e with
       | NXDOMAIN => append_dns_error "DNS NXDOMAIN (IP)"
       | NoAnswer => append_dns_error "DNS NoAnswer (IP)"
       | DnsTimeout => append_dns_error "DNS Timeout (IP)"
       | _ => append_dns_error ("DNS IP Error: " ++ exn_type_name e)
       end).

(** Step 2: NS records. *)
Definition check_ns (domain_variant : string) : M locals unit :=
  try_except
    (answers <- ask (QDns domain_variant RdNS) (dns_ns net domain_variant) ;;
     for_each answers (fun target => append_ns (rstrip_char "." target)) ;;
     l <- get ;;
     if nonnil (name_servers_list l) then
       set_info "Name Servers (NS)"
                (join ", " (sorted_set (name_servers_list l))) ;;
       set_dns_resolved_ns true
     else ret tt)
    (fun e =>
       match exn_cls e with
       | NXDOMAIN =>
           l <- get ;;
           if negb (dns_resolved_ip l) then append_dns_error "DNS NXDOMAIN (NS)"
           else ret tt
       | NoAnswer => append_dns_error "DNS NoAnswer (NS)"
       | DnsTimeout => append_dns_error "DNS Timeout (NS)"
       | _ => append_dns_error ("DNS NS Error: " ++ exn_type_name e)
       end).

(** Step 3: MX records. *)
Definition check_mx (domain_variant : string) : M locals unit :=
  try_except
    (answers <- ask (QDns domain_variant RdMX) (dns_mx net domain_variant) ;;
     for_each answers (fun rdata => append_mx (mx_entry rdata)) ;;
     l <- get ;;
     if nonnil (mail_servers_list l) then
       ms <- lift (sort_with_key mx_sort_key key_leb (mail_servers_list l)) ;;
       set_mail_servers_list ms ;;
       set_info "Mail Servers (MX)" (join ", " ms)
     else ret tt)
    (fun e =>
       match exn_cls e with
       | NXDOMAIN =>
           l <- get ;;
           if negb (dns_resolved_ip l) && negb (dns_resolved_ns l)
           then append_dns_error "DNS NXDOMAIN (MX)"
           else ret tt
       | NoAnswer => append_dns_error "DNS NoAnswer (MX)"
       | DnsTimeout => append_dns_error "DNS Timeout (MX)"
       | _ => append_dns_error ("DNS MX Error: " ++ exn_type_name e)
       end).

(** The guard of step 4:
    [dns_resolved_ip or dns_resolved_ns or
     not any("NXDOMAIN (IP)" in e and "NXDOMAIN (NS)" in e for e in dns_errors)]. *)
Definition whois_wanted (l : locals) : bool :=
  dns_resolved_ip l || dns_resolved_ns l
  || negb (existsb (fun e => contains "NXDOMAIN (IP)" e
                             && contains "NXDOMAIN (NS)" e)
                   (dns_errors l)).

(** [w and (w.domain_name or w.get('domain_name') or w.text)], with
    Python's short-circuit evaluation. *)
Definition whois_has_data (w : option whois_obj) : exn + bool :=
  match w with
  | None => inr false
  | Some w =>
      if negb (obj_truthy w) then inr false
      else
        match getattr w "domain_name" with
        | inl e => inl e
        | inr v1 =>
            if truthy v1 then inr true
            else
              match dict_get_method w "domain_name" with
              | inl e => inl e
              | inr v2 =>
                  if truthy v2 then inr true
                  else
                    match getattr w "text" with
                    | inl e => inl e
                    | inr v3 => inr (truthy v3)
                    end
              end
        end
  end.

(** Step 4: WHOIS. *)
Definition check_whois (domain_variant : string) : M locals unit :=
  l0 <- get ;;
  if whois_wanted l0 then
    try_except
      (w <- ask (QWhois domain_variant) (whois_reply net domain_variant) ;;
       has_data <- lift (whois_has_data w) ;;
       l <- get ;;
       let active := dns_resolved_ip l || dns_resolved_ns l in
       match w, has_data with
       | Some w, true =>
           set_info "WHOIS Creation Date" (get_val w "creation_date" false true) ;;
           set_info "WHOIS Updated Date" (get_val w "updated_date" false true) ;;
           set_info "WHOIS Expiration Date"
                    (get_val w "expiration_date" false true) ;;
           set_info "WHOIS Registrar" (get_val w "registrar" false false) ;;
           set_info "WHOIS Domain Status" (get_val w "status" true false) ;;
           let registrant_org := get_val w "org" false false in
           let registrant_org :=
             if String.eqb registrant_org "N/A"
             then get_val w "registrant_organization" false false
             else registrant_org in
           set_info "WHOIS Registrant Org" registrant_org ;;
           if (String.eqb (get_val w "domain_name" false false) "N/A"
               || negb (nonempty (get_val w "domain_name" false false)))
              && negb active
           then append_whois_error "WHOIS data sparse or domain may be available."
           else if negb active
           then append_whois_error
                  "WHOIS found, but no active DNS (A/AAAA or NS)."
           else ret tt
       | _, _ =>
           if negb active
           then append_whois_error
                  "Domain likely not registered (WHOIS empty/no match)."
           else append_whois_error
                  "DNS resolves, but WHOIS lookup failed or returned no data."
       end)
      (fun e =>
         match exn_cls e with
         | PywhoisError =>
             let err_str := lower (exn_str e) in
             if existsb (fun s => contains s err_str) pywhois_no_match_markers
             then append_whois_error
                    "WHOIS: No match/Not found (likely available or invalid query)."
             else append_whois_error ("WHOIS Error: " ++ take 100 (exn_str e))
         | ConnectionResetError =>
             append_whois_error "WHOIS Error: ConnectionResetError"
         | SocketTimeout => append_whois_error "WHOIS Error: Socket Timeout"
         | AttributeError =>
             append_whois_error
               ("WHOIS AttrError: " ++ take 50 (exn_str e)
                ++ " (data structure unexpected)")
         | _ =>
             append_whois_error
               ("WHOIS General Error: " ++ exn_type_name e ++ " - "
                ++ take 50 (exn_str e))
         end)
  else append_whois_error "Skipped WHOIS due to DNS indicating non-existence.".

(** The notes column, assembled from both error lists. *)
Definition assemble_notes : M locals unit :=
  l <- get ;;
  let dns_note := "DNS: " ++ join "; " (sorted_set (dns_errors l)) in
  let whois_note := "WHOIS: " ++ join "; " (sorted_set (whois_errors l)) in
  let all_notes : list string :=
    List.app (if nonnil (dns_errors l) then [dns_note] else [])
             (if nonnil (whois_errors l) then [whois_note] else []) in
  set_info "WHOIS Notes/Errors"
           (if nonnil all_notes then join " | " all_notes else "OK").

Definition get_domain_variant_info_body (domain_variant : string)
  : M locals (dict string) :=
  check_ip domain_variant ;;
  check_ns domain_variant ;;
  check_mx domain_variant ;;
  check_whois domain_variant ;;
  assemble_notes ;;
  l <- get ;;
  ret (info l).

Definition get_domain_variant_info {L : Type} (domain_variant : string)
  : M L (dict string) :=
  call (init_locals domain_variant)
       (get_domain_variant_info_body domain_variant).

(** Local variables of [main]. *)
Record main_locals : Type := MainLocals {
  results_data : list (dict string)
}.

(** [results_data.append(row)] *)
Definition append_result (row : dict string) : M main_locals unit :=
  modify (fun l => MainLocals (results_data l ++ [row])).

Definition error_row (orig_domain : string) : dict string :=
  [ ("Original Input Domain", orig_domain);
    ("Base Name Extracted", "Error");
    ("WHOIS Notes/Errors", "Could not extract base name from input.") ].

(** The body of the loop over [original_domains]. *)
Definition process_domain (orig_domain : string) : M main_locals unit :=
  let base_name := extract_meaningful_base orig_domain in
  if negb (nonempty base_name) then append_result (error_row orig_domain)
  else
    for_each TLDS_TO_CHECK (fun tld =>
      let domain_variant_to_check := base_name ++ tld in
      variant_info <- get_domain_variant_info domain_variant_to_check ;;
      let row :=
        dict_update [ ("Original Input Domain", orig_domain);
                      ("Base Name Extracted", base_name);
                      ("TLD Variant Checked", tld) ] variant_info in
      append_result row).

(** [writer.writeheader(); writer.writerows(results_data)]: the rows
    reach the file one by one, up to the first one [DictWriter] refuses. *)
Fixpoint writerows (rows : list (dict string)) : list (list string) :=
  match rows with
  | [] => []
  | r :: rows' =>
      match dict_to_list output_header r with
      | inr fields => fields :: writerows rows'
      | inl _ => []
      end
  end.

(** [main] on the lines of the input file.  The result is the content
    of the output file as rows of fields, header first, or [None] when
    the program returns before opening it.  File-system failures, the
    progress messages and the pause after each variant are left out. *)
Definition main (lines : list string) : M main_locals (option (list (list string))) :=
  let original_domains :=
    map strip (filter (fun line => nonempty (strip line)) lines) in
  if negb (nonnil original_domains) then ret None
  else
    for_each original_domains process_domain ;;
    l <- get ;;
    ret (Some (output_header :: writerows (results_data l))).

End WithCollaborators.

(** The WHOIS columns of a row and the attributes each is read from. *)
Definition whois_columns : list (string * list string) :=
  [ ("WHOIS Creation Date", ["creation_date"]);
    ("WHOIS Updated Date", ["updated_date"]);
    ("WHOIS Expiration Date", ["expiration_date"]);
    ("WHOIS Registrar", ["registrar"]);
    ("WHOIS Domain Status", ["status"]);
    ("WHOIS Registrant Org", ["org"; "registrant_organization"]) ].

(** A field that is absent, empty, or cannot be looked up. *)
Definition field_missing (w : whois_obj) (attr : string) : bool :=
  negb (truthy (field_value w attr)).

(** The fields [DictWriter] writes for a row whose keys are all in the
    header: the value of each header column, and the empty string for a
    column the row does not have. *)
Definition row_fields (row : dict string) : list string :=
  map (fun k => match dict_get k row with Some v => v | None => "" end)
      output_header.



(** Line 20 on any catalog. *)
Definition normalize_tlds (raw : list string) : list string :=
  sorted_set (map (fun tld => if startswith "." tld then tld else "." ++ tld) raw).

(** The dict [get_domain_variant_info] returns for a variant. *)
Definition variant_info (net : Network) (domain_variant : string)
  : dict string :=
  match res (@get_domain_variant_info net unit domain_variant tt []) with
  | inr i => i
  | inl _ => []
  end.





(** The domains [main] works on: the non-blank lines, trimmed. *)
Definition original_domains (lines : list string) : list string :=
  map strip (filter (fun line => nonempty (strip line)) lines).

(** A small stand-in for the public-suffix extractor, over a table of
    five suffixes; it only serves to run the definitions on examples. *)
Definition sample_suffixes : list (list string) :=
  [ ["co"; "uk"]; ["com"]; ["org"]; ["net"]; ["uk"] ].

Definition list_string_eqb (a b : list string) : bool :=
  if list_eq_dec string_dec a b then true else false.

Fixpoint split_suffix (labels : list string) : list string * list string :=
  match labels with
  | [] => ([], [])
  | x :: rest =>
      if existsb (list_string_eqb labels) sample_suffixes then ([], labels)
      else let (pre, suf) := split_suffix rest in (x :: pre, suf)
  end.

Definition sample_extract (name : string) : ExtractResult :=
  let (pre, suf) := split_suffix (split_char "." name) in
  {| subdomain := join "." (removelast pre);
     domain := last pre "";
     suffix := join "." suf |}.

End TldChecker.

(* ================================================================== *)
(** * The domain-info collector ([domain_info_collector.py]) *)
(* ================================================================== *)

Module Collector.
Import Py Model.
#[local] Open Scope py_scope.

(** Local variables of [get_domain_info]. *)
Record locals : Type := Locals {
  info_parts : list string;
  errors : list string;
  ip_addresses : list string;
  mail_servers : list string
}.

Definition init_locals : locals := Locals [] [] [] [].

(** [info_parts.append(s)] *)
Definition append_info (s : string) : M locals unit :=
  modify (fun l =>
    Locals (info_parts l ++ [s]) (errors l) (ip_addresses l) (mail_servers l)).

(** [errors.append(s)] *)
Definition append_error (s : string) : M locals unit :=
  modify (fun l =>
    Locals (info_parts l) (errors l ++ [s]) (ip_addresses l) (mail_servers l)).

(** [ip_addresses.append(s)] *)
Definition append_ip (s : string) : M locals unit :=
  modify (fun l =>
    Locals (info_parts l) (errors l) (ip_addresses l ++ [s]) (mail_servers l)).

(** [mail_servers.append(s)] *)
Definition append_mx (s : string) : M locals unit :=
  modify (fun l =>
    Locals (info_parts l) (errors l) (ip_addresses l) (mail_servers l ++ [s])).

(** [f"{v if v else 'N/A'}"] *)
Definition fmt_or_na (v : pyval) : string :=
  if truthy v then str v else "N/A".

(** [f"{w.a if hasattr(w, 'a') and w.a else 'N/A'}"] *)
Definition guarded_or_na (w : whois_obj) (attr : string) : string :=
  if hasattr w attr && truthy (getattr_default w attr)
  then str (getattr_default w attr) else "N/A".

(** [a or b] *)
Definition py_or (a b : pyval) : pyval := if truthy a then a else b.

(** Lines 24-31: the registrar URL, taken from the record or guessed
    from the registrar's name. *)
Definition main_registrar_name (registrar : string) : string :=
  replace_char "." ""
    (replace_char " " "" (lower (hd "" (split_char "," registrar)))).

Definition registrar_url_of (w : whois_obj) : exn + pyval :=
  if hasattr w "registrar_url" && truthy (getattr_default w "registrar_url")
  then inr (getattr_default w "registrar_url")
  else
    match getattr w "registrar" with
    | inl e => inl e
    | inr reg =>
        if truthy reg then
          match reg with
          | PStr s =>
              if nonempty (main_registrar_name s)
              then inr (PStr ("https://www." ++ main_registrar_name s ++ ".com"))
              else inr (PStr "N/A")
          | v => inl (no_attribute (tp_name v) "split")
          end
        else inr (PStr "N/A")
    end.

(** Lines 35-45: a date that may come as a list keeps its first element. *)
Definition first_if_list (v : pyval) : pyval :=
  match v with
  | PList (x :: _) => x
  | PList [] => PNone
  | _ => v
  end.

Definition date_line (w : whois_obj) (label attr : string) : M locals unit :=
  v <- lift (getattr w attr) ;;
  let v := first_if_list v in
  append_info (label ++ ": " ++ (if truthy v then str v else "N/A")).

(** Lines 54-57. *)
Definition status_line (w : whois_obj) : M locals unit :=
  st <- lift (getattr w "status") ;;
  if is_list st then
    if truthy st then
      txt <- lift (join_val ", " st) ;;
      append_info ("Domain Status: " ++ txt)
    else append_info "Domain Status: N/A"
  else append_info ("Domain Status: " ++ (if truthy st then str st else "N/A")).

(** Lines 63-74: one pass of the loop over the contact kinds. *)
Definition contact_lines (w : whois_obj) (prefix : string) : M locals unit :=
  let name :=
    if String.eqb prefix "registrant"
    then py_or (getattr_default w (prefix ++ "_name")) (getattr_default w "name")
    else getattr_default w (prefix ++ "_name") in
  let org :=
    if String.eqb prefix "registrant"
    then py_or (getattr_default w (prefix ++ "_organization"))
               (getattr_default w "org")
    else getattr_default w (prefix ++ "_organization") in
  let email := getattr_default w (prefix ++ "_email") in
  (if truthy name
   then append_info (capitalize prefix ++ " Name: " ++ str name)
   else ret tt) ;;
  (if truthy org
   then append_info (capitalize prefix ++ " Organization: " ++ str org)
   else ret tt) ;;
  (if truthy email
   then append_info (capitalize prefix ++ " Email: " ++ str email)
   else ret tt).

(** Lines 77-80. *)
Definition name_server_line (w : whois_obj) : M locals unit :=
  ns <- lift (getattr w "name_servers") ;;
  if truthy ns then
    txt <- lift (join_val ", " ns) ;;
    append_info ("Name Server: " ++ txt)
  else append_info "Name Server: N/A".

(** Lines 20-80: the fields of a record that carries a domain name. *)
Definition whois_fields (w : whois_obj) (dn : pyval) : M locals unit :=
  dn_text <- (if is_str dn then ret (str dn) else lift (join_val ", " dn)) ;;
  append_info ("Domain Name: " ++ dn_text) ;;
  rid <- lift (getattr w "registry_domain_id") ;;
  append_info ("Registry Domain ID: " ++ fmt_or_na rid) ;;
  srv <- lift (getattr w "whois_server") ;;
  append_info ("Registrar WHOIS Server: " ++ fmt_or_na srv) ;;
  registrar_url <- lift (registrar_url_of w) ;;
  append_info ("Registrar URL: " ++ str registrar_url) ;;
  date_line w "Updated Date" "updated_date" ;;
  date_line w "Creation Date" "creation_date" ;;
  date_line w "Registrar Registration Expiration Date" "expiration_date" ;;
  reg <- lift (getattr w "registrar") ;;
  append_info ("Registrar: " ++ fmt_or_na reg) ;;
  append_info ("Registrar IANA ID: " ++ guarded_or_na w "iana_id") ;;
  append_info ("Registrar Abuse Contact Email: "
               ++ guarded_or_na w "abuse_contact_email") ;;
  append_info ("Registrar Abuse Contact Phone: "
               ++ guarded_or_na w "abuse_contact_phone") ;;
  status_line w ;;
  for_each ["registrant"; "admin"; "tech"] (contact_lines w) ;;
  name_server_line w.

Section WithNetwork.

Variable net : Network.

(** The WHOIS part of [get_domain_info]. *)
Definition whois_block (domain_name : string) : M locals unit :=
  try_except
    (w <- ask (QWhois domain_name) (whois_reply net domain_name) ;;
     match w with
     | Some w =>
         if obj_truthy w then
           dn <- lift (getattr w "domain_name") ;;
           if truthy dn then whois_fields w dn
           else
             append_info "WHOIS information incomplete or lookup failed." ;;
             if hasattr w "text" && truthy (getattr_default w "text")
             then append_info
                    "Raw WHOIS response might contain partial data or error message."
             else ret tt
         else
           append_info "WHOIS lookup failed to return any data." ;;
           append_error ("WHOIS lookup failed for " ++ domain_name)
     | None =>
         append_info "WHOIS lookup failed to return any data." ;;
         append_error ("WHOIS lookup failed for " ++ domain_name)
     end)
    (fun e =>
       match exn_cls e with
       | PywhoisError =>
           append_info ("WHOIS Error: " ++ exn_str e) ;;
           append_error ("WHOIS lookup error for " ++ domain_name ++ ": "
                         ++ exn_str e)
       | AttributeError =>
           append_info ("WHOIS Attribute Error: " ++ exn_str e
                        ++ " (data might be incomplete or structured differently)") ;;
           append_error ("WHOIS attribute error for " ++ domain_name ++ ": "
                         ++ exn_str e)
       | _ =>
           append_info ("WHOIS General Error: " ++ exn_str e) ;;
           append_error ("General WHOIS processing error for " ++ domain_name
                         ++ ": " ++ exn_str e)
       end).

(** The A/AAAA part. *)
Definition ip_block (domain_name : string) : M locals unit :=
  try_except
    (for_each [RdA; RdAAAA] (fun rdtype =>
       answers <- ask (QDns domain_name rdtype)
                      (dns_addr net domain_name rdtype) ;;
       for_each answers (fun rdata => append_ip rdata)) ;;
     l <- get ;;
     append_info ("Server IP (A/AAAA): "
                  ++ (if nonnil (ip_addresses l)
                      then join ", " (ip_addresses l)
                      else "No A/AAAA record found")))
    (fun e =>
       match exn_cls e with
       | NXDOMAIN =>
           append_info "Server IP (A/AAAA): NXDOMAIN (Domain does not exist)" ;;
           append_error ("DNS NXDOMAIN for " ++ domain_name ++ " (A/AAAA)")
       | NoAnswer =>
           append_info "Server IP (A/AAAA): No A/AAAA record found" ;;
           append_error ("DNS NoAnswer for " ++ domain_name ++ " (A/AAAA)")
       | DnsTimeout =>
           append_info "Server IP (A/AAAA): DNS Timeout" ;;
           append_error ("DNS Timeout for " ++ domain_name ++ " (A/AAAA)")
       | _ =>
           append_info ("Server IP (A/AAAA) Error: " ++ exn_str e) ;;
           append_error ("DNS A/AAAA lookup error for " ++ domain_name ++ ": "
                         ++ exn_str e)
       end).

(** The entry appended for one MX record:
    [f"{rdata.preference} {rdata.exchange.to_text()}"]. *)
Definition mx_entry (rdata : Z * string) : string :=
  str_of_int (fst rdata) ++ " " ++ snd rdata.

(** The MX part. *)
Definition mx_block (domain_name : string) : M locals unit :=
  try_except
    (answers <- ask (QDns domain_name RdMX) (dns_mx net domain_name) ;;
     for_each answers (fun rdata => append_mx (mx_entry rdata)) ;;
     l <- get ;;
     append_info ("Mail Server (MX): "
                  ++ (if nonnil (mail_servers l)
                      then join ", " (mail_servers l)
                      else "No MX record found")))
    (fun e =>
       match exn_cls e with
       | NXDOMAIN =>
           append_info "Mail Server (MX): NXDOMAIN (Domain does not exist)" ;;
           append_error ("DNS NXDOMAIN for " ++ domain_name ++ " (MX)")
       | NoAnswer =>
           append_info "Mail Server (MX): No MX record found" ;;
           append_error ("DNS NoAnswer for " ++ domain_name ++ " (MX)")
       | DnsTimeout =>
           append_info "Mail Server (MX): DNS Timeout" ;;
           append_error ("DNS Timeout for " ++ domain_name ++ " (MX)")
       | _ =>
           append_info ("Mail Server (MX) Error: " ++ exn_str e) ;;
           append_error ("DNS MX lookup error for " ++ domain_name ++ ": "
                         ++ exn_str e)
       end).

(** The text returned at the end of [get_domain_info]. *)
Definition render (l : locals) : string :=
  if negb (nonnil (info_parts l)) && nonnil (errors l)
  then "Error gathering information:" ++ nl ++ join nl (errors l)
  else if nonnil (errors l)
  then join nl (info_parts l) ++ nl ++ nl ++ "Encountered issues:" ++ nl
       ++ join nl (errors l)
  else join nl (info_parts l).

Definition get_domain_info_body (domain_name : string) : M locals string :=
  whois_block domain_name ;;
  ip_block domain_name ;;
  mx_block domain_name ;;
  l <- get ;;
  ret (render l).

Definition get_domain_info {L : Type} (domain_name : string) : M L string :=
  call init_locals (get_domain_info_body domain_name).

(** The rows handed to [csv.writer], in order. *)
Record csv_locals : Type := CsvLocals {
  written : list (list string)
}.

(** [writer.writerow(fields)] *)
Definition writerow (fields : list string) : M csv_locals unit :=
  modify (fun l => CsvLocals (written l ++ [fields])).

(** The test of line 183. *)
Definition invalid_format (domain_name : string) : bool :=
  negb (has_char "." domain_name) || has_char " " domain_name
  || Nat.ltb 253 (len domain_name).

(** The body of the loop over the rows of the input CSV. *)
Definition process_row (row : list string) : M csv_locals unit :=
  match row with
  | [] => ret tt
  | cell :: _ =>
      let domain_name := lower (strip cell) in
      if negb (nonempty domain_name)
      then writerow ["EMPTY_ROW"; "No domain provided in this row."]
      else if invalid_format domain_name
      then writerow [domain_name; "Invalid domain format"]
      else
        try_except
          (domain_information <- get_domain_info domain_name ;;
           writerow [domain_name; domain_information])
          (fun e =>
             writerow [domain_name;
                       "Critical error during processing for " ++ domain_name
                       ++ ": " ++ exn_str e])
  end.


End WithNetwork.

(** The fixed fields of the WHOIS block, by label: those read with a
    plain attribute access, the dates, and those guarded by [hasattr]. *)
Definition labelled_fields : list (string * string) :=
  [ ("Registry Domain ID", "registry_domain_id");
    ("Registrar WHOIS Server", "whois_server");
    ("Updated Date", "updated_date");
    ("Creation Date", "creation_date");
    ("Registrar Registration Expiration Date", "expiration_date");
    ("Registrar", "registrar");
    ("Registrar IANA ID", "iana_id");
    ("Registrar Abuse Contact Email", "abuse_contact_email");
    ("Registrar Abuse Contact Phone", "abuse_contact_phone");
    ("Domain Status", "status");
    ("Name Server", "name_servers") ].

(** The malformed-domain test in the words of the specification:
    no ['.'], or some whitespace inside, or more than 253 characters. *)
Definition malformed_as_specified (domain_name : string) : bool :=
  negb (has_char "." domain_name) || negb (no_space domain_name)
  || Nat.ltb 253 (len domain_name).


(** The text [get_domain_info] returns for a domain. *)
Definition domain_text (net : Network) (domain_name : string) : string :=
  match res (@get_domain_info net unit domain_name tt []) with
  | inr s => s
  | inl _ => ""
  end.





End Collector.

(* ================================================================== *)
(** * Sample replies, used to run the programs on concrete inputs *)
(* ================================================================== *)

Module Samples.
Import Py Model.

Definition tab : string := String (ascii_of_N 9) EmptyString.

(** A name that does not exist: every DNS lookup is answered NXDOMAIN
    and the WHOIS server knows no such domain. *)
Definition net_nxdomain : Network :=
  {| dns_addr := fun _ _ =>
       inl (Exn NXDOMAIN "The DNS query name does not exist.");
     dns_ns := fun _ => inl (Exn NXDOMAIN "The DNS query name does not exist.");
     dns_mx := fun _ => inl (Exn NXDOMAIN "The DNS query name does not exist.");
     whois_reply := fun _ => inl (Exn PywhoisError "No match for domain.") |}.

Definition sample_record : whois_obj :=
  whois_entry
    [ ("domain_name", PStr "EXAMPLE.COM");
      ("registrar", PStr "Example Registrar, Inc.");
      ("creation_date",
       PList [PDate (Datetime 1995 8 14 4 0 0 0);
              PDate (Datetime 1995 8 14 0 0 0 0)]);
      ("status", PList [PStr "b"; PStr "a"; PStr "b"]);
      ("name_servers", PList [PStr "ns2.example"; PStr "ns1.example"]) ].

(** A live name: two A records, one AAAA record, the MX answers of the
    specification's example, and a WHOIS record. *)
Definition net_live : Network :=
  {| dns_addr := fun _ rd =>
       match rd with
       | RdA => inr ["2.2.2.2"; "1.1.1.1"]
       | _ => inr ["::1"]
       end;
     dns_ns := fun _ => inr ["ns2.example."; "ns1.example."];
     dns_mx := fun _ => inr [(20%Z, "b.mx.example"); (10%Z, "a.mx.example")];
     whois_reply := fun _ => inr (Some sample_record) |}.

(** A name that publishes the null MX record of RFC 7505. *)
Definition net_null_mx : Network :=
  {| dns_addr := fun _ _ => inr ["192.0.2.1"];
     dns_ns := fun _ => inr ["ns1.example."];
     dns_mx := fun _ => inr [(0%Z, ".")];
     whois_reply := fun _ => inr (Some sample_record) |}.



(** An object, not a dict, on which [registry_domain_id] cannot
    be looked up. *)
Definition record_no_registry_id : whois_obj :=
  {| w_class := "Record";
     w_getattr := fun a =>
       if String.eqb a "domain_name" then Some (PStr "EXAMPLE.COM")
       else None;
     w_items := None |}.

Definition net_no_registry_id : Network :=
  {| dns_addr := fun _ _ => inr ["192.0.2.1"];
     dns_ns := fun _ => inr ["ns1.example."];
     dns_mx := fun _ => inr [(10%Z, "mx.example.")];
     whois_reply := fun _ => inr (Some record_no_registry_id) |}.

(** A host with an IPv4 address and no IPv6 address: the AAAA lookup
    finds no record of that type. *)
Definition net_ipv4_only : Network :=
  {| dns_addr := fun _ rd =>
       match rd with
       | RdA => inr ["192.0.2.1"]
       | _ => inl (Exn NoAnswer
                     "The DNS response does not contain an answer to the question.")
       end;
     dns_ns := fun _ => inr ["ns1.example."];
     dns_mx := fun _ => inr [(10%Z, "mx.example.")];
     whois_reply := fun _ => inr (Some sample_record) |}.

(** The live name as another resolver may answer for it: the same
    records in another order, one of them twice. *)
Definition net_live_reordered : Network :=
  {| dns_addr := fun _ rd =>
       match rd with
       | RdA => inr ["1.1.1.1"; "2.2.2.2"; "1.1.1.1"]
       | _ => inr ["::1"]
       end;
     dns_ns := fun _ => inr ["ns1.example"; "ns2.example."];
     dns_mx := fun _ => inr [(10%Z, "a.mx.example"); (20%Z, "b.mx.example")];
     whois_reply := fun _ => inr (Some sample_record) |}.

(** A name that is registered and not set up: DNS does not know it,
    the registry does. *)
Definition net_parked : Network :=
  {| dns_addr := fun _ _ =>
       inl (Exn NXDOMAIN "The DNS query name does not exist.");
     dns_ns := fun _ => inl (Exn NXDOMAIN "The DNS query name does not exist.");
     dns_mx := fun _ => inl (Exn NXDOMAIN "The DNS query name does not exist.");
     whois_reply := fun _ => inr (Some sample_record) |}.

End Samples.

(* ================================================================== *)
(** * Facts about the primitives *)
(* ================================================================== *)

Import Py Model.
#[local] Open Scope py_scope.

(** ** The primitives on small inputs *)

Example strip_example : strip "  a b  " = "a b".
Proof. reflexivity. Qed.

Example split_example : split " 10  a.mx.example " = ["10"; "a.mx.example"].
Proof. reflexivity. Qed.

Example split_char_example : split_char "," "a,b,,c" = ["a"; "b"; ""; "c"].
Proof. reflexivity. Qed.

Example rstrip_char_example : rstrip_char "." "mx.example.." = "mx.example".
Proof. reflexivity. Qed.

Example capitalize_example : capitalize "registrant" = "Registrant".
Proof. reflexivity. Qed.

Example sorted_set_example : sorted_set ["b"; "a"; "b"; "B"] = ["B"; "a"; "b"].
Proof. reflexivity. Qed.

Example int_example :
  (str_of_int (-15), str_of_int 0, int_of_str "007", int_of_str "x1")
  = ("-15", "0", Some 7%Z, None).
Proof. reflexivity. Qed.

Example str_example :
  str (PDate (Datetime 2020 1 2 3 4 5 0)) = "2020-01-02 03:04:05"
  /\ str (PList [PStr "a"; PNone]) = "['a', None]".
Proof. split; reflexivity. Qed.

Example mx_sort_key_example :
  TldChecker.mx_sort_key "10 a.mx.example" = inr (10%Z, "a.mx.example")
  /\ TldChecker.mx_sort_key "0 "
     = inl (Exn IndexError "list index out of range").
Proof. split; reflexivity. Qed.

Example TLDS_TO_CHECK_example :
  List.length TldChecker.TLDS_TO_CHECK = 56
  /\ firstn 3 TldChecker.TLDS_TO_CHECK = [".agency"; ".ai"; ".app"].
Proof. split; reflexivity. Qed.

Example sample_extract_example :
  TldChecker.sample_extract "sub.example.co.uk"
  = {| TldChecker.subdomain := "sub"; TldChecker.domain := "example";
       TldChecker.suffix := "co.uk" |}
  /\ TldChecker.sample_extract "co.uk"
     = {| TldChecker.subdomain := ""; TldChecker.domain := "";
          TldChecker.suffix := "co.uk" |}.
Proof. split; reflexivity. Qed.

(** ** Stable insertion sort *)

Section SortFacts.
Context {A K : Type} (key : A -> K) (leb : K -> K -> bool).
Hypothesis leb_total : forall a b, leb a b = true \/ leb b a = true.

Lemma insert_by_perm (x : A) (l : list A) :
  Permutation (insert_by key leb x l) (x :: l).
Proof.
  induction l as [|y l IH]; simpl.
  - apply Permutation_refl.
  - destruct (leb (key x) (key y)).
    + apply Permutation_refl.
    + eapply Permutation_trans.
      * apply perm_skip. exact IH.
      * apply perm_swap.
Qed.

Lemma sort_by_perm (l : list A) : Permutation (sort_by key leb l) l.
Proof.
  induction l as [|x l IH]; simpl.
  - constructor.
  - eapply Permutation_trans.
    + apply insert_by_perm.
    + apply perm_skip. exact IH.
Qed.

Lemma insert_by_hdrel (a x : A) (l : list A) :
  leb (key a) (key x) = true ->
  HdRel (fun u v => leb (key u) (key v) = true) a l ->
  HdRel (fun u v => leb (key u) (key v) = true) a (insert_by key leb x l).
Proof.
  intros Hax Hal. destruct l as [|y l]; simpl.
  - constructor. exact Hax.
  - destruct (leb (key x) (key y)); constructor.
    + exact Hax.
    + inversion Hal; assumption.
Qed.

Lemma insert_by_sorted (x : A) (l : list A) :
  Sorted (fun u v => leb (key u) (key v) = true) l ->
  Sorted (fun u v => leb (key u) (key v) = true) (insert_by key leb x l).
Proof.
  induction l as [|y l IH]; simpl; intros Hs.
  - repeat constructor.
  - destruct (leb (key x) (key y)) eqn:Hxy.
    + constructor; [exact Hs | constructor; exact Hxy].
    + inversion Hs as [|? ? Hs' Hhd]; subst.
      constructor.
      * apply IH. exact Hs'.
      * apply insert_by_hdrel; [|exact Hhd].
        destruct (leb_total (key x) (key y)) as [H|H]; [congruence | exact H].
Qed.

Lemma sort_by_sorted (l : list A) :
  Sorted (fun u v => leb (key u) (key v) = true) (sort_by key leb l).
Proof.
  induction l as [|x l IH]; simpl.
  - constructor.
  - apply insert_by_sorted. exact IH.
Qed.
End SortFacts.

(** Sorting decorated pairs by their first component is sorting the
    list by the decoration. *)
Lemma insert_by_decorated {A B K : Type} (k : A -> K) (g : A -> B)
  (leb : K -> K -> bool) (x : A) (l : list A) :
  insert_by fst leb (k x, g x) (map (fun y => (k y, g y)) l)
  = map (fun y => (k y, g y)) (insert_by k leb x l).
Proof.
  induction l as [|y l IH]; simpl.
  - reflexivity.
  - destruct (leb (k x) (k y)); simpl.
    + reflexivity.
    + rewrite IH. reflexivity.
Qed.

Lemma sort_by_decorated {A B K : Type} (k : A -> K) (g : A -> B)
  (leb : K -> K -> bool) (l : list A) :
  sort_by fst leb (map (fun y => (k y, g y)) l)
  = map (fun y => (k y, g y)) (sort_by k leb l).
Proof.
  induction l as [|x l IH]; simpl.
  - reflexivity.
  - rewrite IH. apply insert_by_decorated.
Qed.

Lemma key_leb_total (a b : Z * string) :
  key_leb a b = true \/ key_leb b a = true.
Proof.
  unfold key_leb. destruct a as [n s], b as [m u]; simpl.
  destruct (Z.ltb_spec n m) as [Hlt|Hge]; [left; reflexivity|].
  destruct (Z.ltb_spec m n) as [Hlt'|Hge']; [right; reflexivity|].
  assert (n = m) by lia. subst m.
  rewrite Z.eqb_refl. simpl. apply String.leb_total.
Qed.

(** ** [sorted(list(set(l)))] *)

Lemma sorted_perm (l : list string) : Permutation (sorted l) l.
Proof. apply sort_by_perm. Qed.

Lemma sorted_set_In (l : list string) (x : string) :
  In x (sorted_set l) <-> In x l.
Proof.
  unfold sorted_set, distinct. split; intros H.
  - apply (nodup_In string_dec).
    eapply Permutation_in; [apply sorted_perm | exact H].
  - eapply Permutation_in; [apply Permutation_sym, sorted_perm |].
    apply (nodup_In string_dec). exact H.
Qed.

Lemma sorted_set_NoDup (l : list string) : NoDup (sorted_set l).
Proof.
  unfold sorted_set, distinct.
  eapply Permutation_NoDup; [apply Permutation_sym, sorted_perm |].
  apply NoDup_nodup.
Qed.

Lemma sorted_set_Sorted (l : list string) :
  Sorted (fun u v => String.leb u v = true) (sorted_set l).
Proof.
  unfold sorted_set, sorted.
  apply (sort_by_sorted (fun s : string => s) String.leb String.leb_total).
Qed.

Lemma string_compare_lt_trans (x y z : string) :
  String.compare x y = Lt -> String.compare y z = Lt -> String.compare x z = Lt.
Proof.
  revert y z. induction x as [|c x IHx]; intros y z Hxy Hyz.
  - destruct y; [discriminate|]. destruct z; [discriminate|]. reflexivity.
  - destruct y as [|d y]; [discriminate|].
    destruct z as [|e z]; [discriminate|].
    simpl in *. unfold Ascii.compare in *.
    destruct (N.compare_spec (N_of_ascii c) (N_of_ascii d)) as [Hcd|Hcd|Hcd];
      try discriminate;
      destruct (N.compare_spec (N_of_ascii d) (N_of_ascii e)) as [Hde|Hde|Hde];
      try discriminate.
    + rewrite Hcd, Hde, N.compare_refl. eapply IHx; eassumption.
    + rewrite Hcd. apply N.compare_lt_iff in Hde. rewrite Hde. reflexivity.
    + rewrite <- Hde. apply N.compare_lt_iff in Hcd. rewrite Hcd. reflexivity.
    + assert (Hce : (N_of_ascii c < N_of_ascii e)%N) by lia.
      apply N.compare_lt_iff in Hce. rewrite Hce. reflexivity.
Qed.

Lemma sorted_nodup_strongly (l : list string) :
  Sorted (fun u v => String.leb u v = true) l ->
  NoDup l ->
  StronglySorted (fun u v => String.compare u v = Lt) l.
Proof.
  induction l as [|x l IHl]; intros Hs Hn; [constructor|].
  inversion Hs as [|? ? Hs' Hhd]; subst.
  inversion Hn as [|? ? Hnin Hn']; subst.
  specialize (IHl Hs' Hn').
  constructor; [exact IHl|].
  destruct l as [|y l]; [constructor|].
  inversion Hhd as [|? ? Hxy]; subst.
  assert (Hlt : String.compare x y = Lt).
  { unfold String.leb in Hxy.
    destruct (String.compare x y) eqn:Hc; try reflexivity; try discriminate.
    apply String.compare_eq_iff in Hc. subst y.
    exfalso. apply Hnin. left. reflexivity. }
  constructor; [exact Hlt|].
  inversion IHl as [|? ? _ Hall]; subst.
  rewrite Forall_forall in *. intros z Hz.
  eapply string_compare_lt_trans; [exact Hlt | apply Hall; exact Hz].
Qed.

(** The outcome does not depend on the order in which the set is
    enumerated: a sorted, duplicate-free list is determined by its
    elements. *)
Lemma sorted_nodup_unique (l1 l2 : list string) :
  Sorted (fun u v => String.leb u v = true) l1 ->
  Sorted (fun u v => String.leb u v = true) l2 ->
  NoDup l1 -> NoDup l2 ->
  (forall x, In x l1 <-> In x l2) ->
  l1 = l2.
Proof.
  revert l2. induction l1 as [|a l1 IH]; intros l2 S1 S2 N1 N2 E.
  - destruct l2 as [|b l2]; [reflexivity|].
    exfalso. apply (proj2 (E b)). left. reflexivity.
  - destruct l2 as [|b l2].
    + exfalso. apply (proj1 (E a)). left. reflexivity.
    + pose proof (sorted_nodup_strongly _ S1 N1) as T1.
      pose proof (sorted_nodup_strongly _ S2 N2) as T2.
      assert (Hab : a = b).
      { inversion T1 as [|? ? _ H1]; subst. inversion T2 as [|? ? _ H2]; subst.
        rewrite Forall_forall in H1, H2.
        destruct (proj1 (E a) (or_introl eq_refl)) as [Hba|Hin]; [auto|].
        destruct (proj2 (E b) (or_introl eq_refl)) as [Hab|Hin']; [auto|].
        specialize (H1 _ Hin'). specialize (H2 _ Hin).
        rewrite String.compare_antisym, H1 in H2. discriminate. }
      subst b. f_equal.
      inversion S1; inversion S2; inversion N1; inversion N2; subst.
      apply IH; try assumption.
      intros x. split; intros Hx.
      * destruct (proj1 (E x) (or_intror Hx)) as [Heq|Hin]; [|exact Hin].
        subst x. contradiction.
      * destruct (proj2 (E x) (or_intror Hx)) as [Heq|Hin]; [|exact Hin].
        subst x. contradiction.
Qed.

(** ** Tokens: [split] and [int] on what the MX loop builds *)

Lemma split_single (tok : string) :
  tok <> "" -> no_space tok = true -> split tok = [tok].
Proof.
  induction tok as [|a tok IH]; intros Hne Hsp; [congruence|].
  unfold no_space in *. simpl in Hsp.
  apply andb_true_iff in Hsp. destruct Hsp as [Ha Htok].
  apply negb_true_iff in Ha.
  simpl. rewrite Ha.
  destruct tok as [|b tok]; [reflexivity|].
  simpl in Htok. apply andb_true_iff in Htok. destruct Htok as [Hb Htok].
  pose proof Hb as Hb'. apply negb_true_iff in Hb'. rewrite Hb'.
  rewrite IH; [reflexivity | discriminate |].
  simpl. rewrite Hb, Htok. reflexivity.
Qed.

Lemma split_token (tok : string) (c : ascii) (rest : string) :
  tok <> "" -> no_space tok = true -> isspace c = true ->
  split (tok ++ String c rest) = tok :: split rest.
Proof.
  induction tok as [|a tok IH]; intros Hne Hsp Hc; [congruence|].
  unfold no_space in *. simpl in Hsp.
  apply andb_true_iff in Hsp. destruct Hsp as [Ha Htok].
  apply negb_true_iff in Ha.
  change (String a tok ++ String c rest) with (String a (tok ++ String c rest)).
  destruct tok as [|b tok].
  - simpl. rewrite Ha, Hc. reflexivity.
  - change (split (String a (String b tok ++ String c rest)))
      with (if isspace a then split (String b tok ++ String c rest)
            else if isspace b
                 then String a "" :: split (String b tok ++ String c rest)
                 else match split (String b tok ++ String c rest) with
                      | h :: t => String a h :: t
                      | [] => [String a ""]
                      end).
    rewrite Ha.
    simpl in Htok. apply andb_true_iff in Htok. destruct Htok as [Hb Htok].
    pose proof Hb as Hb'. apply negb_true_iff in Hb'. rewrite Hb'.
    rewrite IH; [reflexivity | discriminate | | exact Hc].
    simpl. rewrite Hb, Htok. reflexivity.
Qed.

Lemma uint_digits_no_space (d : Decimal.uint) :
  no_space (NilEmpty.string_of_uint d) = true.
Proof. induction d; simpl; try reflexivity; exact IHd. Qed.

Lemma str_of_uint_no_space (d : Decimal.uint) :
  no_space (NilZero.string_of_uint d) = true.
Proof.
  destruct d; try reflexivity;
    apply (uint_digits_no_space (_ d)) || apply uint_digits_no_space.
Qed.

Lemma str_of_uint_nonempty (d : Decimal.uint) :
  NilZero.string_of_uint d <> "".
Proof. destruct d; simpl; discriminate. Qed.

Lemma str_of_int_no_space (z : Z) : no_space (str_of_int z) = true.
Proof.
  unfold str_of_int. destruct (Z.to_int z); simpl.
  - apply str_of_uint_no_space.
  - apply str_of_uint_no_space.
Qed.

Lemma str_of_int_nonempty (z : Z) : str_of_int z <> "".
Proof.
  unfold str_of_int. destruct (Z.to_int z); simpl.
  - apply str_of_uint_nonempty.
  - discriminate.
Qed.

(** [int(str(z)) == z] *)
Lemma int_of_str_of_int (z : Z) : int_of_str (str_of_int z) = Some z.
Proof.
  unfold int_of_str, str_of_int.
  rewrite NilZero.isi.
  - simpl. rewrite DecimalZ.of_to. reflexivity.
  - destruct z; simpl; try discriminate.
    intros H. injection H as H. revert H. apply DecimalPos.Unsigned.to_uint_nonnil.
  - destruct z; simpl; try discriminate.
    intros H. injection H as H. revert H. apply DecimalPos.Unsigned.to_uint_nonnil.
Qed.

Lemma lower_empty_iff (s : string) : lower s = "" <-> s = "".
Proof. destruct s; simpl; split; intros H; try reflexivity; discriminate. Qed.

(** ** Dicts *)

Lemma dict_get_set_same {V : Type} (k : string) (v : V) (d : dict V) :
  dict_get k (dict_set k v d) = Some v.
Proof.
  induction d as [|[k' v'] d IH]; simpl.
  - rewrite String.eqb_refl. reflexivity.
  - destruct (String.eqb k k') eqn:E; simpl.
    + rewrite String.eqb_refl. reflexivity.
    + rewrite E. exact IH.
Qed.

Lemma dict_get_set_other {V : Type} (k k0 : string) (v : V) (d : dict V) :
  String.eqb k0 k = false ->
  dict_get k0 (dict_set k v d) = dict_get k0 d.
Proof.
  intros Hne. induction d as [|[k' v'] d IH]; simpl.
  - rewrite Hne. reflexivity.
  - destruct (String.eqb k k') eqn:E; simpl.
    + apply String.eqb_eq in E. subst k'. rewrite Hne. reflexivity.
    + destruct (String.eqb k0 k'); [reflexivity | exact IH].
Qed.

Lemma dict_keys_set_present {V : Type} (k : string) (v : V) (d : dict V) :
  In k (dict_keys d) -> dict_keys (dict_set k v d) = dict_keys d.
Proof.
  unfold dict_keys. induction d as [|[k' v'] d IH]; simpl; intros Hin.
  - contradiction.
  - destruct (String.eqb k k') eqn:E; simpl.
    + apply String.eqb_eq in E. subst. reflexivity.
    + f_equal. apply IH. destruct Hin as [H|H]; [|exact H].
      subst. rewrite String.eqb_refl in E. discriminate.
Qed.

(** ** Rules for the monad of statement blocks

    [inv P c]: the block [c] preserves the property [P] of the local
    variables, whether it ends normally or by an exception.
    [total c]: no exception escapes from [c]. *)

Lemma bind_run {L A B : Type} (c : M L A) (k : A -> M L B) l t :
  bind c k l t
  = match res (c l t) with
    | inl e => MkOut (inl e) (store (c l t)) (queries (c l t))
    | inr a => k a (store (c l t)) (queries (c l t))
    end.
Proof. reflexivity. Qed.

Lemma try_run {L A : Type} (b : M L A) (h : exn -> M L A) l t :
  try_except b h l t
  = match res (b l t) with
    | inl e => h e (store (b l t)) (queries (b l t))
    | inr a => b l t
    end.
Proof. reflexivity. Qed.

Lemma for_each_cons {L A : Type} (x : A) (xs : list A)
  (body : A -> M L unit) l t :
  for_each (x :: xs) body l t
  = bind (body x) (fun _ => for_each xs body) l t.
Proof. reflexivity. Qed.

Lemma for_each_cons_eq {L A : Type} (x : A) (xs : list A)
  (body : A -> M L unit) :
  for_each (x :: xs) body = bind (body x) (fun _ => for_each xs body).
Proof. reflexivity. Qed.

Lemma for_each_nil_eq {L A : Type} (body : A -> M L unit) :
  for_each [] body = ret tt.
Proof. reflexivity. Qed.

Lemma for_each_modify {L A : Type} (f : A -> L -> L) (xs : list A) l t :
  for_each xs (fun x => modify (f x)) l t
  = MkOut (inr tt) (fold_left (fun s x => f x s) xs l) t.
Proof.
  revert l. induction xs as [|x xs IH]; intros l; simpl.
  - reflexivity.
  - rewrite bind_run. simpl. apply IH.
Qed.

Section BlockRules.
Context {L : Type}.

Lemma inv_ret {A : Type} (P : L -> Prop) (a : A) : inv P (ret a).
Proof. intros l t H. exact H. Qed.

Lemma inv_raise {A : Type} (P : L -> Prop) (e : exn) : inv P (@raise L A e).
Proof. intros l t H. exact H. Qed.

Lemma inv_lift {A : Type} (P : L -> Prop) (r : exn + A) : inv P (lift r).
Proof. intros l t H. exact H. Qed.

Lemma inv_ask {A : Type} (P : L -> Prop) (q : query) (r : exn + A) :
  inv P (ask q r).
Proof. intros l t H. exact H. Qed.

Lemma inv_get (P : L -> Prop) : inv P (@get L).
Proof. intros l t H. exact H. Qed.

Lemma inv_modify (P : L -> Prop) (f : L -> L) :
  (forall l, P l -> P (f l)) -> inv P (modify f).
Proof. intros Hf l t H. apply Hf. exact H. Qed.

Lemma inv_call {L' A : Type} (P : L -> Prop) (init : L') (body : M L' A) :
  inv P (call init body).
Proof. intros l t H. exact H. Qed.

Lemma inv_bind {A B : Type} (P : L -> Prop) (c : M L A) (k : A -> M L B) :
  inv P c -> (forall a, inv P (k a)) -> inv P (bind c k).
Proof.
  intros Hc Hk l t H. rewrite bind_run.
  specialize (Hc l t H).
  destruct (res (c l t)) as [e|a]; simpl.
  - exact Hc.
  - apply Hk. exact Hc.
Qed.

Lemma inv_try {A : Type} (P : L -> Prop) (b : M L A) (h : exn -> M L A) :
  inv P b -> (forall e, inv P (h e)) -> inv P (try_except b h).
Proof.
  intros Hb Hh l t H. rewrite try_run.
  specialize (Hb l t H).
  destruct (res (b l t)) as [e|a]; simpl.
  - apply Hh. exact Hb.
  - exact Hb.
Qed.

Lemma inv_for_each {A : Type} (P : L -> Prop) (xs : list A)
  (body : A -> M L unit) :
  (forall x, inv P (body x)) -> inv P (for_each xs body).
Proof.
  intros Hb. induction xs as [|x xs IH]; simpl.
  - apply inv_ret.
  - apply inv_bind; [apply Hb | intros _; exact IH].
Qed.

Lemma total_ret {A : Type} (a : A) : total (@ret L A a).
Proof. intros l t. exists a. reflexivity. Qed.

Lemma total_get : total (@get L).
Proof. intros l t. exists l. reflexivity. Qed.

Lemma total_modify (f : L -> L) : total (modify f).
Proof. intros l t. exists tt. reflexivity. Qed.

Lemma total_bind {A B : Type} (c : M L A) (k : A -> M L B) :
  total c -> (forall a, total (k a)) -> total (bind c k).
Proof.
  intros Hc Hk l t. rewrite bind_run.
  destruct (Hc l t) as [a Ha]. rewrite Ha. apply Hk.
Qed.

Lemma total_try {A : Type} (b : M L A) (h : exn -> M L A) :
  (forall e, total (h e)) -> total (try_except b h).
Proof.
  intros Hh l t. rewrite try_run.
  destruct (res (b l t)) as [e|a] eqn:E.
  - apply Hh.
  - exists a. exact E.
Qed.

Lemma total_for_each {A : Type} (xs : list A) (body : A -> M L unit) :
  (forall x, total (body x)) -> total (for_each xs body).
Proof.
  intros Hb. induction xs as [|x xs IH]; simpl.
  - apply total_ret.
  - apply total_bind; [apply Hb | intros _; exact IH].
Qed.

End BlockRules.

Section BlockSteps.
Context {L : Type}.

(** One step of a block whose first statement has a known outcome. *)
Lemma bind_ret {A B : Type} (a : A) (k : A -> M L B) l t :
  bind (ret a) k l t = k a l t.
Proof. reflexivity. Qed.

Lemma bind_lift_ok {A B : Type} (a : A) (k : A -> M L B) l t :
  bind (lift (inr a)) k l t = k a l t.
Proof. reflexivity. Qed.

Lemma bind_lift_err {A B : Type} (e : exn) (k : A -> M L B) l t :
  bind (lift (inl e)) k l t = MkOut (inl e) l t.
Proof. reflexivity. Qed.

Lemma bind_ask_ok {A B : Type} (q : query) (a : A) (k : A -> M L B) l t :
  bind (ask q (inr a)) k l t = k a l (t ++ [q])%list.
Proof. reflexivity. Qed.

Lemma bind_ask_err {A B : Type} (q : query) (e : exn) (k : A -> M L B) l t :
  bind (ask q (@inl exn A e)) k l t = MkOut (inl e) l (t ++ [q])%list.
Proof. reflexivity. Qed.

Lemma bind_get {B : Type} (k : L -> M L B) l t :
  bind get k l t = k l l t.
Proof. reflexivity. Qed.

Lemma bind_modify {B : Type} (f : L -> L) (k : unit -> M L B) l t :
  bind (modify f) k l t = k tt (f l) t.
Proof. reflexivity. Qed.

Lemma bind_for_each_modify {A B : Type} (f : A -> L -> L) (xs : list A)
  (k : unit -> M L B) l t :
  bind (for_each xs (fun x => modify (f x))) k l t
  = k tt (fold_left (fun s x => f x s) xs l) t.
Proof. rewrite bind_run, for_each_modify. reflexivity. Qed.

Lemma modify_run (f : L -> L) l t :
  modify f l t = MkOut (inr tt) (f l) t.
Proof. reflexivity. Qed.

Lemma ret_run {A : Type} (a : A) (l : L) t : ret a l t = MkOut (inr a) l t.
Proof. reflexivity. Qed.

Lemma bind_assoc {A B C : Type} (c : M L A) (k : A -> M L B)
  (k' : B -> M L C) l t :
  bind (bind c k) k' l t = bind c (fun a => bind (k a) k') l t.
Proof.
  unfold bind. destruct (res (c l t)); reflexivity.
Qed.

(** Rules that keep the link between a statement's value and what
    follows it. *)
Lemma inv_bind_ask {A B : Type} (P : L -> Prop) (q : query) (r : exn + A)
  (k : A -> M L B) :
  (forall a, r = inr a -> inv P (k a)) -> inv P (bind (ask q r) k).
Proof.
  intros Hk l t H. destruct r as [e|a].
  - exact H.
  - rewrite bind_ask_ok. apply (Hk a eq_refl). exact H.
Qed.

Lemma inv_bind_lift {A B : Type} (P : L -> Prop) (r : exn + A)
  (k : A -> M L B) :
  (forall a, r = inr a -> inv P (k a)) -> inv P (bind (lift r) k).
Proof.
  intros Hk l t H. destruct r as [e|a].
  - exact H.
  - rewrite bind_lift_ok. apply (Hk a eq_refl). exact H.
Qed.

Lemma inv_bind_get {B : Type} (P : L -> Prop) (k : L -> M L B) :
  (forall a, P a -> inv P (k a)) -> inv P (bind get k).
Proof. intros Hk l t H. rewrite bind_get. apply (Hk l H). exact H. Qed.

Lemma returns_get_ret {A : Type} (f : L -> A) :
  returns f (bind get (fun l => ret (f l))).
Proof. intros l t. reflexivity. Qed.

Lemma returns_bind {A B : Type} (f : L -> B) (c : M L A) (k : A -> M L B) :
  total c -> (forall a, returns f (k a)) -> returns f (bind c k).
Proof.
  intros Hc Hk l t. rewrite bind_run.
  destruct (Hc l t) as [a Ha]. rewrite Ha. apply Hk.
Qed.

End BlockSteps.

(** The steps a block is made of, tried in turn: used to discharge
    [inv] and [total] goals over the embedded code. *)
Ltac block_step :=
  match goal with
  | |- inv _ (bind (ask _ _) _) => apply inv_bind_ask
  | |- inv _ (bind (lift _) _) => apply inv_bind_lift
  | |- inv _ (bind get _) => apply inv_bind_get
  | |- inv _ (bind _ _) => apply inv_bind
  | |- inv _ (try_except _ _) => apply inv_try
  | |- inv _ (for_each _ _) => apply inv_for_each
  | |- inv _ (ret _) => apply inv_ret
  | |- inv _ (raise _) => apply inv_raise
  | |- inv _ (lift _) => apply inv_lift
  | |- inv _ (ask _ _) => apply inv_ask
  | |- inv _ get => apply inv_get
  | |- inv _ (call _ _) => apply inv_call
  | |- inv _ (if ?b then _ else _) => destruct b eqn:?
  | |- inv _ (match ?x with _ => _ end) => destruct x eqn:?
  | |- total (bind _ _) => apply total_bind
  | |- total (try_except _ _) => apply total_try
  | |- total (for_each _ _) => apply total_for_each
  | |- total (ret _) => apply total_ret
  | |- total get => apply total_get
  | |- total (modify _) => apply total_modify
  | |- total (if ?b then _ else _) => destruct b
  | |- total (match ?x with _ => _ end) => destruct x
  | |- forall _, _ => intro
  end.

(* ================================================================== *)
(** * The collector: rows of the output *)
(* ================================================================== *)


(** C10.  In the Domain-Info Collector a fully empty input row produces
    no output row and the loop goes on with the next row; a row whose
    first cell is empty after trimming produces exactly the row
    [EMPTY_ROW, "No domain provided in this row."] and the loop goes on;
    in both cases the log of network queries is left as it was. *)
Theorem C10_empty_rows :
  forall (net : Network) (cell : string) (rest : list string)
         (rows : list (list string)) (l : Collector.csv_locals)
         (t : list query),
    strip cell = "" ->
    Collector.process_row net [] l t = MkOut (inr tt) l t
    /\ for_each ([] :: rows) (Collector.process_row net) l t
       = for_each rows (Collector.process_row net) l t
    /\ Collector.process_row net (cell :: rest) l t
       = MkOut (inr tt)
           (Collector.CsvLocals
              (Collector.written l
               ++ [["EMPTY_ROW"; "No domain provided in this row."]])%list)
           t
    /\ for_each ((cell :: rest) :: rows) (Collector.process_row net) l t
       = for_each rows (Collector.process_row net)
           (Collector.CsvLocals
              (Collector.written l
               ++ [["EMPTY_ROW"; "No domain provided in this row."]])%list)
           t.
Proof.
  intros net cell rest rows l t Hcell.
  assert (Hrow : Collector.process_row net (cell :: rest) l t
                 = MkOut (inr tt)
                     (Collector.CsvLocals
                        (Collector.written l
                         ++ [["EMPTY_ROW"; "No domain provided in this row."]])%list)
                     t).
  { unfold Collector.process_row. rewrite Hcell. reflexivity. }
  repeat split.
  - exact Hrow.
  - rewrite for_each_cons, bind_run, Hrow. reflexivity.
Qed.

Lemma C10_empty_rows_witness :
  strip "   " = ""
  /\ Collector.process_row Samples.net_live ["   "; "note"]
       (Collector.CsvLocals [["Domain"; "Information"]]) []
     = MkOut (inr tt)
         (Collector.CsvLocals
            [["Domain"; "Information"];
             ["EMPTY_ROW"; "No domain provided in this row."]])
         [].
Proof.
  split; [reflexivity|].
  exact (proj1 (proj2 (proj2
    (C10_empty_rows Samples.net_live "   " ["note"] []
       (Collector.CsvLocals [["Domain"; "Information"]]) [] eq_refl)))).
Defined.

(** C8 as the specification words it fails twice: a domain with a TAB
    inside is looked up like any other, and a first cell that is blank
    lacks a dot but is reported as [EMPTY_ROW]. *)
Lemma C8_counterexample :
  let tabbed := "a" ++ Samples.tab ++ "b.com" in
  let run := Collector.process_row Samples.net_live [tabbed]
               (Collector.CsvLocals []) [] in
  let blank := Collector.process_row Samples.net_live ["   "]
                 (Collector.CsvLocals []) [] in
  (Collector.malformed_as_specified (lower (strip tabbed)) = true
   /\ queries run
      = [QWhois tabbed; QDns tabbed RdA; QDns tabbed RdAAAA; QDns tabbed RdMX]
   /\ Collector.written (store run) <> [[tabbed; "Invalid domain format"]])
  /\ (Collector.malformed_as_specified (lower (strip "   ")) = true
      /\ Collector.written (store blank)
         = [["EMPTY_ROW"; "No domain provided in this row."]]).
Proof.
  vm_compute. repeat split; intros H; discriminate H.
Qed.

(** C8, amended.  In the Domain-Info Collector, for every first cell
    that after trimming and lower-casing is not empty and lacks a ['.'],
    or contains a space character, or is longer than 253 characters,
    the loop body writes exactly the row
    [domain, "Invalid domain format"] and sends no query. *)
Theorem C8_invalid_domain_row :
  forall (net : Network) (cell : string) (rest : list string)
         (l : Collector.csv_locals) (t : list query),
    lower (strip cell) <> "" ->
    (has_char "." (lower (strip cell)) = false
     \/ has_char " " (lower (strip cell)) = true
     \/ 253 < len (lower (strip cell))) ->
    Collector.process_row net (cell :: rest) l t
    = MkOut (inr tt)
        (Collector.CsvLocals
           (Collector.written l
            ++ [[lower (strip cell); "Invalid domain format"]])%list)
        t.
Proof.
  intros net cell rest l t Hne Hbad.
  unfold Collector.process_row.
  destruct (lower (strip cell)) as [|c d] eqn:E; [congruence|].
  change (negb (nonempty (String c d))) with false. cbv iota.
  assert (Hinv : Collector.invalid_format (String c d) = true).
  { unfold Collector.invalid_format.
    destruct Hbad as [H|[H|H]].
    - rewrite H. reflexivity.
    - rewrite H. apply orb_true_iff. left. apply orb_true_r.
    - apply Nat.ltb_lt in H. rewrite H. apply orb_true_r. }
  rewrite Hinv. reflexivity.
Qed.

Lemma C8_invalid_domain_row_witness :
  lower (strip " No Dot ") <> ""
  /\ Collector.process_row Samples.net_live [" No Dot "]
       (Collector.CsvLocals []) []
     = MkOut (inr tt)
         (Collector.CsvLocals [["no dot"; "Invalid domain format"]]) [].
Proof.
  split; [discriminate|].
  apply (C8_invalid_domain_row Samples.net_live " No Dot " []
           (Collector.CsvLocals []) []).
  - discriminate.
  - left. reflexivity.
Defined.

(* ================================================================== *)
(** * The collector: the WHOIS block *)
(* ================================================================== *)

(** Every statement of [get_domain_info] only appends to its lists, so a
    line that is in [info_parts] stays there. *)
Ltac collector_setters :=
  unfold Collector.append_info, Collector.append_error,
    Collector.append_ip, Collector.append_mx.

Ltac collector_lines :=
  unfold Collector.date_line, Collector.status_line,
    Collector.contact_lines, Collector.name_server_line.

Ltac keeps_line :=
  repeat first
    [ block_step
    | progress cbv beta
    | progress collector_setters
    | progress collector_lines
    | apply inv_modify; intros ? ?; simpl;
      first [ assumption | apply in_or_app; left; assumption ] ].

Lemma ip_block_keeps (line : string) (net : Network) (d : string) :
  inv (fun l => In line (Collector.info_parts l)) (Collector.ip_block net d).
Proof. unfold Collector.ip_block. keeps_line. Qed.

Lemma mx_block_keeps (line : string) (net : Network) (d : string) :
  inv (fun l => In line (Collector.info_parts l)) (Collector.mx_block net d).
Proof. unfold Collector.mx_block. keeps_line. Qed.







(* ================================================================== *)
(** * The TLD checker: base names and rows *)
(* ================================================================== *)



(** ** [get_domain_variant_info] always returns its [info] dict *)

Ltac tld_setters :=
  unfold TldChecker.set_info, TldChecker.append_dns_error,
    TldChecker.append_whois_error, TldChecker.set_dns_resolved_ip,
    TldChecker.set_dns_resolved_ns, TldChecker.append_ip,
    TldChecker.append_ns, TldChecker.append_mx,
    TldChecker.set_mail_servers_list.

Ltac tld_blocks :=
  unfold TldChecker.check_ip, TldChecker.check_ns, TldChecker.check_mx,
    TldChecker.check_whois, TldChecker.assemble_notes.

Ltac tld_total :=
  repeat first [ block_step | progress cbv beta | progress tld_setters ].

Lemma check_ip_total (net : Network) (d : string) :
  total (TldChecker.check_ip net d).
Proof. unfold TldChecker.check_ip. tld_total. Qed.

Lemma check_ns_total (net : Network) (d : string) :
  total (TldChecker.check_ns net d).
Proof. unfold TldChecker.check_ns. tld_total. Qed.

Lemma check_mx_total (net : Network) (d : string) :
  total (TldChecker.check_mx net d).
Proof. unfold TldChecker.check_mx. tld_total. Qed.

Lemma check_whois_total (net : Network) (d : string) :
  total (TldChecker.check_whois net d).
Proof. unfold TldChecker.check_whois. tld_total. Qed.

Lemma assemble_notes_total : total TldChecker.assemble_notes.
Proof. unfold TldChecker.assemble_notes. tld_total. Qed.

Lemma variant_info_returns (net : Network) (d : string) :
  returns TldChecker.info (TldChecker.get_domain_variant_info_body net d).
Proof.
  unfold TldChecker.get_domain_variant_info_body.
  apply returns_bind; [apply check_ip_total | intros _].
  apply returns_bind; [apply check_ns_total | intros _].
  apply returns_bind; [apply check_mx_total | intros _].
  apply returns_bind; [apply check_whois_total | intros _].
  apply returns_bind; [apply assemble_notes_total | intros _].
  apply returns_get_ret.
Qed.

(** What the caller sees of a call: the [info] dict of the final locals
    of the body, and the queries the body sent. *)
Lemma variant_info_call {L : Type} (net : Network) (d : string) (l : L)
  (t : list query) :
  @TldChecker.get_domain_variant_info net L d l t
  = MkOut
      (inr (TldChecker.info
              (store (TldChecker.get_domain_variant_info_body net d
                        (TldChecker.init_locals d) t))))
      l
      (queries (TldChecker.get_domain_variant_info_body net d
                  (TldChecker.init_locals d) t)).
Proof.
  unfold TldChecker.get_domain_variant_info, call.
  rewrite variant_info_returns. reflexivity.
Qed.

(** ** The keys of [info] never change *)





(** ** Counting the rows *)









(* ================================================================== *)
(** * The TLD checker: the DNS columns *)
(* ================================================================== *)

Lemma bind_total {L A B : Type} (c : M L A) (k : A -> M L B) l t :
  total c ->
  exists a, bind c k l t = k a (store (c l t)) (queries (c l t)).
Proof.
  intros Hc. destruct (Hc l t) as [a Ha]. exists a.
  rewrite bind_run, Ha. reflexivity.
Qed.

Lemma tld_fold_append_ip (xs : list string) (l : TldChecker.locals) :
  fold_left
    (fun s x =>
       TldChecker.Locals (TldChecker.info s) (TldChecker.dns_errors s)
         (TldChecker.whois_errors s) (TldChecker.dns_resolved_ip s)
         (TldChecker.dns_resolved_ns s)
         (TldChecker.ip_addresses_list s ++ [x])%list
         (TldChecker.name_servers_list s) (TldChecker.mail_servers_list s))
    xs l
  = TldChecker.Locals (TldChecker.info l) (TldChecker.dns_errors l)
      (TldChecker.whois_errors l) (TldChecker.dns_resolved_ip l)
      (TldChecker.dns_resolved_ns l)
      (TldChecker.ip_addresses_list l ++ xs)%list
      (TldChecker.name_servers_list l) (TldChecker.mail_servers_list l).
Proof.
  revert l. induction xs as [|x xs IH]; intros l; simpl.
  - rewrite app_nil_r. destruct l; reflexivity.
  - rewrite IH. simpl. rewrite <- app_assoc. reflexivity.
Qed.

Lemma tld_fold_append_mx (xs : list (Z * string)) (l : TldChecker.locals) :
  fold_left
    (fun s x =>
       TldChecker.Locals (TldChecker.info s) (TldChecker.dns_errors s)
         (TldChecker.whois_errors s) (TldChecker.dns_resolved_ip s)
         (TldChecker.dns_resolved_ns s) (TldChecker.ip_addresses_list s)
         (TldChecker.name_servers_list s)
         (TldChecker.mail_servers_list s ++ [TldChecker.mx_entry x])%list)
    xs l
  = TldChecker.Locals (TldChecker.info l) (TldChecker.dns_errors l)
      (TldChecker.whois_errors l) (TldChecker.dns_resolved_ip l)
      (TldChecker.dns_resolved_ns l) (TldChecker.ip_addresses_list l)
      (TldChecker.name_servers_list l)
      (TldChecker.mail_servers_list l ++ map TldChecker.mx_entry xs)%list.
Proof.
  revert l. induction xs as [|x xs IH]; intros l; simpl.
  - rewrite app_nil_r. destruct l; reflexivity.
  - rewrite IH. simpl. rewrite <- app_assoc. reflexivity.
Qed.

(** A block that writes other columns leaves this one alone. *)
Ltac tld_frame :=
  repeat first
    [ block_step
    | progress cbv beta
    | progress tld_setters
    | apply inv_modify; intros ? ?; simpl;
      first [ assumption
            | rewrite dict_get_set_other; [assumption | reflexivity] ] ].

(** Projections of a record that is written out reduce. *)
Ltac tld_proj :=
  cbn [TldChecker.info TldChecker.dns_errors TldChecker.whois_errors
       TldChecker.dns_resolved_ip TldChecker.dns_resolved_ns
       TldChecker.ip_addresses_list TldChecker.name_servers_list
       TldChecker.mail_servers_list store res queries] in *.

(** Step 1 when both lookups answer. *)
Lemma check_ip_answers (net : Network) (d : string) (la l6 : list string)
  (l : TldChecker.locals) (t : list query) :
  dns_addr net d RdA = inr la ->
  dns_addr net d RdAAAA = inr l6 ->
  nonnil (la ++ l6)%list = true ->
  TldChecker.ip_addresses_list l = [] ->
  dict_get "IP Addresses"
    (TldChecker.info (store (TldChecker.check_ip net d l t)))
  = Some (join ", " (sorted_set (la ++ l6)%list))
  /\ queries (TldChecker.check_ip net d l t)
     = (t ++ [QDns d RdA; QDns d RdAAAA])%list.
Proof.
  intros HA H6 Hne Hnil. unfold TldChecker.check_ip.
  rewrite try_run.
  match goal with
  | |- context [res (?b l t)] => remember (b l t) as o eqn:Ho
  end.
  rewrite !for_each_cons_eq, for_each_nil_eq in Ho.
  repeat rewrite bind_assoc in Ho. rewrite HA, bind_ask_ok in Ho.
  unfold TldChecker.append_ip at 1 in Ho.
  rewrite bind_for_each_modify, tld_fold_append_ip in Ho.
  repeat rewrite bind_assoc in Ho. rewrite H6, bind_ask_ok in Ho.
  unfold TldChecker.append_ip at 1 in Ho.
  rewrite bind_for_each_modify, tld_fold_append_ip in Ho.
  rewrite bind_ret, bind_get in Ho.
  tld_proj. rewrite Hnil in Ho. cbn [app] in Ho. rewrite Hne in Ho.
  revert Ho. tld_setters. intros Ho. repeat rewrite bind_modify in Ho.
  rewrite modify_run in Ho.
  subst o. tld_proj. rewrite <- app_assoc. split; [|reflexivity].
  rewrite dict_get_set_other by reflexivity.
  apply dict_get_set_same.
Qed.

(** The frame of each step: the columns it does not write. *)
Ltac tld_frame_by H :=
  repeat first
    [ block_step
    | progress cbv beta
    | progress tld_setters
    | apply inv_modify; intros ? ?; simpl;
      first [ assumption
            | rewrite dict_get_set_other;
              [ assumption | first [ reflexivity | apply H | assumption ] ] ] ].

Lemma check_ip_frame (net : Network) (d col : string) (v : option string) :
  String.eqb col "IP Addresses" = false ->
  String.eqb col "DNS Resolves (A/AAAA)" = false ->
  inv (fun l => dict_get col (TldChecker.info l) = v)
      (TldChecker.check_ip net d).
Proof. intros H1 H2. unfold TldChecker.check_ip. tld_frame_by H1. Qed.

Lemma check_ns_frame (net : Network) (d col : string) (v : option string) :
  String.eqb col "Name Servers (NS)" = false ->
  inv (fun l => dict_get col (TldChecker.info l) = v)
      (TldChecker.check_ns net d).
Proof. intros H1. unfold TldChecker.check_ns. tld_frame_by H1. Qed.

Lemma check_mx_frame (net : Network) (d col : string) (v : option string) :
  String.eqb col "Mail Servers (MX)" = false ->
  inv (fun l => dict_get col (TldChecker.info l) = v)
      (TldChecker.check_mx net d).
Proof. intros H1. unfold TldChecker.check_mx. tld_frame_by H1. Qed.

Lemma check_whois_frame (net : Network) (d col : string) (v : option string) :
  existsb (String.eqb col)
    [ "WHOIS Creation Date"; "WHOIS Updated Date"; "WHOIS Expiration Date";
      "WHOIS Registrar"; "WHOIS Domain Status"; "WHOIS Registrant Org" ]
  = false ->
  inv (fun l => dict_get col (TldChecker.info l) = v)
      (TldChecker.check_whois net d).
Proof.
  intros H. simpl in H. rewrite !orb_false_iff in H.
  destruct H as [H1 [H2 [H3 [H4 [H5 [H6 _]]]]]].
  unfold TldChecker.check_whois. tld_frame_by H1.
Qed.

Lemma assemble_notes_frame (col : string) (v : option string) :
  String.eqb col "WHOIS Notes/Errors" = false ->
  inv (fun l => dict_get col (TldChecker.info l) = v)
      TldChecker.assemble_notes.
Proof. intros H1. unfold TldChecker.assemble_notes. tld_frame_by H1. Qed.
(** The final locals of [get_domain_variant_info], step by step. *)
Lemma variant_info_steps (net : Network) (d : string)
  (l : TldChecker.locals) (t : list query) :
  let o1 := TldChecker.check_ip net d l t in
  let o2 := TldChecker.check_ns net d (store o1) (queries o1) in
  let o3 := TldChecker.check_mx net d (store o2) (queries o2) in
  let o4 := TldChecker.check_whois net d (store o3) (queries o3) in
  let o5 := TldChecker.assemble_notes (store o4) (queries o4) in
  store (TldChecker.get_domain_variant_info_body net d l t) = store o5
  /\ queries (TldChecker.get_domain_variant_info_body net d l t) = queries o5.
Proof.
  intros o1 o2 o3 o4 o5. unfold TldChecker.get_domain_variant_info_body.
  destruct (bind_total (TldChecker.check_ip net d)
              (fun _ => bind (TldChecker.check_ns net d)
                 (fun _ => bind (TldChecker.check_mx net d)
                    (fun _ => bind (TldChecker.check_whois net d)
                       (fun _ => bind TldChecker.assemble_notes
                          (fun _ => bind get
                             (fun l => ret (TldChecker.info l)))))))
              l t (check_ip_total net d)) as [a1 E1].
  rewrite E1. fold o1.
  destruct (bind_total (TldChecker.check_ns net d)
              (fun _ => bind (TldChecker.check_mx net d)
                 (fun _ => bind (TldChecker.check_whois net d)
                    (fun _ => bind TldChecker.assemble_notes
                       (fun _ => bind get
                          (fun l => ret (TldChecker.info l))))))
              (store o1) (queries o1) (check_ns_total net d)) as [a2 E2].
  rewrite E2. fold o2.
  destruct (bind_total (TldChecker.check_mx net d)
              (fun _ => bind (TldChecker.check_whois net d)
                 (fun _ => bind TldChecker.assemble_notes
                    (fun _ => bind get
                       (fun l => ret (TldChecker.info l)))))
              (store o2) (queries o2) (check_mx_total net d)) as [a3 E3].
  rewrite E3. fold o3.
  destruct (bind_total (TldChecker.check_whois net d)
              (fun _ => bind TldChecker.assemble_notes
                 (fun _ => bind get
                    (fun l => ret (TldChecker.info l))))
              (store o3) (queries o3) (check_whois_total net d)) as [a4 E4].
  rewrite E4. fold o4.
  destruct (bind_total TldChecker.assemble_notes
              (fun _ => bind get (fun l => ret (TldChecker.info l)))
              (store o4) (queries o4) assemble_notes_total) as [a5 E5].
  rewrite E5. fold o5. split; reflexivity.
Qed.

Ltac tld_same :=
  repeat first
    [ block_step
    | progress cbv beta
    | progress tld_setters
    | apply inv_modify; intros ? ?; simpl; assumption ].

Lemma check_ip_keeps_mx_list (net : Network) (d : string) :
  inv (fun l => TldChecker.mail_servers_list l = [])
      (TldChecker.check_ip net d).
Proof. unfold TldChecker.check_ip. tld_same. Qed.

Lemma check_ns_keeps_mx_list (net : Network) (d : string) :
  inv (fun l => TldChecker.mail_servers_list l = [])
      (TldChecker.check_ns net d).
Proof. unfold TldChecker.check_ns. tld_same. Qed.

(** The IP column of a variant whose two address lookups answer. *)
Lemma variant_ip_column (net : Network) (d : string) (la l6 : list string)
  (t : list query) :
  dns_addr net d RdA = inr la ->
  dns_addr net d RdAAAA = inr l6 ->
  nonnil (la ++ l6)%list = true ->
  dict_get "IP Addresses"
    (TldChecker.info
       (store (TldChecker.get_domain_variant_info_body net d
                 (TldChecker.init_locals d) t)))
  = Some (join ", " (sorted_set (la ++ l6)%list)).
Proof.
  intros HA H6 Hne.
  destruct (variant_info_steps net d (TldChecker.init_locals d) t) as [Hs _].
  rewrite Hs. clear Hs.
  apply (assemble_notes_frame "IP Addresses" _ eq_refl).
  apply (check_whois_frame net d "IP Addresses" _ eq_refl).
  apply (check_mx_frame net d "IP Addresses" _ eq_refl).
  apply (check_ns_frame net d "IP Addresses" _ eq_refl).
  apply (check_ip_answers net d la l6 _ t HA H6 Hne). reflexivity.
Qed.
(* ================================================================== *)
(** * The collector: the DNS lines *)
(* ================================================================== *)

Ltac collector_proj :=
  cbn [Collector.info_parts Collector.errors Collector.ip_addresses
       Collector.mail_servers store res queries] in *.

Ltac collector_total :=
  repeat first
    [ block_step | progress cbv beta | progress collector_setters
    | progress collector_lines ].

Lemma whois_block_total (net : Network) (d : string) :
  total (Collector.whois_block net d).
Proof. unfold Collector.whois_block. collector_total. Qed.

Lemma ip_block_total (net : Network) (d : string) :
  total (Collector.ip_block net d).
Proof. unfold Collector.ip_block. collector_total. Qed.

Lemma mx_block_total (net : Network) (d : string) :
  total (Collector.mx_block net d).
Proof. unfold Collector.mx_block. collector_total. Qed.

(** The final locals of [get_domain_info], step by step. *)
Lemma domain_info_steps (net : Network) (d : string)
  (l : Collector.locals) (t : list query) :
  let o1 := Collector.whois_block net d l t in
  let o2 := Collector.ip_block net d (store o1) (queries o1) in
  let o3 := Collector.mx_block net d (store o2) (queries o2) in
  store (Collector.get_domain_info_body net d l t) = store o3
  /\ queries (Collector.get_domain_info_body net d l t) = queries o3
  /\ res (Collector.get_domain_info_body net d l t)
     = inr (Collector.render (store o3)).
Proof.
  intros o1 o2 o3. unfold Collector.get_domain_info_body.
  destruct (bind_total (Collector.whois_block net d)
              (fun _ => bind (Collector.ip_block net d)
                 (fun _ => bind (Collector.mx_block net d)
                    (fun _ => bind get
                       (fun l => ret (Collector.render l)))))
              l t (whois_block_total net d)) as [a1 E1].
  rewrite E1. fold o1.
  destruct (bind_total (Collector.ip_block net d)
              (fun _ => bind (Collector.mx_block net d)
                 (fun _ => bind get (fun l => ret (Collector.render l))))
              (store o1) (queries o1) (ip_block_total net d)) as [a2 E2].
  rewrite E2. fold o2.
  destruct (bind_total (Collector.mx_block net d)
              (fun _ => bind get (fun l => ret (Collector.render l)))
              (store o2) (queries o2) (mx_block_total net d)) as [a3 E3].
  rewrite E3. fold o3. repeat split.
Qed.

Lemma collector_fold_append_ip (xs : list string) (l : Collector.locals) :
  fold_left
    (fun s x =>
       Collector.Locals (Collector.info_parts s) (Collector.errors s)
         (Collector.ip_addresses s ++ [x])%list (Collector.mail_servers s))
    xs l
  = Collector.Locals (Collector.info_parts l) (Collector.errors l)
      (Collector.ip_addresses l ++ xs)%list (Collector.mail_servers l).
Proof.
  revert l. induction xs as [|x xs IH]; intros l; simpl.
  - rewrite app_nil_r. destruct l; reflexivity.
  - rewrite IH. simpl. rewrite <- app_assoc. reflexivity.
Qed.

Lemma collector_fold_append_mx (xs : list (Z * string))
  (l : Collector.locals) :
  fold_left
    (fun s x =>
       Collector.Locals (Collector.info_parts s) (Collector.errors s)
         (Collector.ip_addresses s)
         (Collector.mail_servers s ++ [Collector.mx_entry x])%list)
    xs l
  = Collector.Locals (Collector.info_parts l) (Collector.errors l)
      (Collector.ip_addresses l)
      (Collector.mail_servers l ++ map Collector.mx_entry xs)%list.
Proof.
  revert l. induction xs as [|x xs IH]; intros l; simpl.
  - rewrite app_nil_r. destruct l; reflexivity.
  - rewrite IH. simpl. rewrite <- app_assoc. reflexivity.
Qed.

Ltac collector_same :=
  repeat first
    [ block_step
    | progress cbv beta
    | progress collector_setters
    | progress collector_lines
    | apply inv_modify; intros ? ?; simpl; assumption ].

Lemma whois_block_keeps_lists (net : Network) (d : string) :
  inv (fun l => Collector.ip_addresses l = [] /\ Collector.mail_servers l = [])
      (Collector.whois_block net d).
Proof.
  unfold Collector.whois_block, Collector.whois_fields. collector_same.
Qed.

Lemma ip_block_keeps_mx_list (net : Network) (d : string) :
  inv (fun l => Collector.mail_servers l = []) (Collector.ip_block net d).
Proof. unfold Collector.ip_block. collector_same. Qed.

(** The address line when both lookups answer: the answers as they
    came, A first. *)
Lemma ip_block_answers (net : Network) (d : string) (la l6 : list string)
  (l : Collector.locals) (t : list query) :
  dns_addr net d RdA = inr la ->
  dns_addr net d RdAAAA = inr l6 ->
  Collector.ip_addresses l = [] ->
  Collector.info_parts (store (Collector.ip_block net d l t))
  = List.app (Collector.info_parts l)
      ["Server IP (A/AAAA): "
       ++ (if nonnil (la ++ l6)%list then join ", " (la ++ l6)%list
           else "No A/AAAA record found")].
Proof.
  intros HA H6 Hnil. unfold Collector.ip_block.
  rewrite try_run.
  match goal with
  | |- context [res (?b l t)] => remember (b l t) as o eqn:Ho
  end.
  rewrite !for_each_cons_eq, for_each_nil_eq in Ho.
  repeat rewrite bind_assoc in Ho. rewrite HA, bind_ask_ok in Ho.
  unfold Collector.append_ip at 1 in Ho.
  rewrite bind_for_each_modify, collector_fold_append_ip in Ho.
  repeat rewrite bind_assoc in Ho. rewrite H6, bind_ask_ok in Ho.
  unfold Collector.append_ip at 1 in Ho.
  rewrite bind_for_each_modify, collector_fold_append_ip in Ho.
  rewrite bind_ret, bind_get in Ho.
  collector_proj. rewrite Hnil in Ho. cbn [app] in Ho.
  unfold Collector.append_info in Ho. rewrite modify_run in Ho.
  subst o. collector_proj. reflexivity.
Qed.

Lemma mx_block_answers (net : Network) (d : string)
  (answers : list (Z * string)) (l : Collector.locals) (t : list query) :
  dns_mx net d = inr answers ->
  Collector.mail_servers l = [] ->
  Collector.info_parts (store (Collector.mx_block net d l t))
  = List.app (Collector.info_parts l)
      ["Mail Server (MX): "
       ++ (if nonnil answers
           then join ", " (map Collector.mx_entry answers)
           else "No MX record found")].
Proof.
  intros HM Hnil. unfold Collector.mx_block.
  rewrite try_run.
  match goal with
  | |- context [res (?b l t)] => remember (b l t) as o eqn:Ho
  end.
  rewrite HM, bind_ask_ok in Ho.
  unfold Collector.append_mx at 1 in Ho.
  rewrite bind_for_each_modify, collector_fold_append_mx in Ho.
  rewrite bind_get in Ho.
  collector_proj. rewrite Hnil in Ho. cbn [app] in Ho.
  unfold Collector.append_info in Ho. rewrite modify_run in Ho.
  subst o. collector_proj.
  destruct answers; reflexivity.
Qed.

(** The two DNS lines of the collector's text. *)
Lemma domain_info_dns_lines (net : Network) (d : string) (t : list query) :
  (forall la l6,
      dns_addr net d RdA = inr la -> dns_addr net d RdAAAA = inr l6 ->
      In ("Server IP (A/AAAA): "
          ++ (if nonnil (la ++ l6)%list then join ", " (la ++ l6)%list
              else "No A/AAAA record found"))
         (Collector.info_parts
            (store (Collector.get_domain_info_body net d
                      Collector.init_locals t))))
  /\ (forall answers,
         dns_mx net d = inr answers ->
         In ("Mail Server (MX): "
             ++ (if nonnil answers
                 then join ", " (map Collector.mx_entry answers)
                 else "No MX record found"))
            (Collector.info_parts
               (store (Collector.get_domain_info_body net d
                         Collector.init_locals t)))).
Proof.
  destruct (domain_info_steps net d Collector.init_locals t) as [Hs _].
  rewrite Hs. clear Hs.
  pose proof (whois_block_keeps_lists net d Collector.init_locals t
                (conj eq_refl eq_refl)) as [Hip Hmx].
  split.
  - intros la l6 HA H6. apply mx_block_keeps.
    rewrite (ip_block_answers net d la l6 _ _ HA H6 Hip).
    apply in_or_app. right. left. reflexivity.
  - intros answers HM.
    rewrite (mx_block_answers net d answers _ _ HM).
    + apply in_or_app. right. left. reflexivity.
    + apply ip_block_keeps_mx_list. exact Hmx.
Qed.
(** C6 as stated fails for the collector, which joins the answers as
    they came: duplicates stay and nothing is sorted. *)
Lemma C6_counterexample :
  let text :=
    match res (@Collector.get_domain_info Samples.net_live unit
                 "example.com" tt []) with
    | inr s => s
    | inl _ => ""
    end in
  dns_addr Samples.net_live "example.com" RdA = inr ["2.2.2.2"; "1.1.1.1"]
  /\ dns_addr Samples.net_live "example.com" RdAAAA = inr ["::1"]
  /\ sorted_set ["2.2.2.2"; "1.1.1.1"; "::1"] = ["1.1.1.1"; "2.2.2.2"; "::1"]
  /\ contains "Server IP (A/AAAA): 2.2.2.2, 1.1.1.1, ::1" text = true
  /\ contains "Server IP (A/AAAA): 1.1.1.1, 2.2.2.2, ::1" text = false.
Proof. vm_compute. repeat split. Qed.

(** C6, amended.  For every domain whose A lookup and AAAA lookup both
    answer, with at least one address between them: in the TLD Variant
    Checker the IP Addresses column is the comma-separated list of the
    distinct addresses in ascending order; in the Domain-Info Collector
    the address line lists the A answers and then the AAAA answers as
    they came, comma-separated. *)
Theorem C6_ip_addresses :
  forall (net : Network) (d : string) (la l6 : list string) (t : list query),
    dns_addr net d RdA = inr la ->
    dns_addr net d RdAAAA = inr l6 ->
    (la ++ l6)%list <> [] ->
    (exists info,
        res (@TldChecker.get_domain_variant_info net unit d tt t) = inr info
        /\ dict_get "IP Addresses" info
           = Some (join ", " (sorted_set (la ++ l6)%list)))
    /\ Sorted (fun u v => String.leb u v = true) (sorted_set (la ++ l6)%list)
    /\ NoDup (sorted_set (la ++ l6)%list)
    /\ (forall x, In x (sorted_set (la ++ l6)%list) <-> In x la \/ In x l6)
    /\ res (@Collector.get_domain_info net unit d tt t)
       = inr (Collector.render
                (store (Collector.get_domain_info_body net d
                          Collector.init_locals t)))
    /\ In ("Server IP (A/AAAA): " ++ join ", " (la ++ l6)%list)
          (Collector.info_parts
             (store (Collector.get_domain_info_body net d
                       Collector.init_locals t))).
Proof.
  intros net d la l6 t HA H6 Hne.
  assert (Hnn : nonnil (la ++ l6)%list = true)
    by (destruct (la ++ l6)%list; [congruence|reflexivity]).
  split; [|split; [|split; [|split; [|split]]]].
  - eexists. rewrite variant_info_call. split; [reflexivity|].
    apply (variant_ip_column net d la l6 t HA H6 Hnn).
  - apply sorted_set_Sorted.
  - apply sorted_set_NoDup.
  - intros x. rewrite sorted_set_In. apply in_app_iff.
  - unfold Collector.get_domain_info, call. simpl res.
    destruct (domain_info_steps net d Collector.init_locals t)
      as [Hs [_ Hr]].
    rewrite Hr, Hs. reflexivity.
  - pose proof (proj1 (domain_info_dns_lines net d t) la l6 HA H6) as H.
    rewrite Hnn in H. exact H.
Qed.

Lemma C6_ip_addresses_witness :
  (exists info,
      res (@TldChecker.get_domain_variant_info Samples.net_live unit
             "example.com" tt []) = inr info
      /\ dict_get "IP Addresses" info = Some "1.1.1.1, 2.2.2.2, ::1")
  /\ In "Server IP (A/AAAA): 2.2.2.2, 1.1.1.1, ::1"
        (Collector.info_parts
           (store (Collector.get_domain_info_body Samples.net_live
                     "example.com" Collector.init_locals []))).
Proof.
  pose proof (C6_ip_addresses Samples.net_live "example.com"
                ["2.2.2.2"; "1.1.1.1"] ["::1"] [] eq_refl eq_refl)
    as H.
  destruct H as [H1 [_ [_ [_ [_ H2]]]]]; [discriminate|].
  split; [exact H1 | exact H2].
Defined.
(* ================================================================== *)
(** * Mail servers *)
(* ================================================================== *)

(** The sort key parsed back from an entry is the record's preference
    and its exchange name. *)
Lemma mx_sort_key_entry (rdata : Z * string) :
  TldChecker.exchange_ok rdata = true ->
  TldChecker.mx_sort_key (TldChecker.mx_entry rdata)
  = inr (TldChecker.mx_key rdata).
Proof.
  unfold TldChecker.exchange_ok. intros Hok.
  apply andb_true_iff in Hok. destruct Hok as [Hne Hsp].
  assert (Hne' : rstrip_char "." (snd rdata) <> "")
    by (destruct (rstrip_char "." (snd rdata)); [discriminate|discriminate]).
  assert (Hsplit : split (TldChecker.mx_entry rdata)
                   = [str_of_int (fst rdata); rstrip_char "." (snd rdata)]).
  { unfold TldChecker.mx_entry.
    change (" " ++ rstrip_char "." (snd rdata))
      with (String " " (rstrip_char "." (snd rdata))).
    rewrite split_token.
    - rewrite split_single by assumption. reflexivity.
    - apply str_of_int_nonempty.
    - apply str_of_int_no_space.
    - reflexivity. }
  unfold TldChecker.mx_sort_key. rewrite Hsplit. cbn [nth_error].
  rewrite int_of_str_of_int. reflexivity.
Qed.

Lemma decorate_entries (answers : list (Z * string)) :
  forallb TldChecker.exchange_ok answers = true ->
  decorate TldChecker.mx_sort_key (map TldChecker.mx_entry answers)
  = inr (map (fun r => (TldChecker.mx_key r, TldChecker.mx_entry r)) answers).
Proof.
  induction answers as [|r answers IH]; simpl; intros Hok.
  - reflexivity.
  - apply andb_true_iff in Hok. destruct Hok as [Hr Hrest].
    rewrite (mx_sort_key_entry r Hr), (IH Hrest). reflexivity.
Qed.

Lemma sort_entries (answers : list (Z * string)) :
  forallb TldChecker.exchange_ok answers = true ->
  sort_with_key TldChecker.mx_sort_key key_leb
    (map TldChecker.mx_entry answers)
  = inr (map TldChecker.mx_entry
           (sort_by TldChecker.mx_key key_leb answers)).
Proof.
  intros Hok. unfold sort_with_key.
  rewrite (decorate_entries answers Hok).
  rewrite (sort_by_decorated TldChecker.mx_key TldChecker.mx_entry).
  rewrite map_map. reflexivity.
Qed.

(** Step 3 when the lookup answers with well-formed exchange names. *)
Lemma check_mx_answers (net : Network) (d : string)
  (answers : list (Z * string)) (l : TldChecker.locals) (t : list query) :
  dns_mx net d = inr answers ->
  nonnil answers = true ->
  forallb TldChecker.exchange_ok answers = true ->
  TldChecker.mail_servers_list l = [] ->
  dict_get "Mail Servers (MX)"
    (TldChecker.info (store (TldChecker.check_mx net d l t)))
  = Some (join ", "
            (map TldChecker.mx_entry
               (sort_by TldChecker.mx_key key_leb answers))).
Proof.
  intros HM Hne Hok Hnil. unfold TldChecker.check_mx.
  rewrite try_run.
  match goal with
  | |- context [res (?b l t)] => remember (b l t) as o eqn:Ho
  end.
  rewrite HM, bind_ask_ok in Ho.
  unfold TldChecker.append_mx at 1 in Ho.
  rewrite bind_for_each_modify, tld_fold_append_mx in Ho.
  rewrite bind_get in Ho. tld_proj. rewrite Hnil in Ho. cbn [app] in Ho.
  assert (Hnn : nonnil (map TldChecker.mx_entry answers) = true)
    by (destruct answers; [discriminate|reflexivity]).
  rewrite Hnn, (sort_entries answers Hok), bind_lift_ok in Ho.
  revert Ho. tld_setters. intros Ho.
  rewrite bind_modify, modify_run in Ho.
  subst o. tld_proj. apply dict_get_set_same.
Qed.

(** The MX column of a variant. *)
Lemma variant_mx_column (net : Network) (d : string)
  (answers : list (Z * string)) (t : list query) :
  dns_mx net d = inr answers ->
  nonnil answers = true ->
  forallb TldChecker.exchange_ok answers = true ->
  dict_get "Mail Servers (MX)"
    (TldChecker.info
       (store (TldChecker.get_domain_variant_info_body net d
                 (TldChecker.init_locals d) t)))
  = Some (join ", "
            (map TldChecker.mx_entry
               (sort_by TldChecker.mx_key key_leb answers))).
Proof.
  intros HM Hne Hok.
  destruct (variant_info_steps net d (TldChecker.init_locals d) t) as [Hs _].
  rewrite Hs. clear Hs.
  apply (assemble_notes_frame "Mail Servers (MX)" _ eq_refl).
  apply (check_whois_frame net d "Mail Servers (MX)" _ eq_refl).
  apply (check_mx_answers net d answers _ _ HM Hne Hok).
  apply check_ns_keeps_mx_list. apply check_ip_keeps_mx_list. reflexivity.
Qed.

(** C4 as stated fails twice: the collector lists the MX answers as they
    came, and the TLD checker shows no mail server at all for the null MX
    record, whose entry has no second token for the sort key. *)
Lemma C4_counterexample :
  let text :=
    match res (@Collector.get_domain_info Samples.net_live unit
                 "example.com" tt []) with
    | inr s => s
    | inl _ => ""
    end in
  let row :=
    match res (@TldChecker.get_domain_variant_info Samples.net_null_mx unit
                 "example.com" tt []) with
    | inr i => i
    | inl _ => []
    end in
  (dns_mx Samples.net_live "example.com"
   = inr [(20%Z, "b.mx.example"); (10%Z, "a.mx.example")]
   /\ contains "Mail Server (MX): 20 b.mx.example, 10 a.mx.example" text = true
   /\ contains "10 a.mx.example, 20 b.mx.example" text = false)
  /\ (dns_mx Samples.net_null_mx "example.com" = inr [(0%Z, ".")]
      /\ dict_get "Mail Servers (MX)" row = Some "N/A"
      /\ dict_get "WHOIS Notes/Errors" row = Some "DNS: DNS MX Error: IndexError").
Proof. vm_compute. repeat split. Qed.

(** C4, amended.  In the TLD Variant Checker, for every non-empty MX
    answer set whose exchange names, once their trailing dots are
    removed, are not empty and hold no whitespace, the Mail Servers
    column lists the entries sorted by preference ascending and then by
    exchange name ascending; on the answers [(20, "b.mx.example")],
    [(10, "a.mx.example")] it is exactly
    ["10 a.mx.example, 20 b.mx.example"].  In the Domain-Info Collector
    the mail-server line lists the entries in the order of the answers. *)
Theorem C4_mail_servers :
  forall (net : Network) (d : string) (answers : list (Z * string))
         (t : list query),
    dns_mx net d = inr answers ->
    answers <> [] ->
    forallb TldChecker.exchange_ok answers = true ->
    (exists info,
        res (@TldChecker.get_domain_variant_info net unit d tt t) = inr info
        /\ dict_get "Mail Servers (MX)" info
           = Some (join ", "
                     (map TldChecker.mx_entry
                        (sort_by TldChecker.mx_key key_leb answers))))
    /\ Permutation (sort_by TldChecker.mx_key key_leb answers) answers
    /\ Sorted
         (fun a b =>
            (fst a < fst b)%Z
            \/ (fst a = fst b
                /\ String.leb (rstrip_char "." (snd a))
                              (rstrip_char "." (snd b)) = true))
         (sort_by TldChecker.mx_key key_leb answers)
    /\ (answers = [(20%Z, "b.mx.example"); (10%Z, "a.mx.example")] ->
        join ", "
          (map TldChecker.mx_entry (sort_by TldChecker.mx_key key_leb answers))
        = "10 a.mx.example, 20 b.mx.example")
    /\ In ("Mail Server (MX): " ++ join ", " (map Collector.mx_entry answers))
          (Collector.info_parts
             (store (Collector.get_domain_info_body net d
                       Collector.init_locals t))).
Proof.
  intros net d answers t HM Hne Hok.
  assert (Hnn : nonnil answers = true)
    by (destruct answers; [congruence|reflexivity]).
  split; [|split; [|split; [|split]]].
  - eexists. rewrite variant_info_call. split; [reflexivity|].
    apply (variant_mx_column net d answers t HM Hnn Hok).
  - apply sort_by_perm.
  - pose proof (sort_by_sorted TldChecker.mx_key key_leb key_leb_total answers)
      as Hs.
    induction Hs as [|a l Hs IH Hhd]; constructor.
    + exact IH.
    + destruct Hhd as [|b l Hab]; constructor.
      unfold key_leb, TldChecker.mx_key in Hab. simpl in Hab.
      apply orb_true_iff in Hab. destruct Hab as [Hlt|Heq].
      * left. apply Z.ltb_lt. exact Hlt.
      * apply andb_true_iff in Heq. destruct Heq as [He Hle].
        right. split; [apply Z.eqb_eq; exact He | exact Hle].
  - intros ->. reflexivity.
  - pose proof (proj2 (domain_info_dns_lines net d t) answers HM) as H.
    rewrite Hnn in H. exact H.
Qed.

Lemma C4_mail_servers_witness :
  (exists info,
      res (@TldChecker.get_domain_variant_info Samples.net_live unit
             "example.com" tt []) = inr info
      /\ dict_get "Mail Servers (MX)" info
         = Some "10 a.mx.example, 20 b.mx.example")
  /\ In "Mail Server (MX): 20 b.mx.example, 10 a.mx.example"
        (Collector.info_parts
           (store (Collector.get_domain_info_body Samples.net_live
                     "example.com" Collector.init_locals []))).
Proof.
  pose proof (C4_mail_servers Samples.net_live "example.com"
                [(20%Z, "b.mx.example"); (10%Z, "a.mx.example")] [] eq_refl)
    as H.
  destruct H as [H1 [_ [_ [_ H2]]]]; [discriminate | reflexivity |].
  split; [exact H1 | exact H2].
Defined.
(* ================================================================== *)
(** * The TLD checker: the WHOIS step *)
(* ================================================================== *)

Lemma prefix_has_char (c : ascii) (p s : string) :
  String.prefix p s = true -> has_char c p = true -> has_char c s = true.
Proof.
  revert s. induction p as [|a p IH]; intros s Hp Hc; [discriminate|].
  destruct s as [|b s]; [discriminate|].
  simpl in Hp. destruct (ascii_dec a b) as [->|]; [|discriminate].
  simpl in *. destruct (Ascii.eqb b c); [reflexivity|].
  simpl in *. apply IH; assumption.
Qed.

Lemma contains_has_char (c : ascii) (p s : string) :
  contains p s = true -> has_char c p = true -> has_char c s = true.
Proof.
  induction s as [|b s IH]; intros Hs Hc; simpl in Hs.
  - rewrite orb_false_r in Hs. apply (prefix_has_char c p "" Hs Hc).
  - apply orb_true_iff in Hs. destruct Hs as [Hp|Hs].
    + apply (prefix_has_char c p (String b s) Hp Hc).
    + simpl. rewrite (IH Hs Hc). apply orb_true_r.
Qed.

Lemma identifier_no_paren (s : string) :
  is_identifier s = true -> has_char "(" s = false.
Proof.
  assert (Hall : forall u,
             all_chars (fun a => is_alpha a || is_digit a || Ascii.eqb a "_") u
             = true -> has_char "(" u = false).
  { induction u as [|a u IH]; [reflexivity|]. simpl. intros H.
    apply andb_true_iff in H. destruct H as [Ha Hu].
    rewrite (IH Hu), orb_false_r.
    destruct (Ascii.eqb_spec a "("); [subst a; discriminate Ha|reflexivity]. }
  destruct s as [|c s]; [discriminate|]. simpl. intros H.
  apply andb_true_iff in H. destruct H as [Hc Hs].
  rewrite (Hall s Hs), orb_false_r.
  destruct (Ascii.eqb_spec c "("); [subst c; discriminate Hc|reflexivity].
Qed.

Lemma exn_type_name_identifier (e : exn) :
  is_identifier (exn_type_name e) = true.
Proof.
  unfold exn_type_name. destruct (exn_cls e); try reflexivity.
  apply id_ok.
Qed.

(** No string that step 1, 2 or 3 can append to [dns_errors] holds both
    markers the guard of step 4 looks for in one string. *)
Lemma generic_error_one_marker (label : string) (e : exn) :
  has_char "(" label = false ->
  contains "NXDOMAIN (IP)" (label ++ exn_type_name e)
  && contains "NXDOMAIN (NS)" (label ++ exn_type_name e) = false.
Proof.
  intros Hl. apply andb_false_iff. left.
  destruct (contains "NXDOMAIN (IP)" (label ++ exn_type_name e)) eqn:E;
    [|reflexivity].
  exfalso.
  assert (H : has_char "(" (label ++ exn_type_name e) = true)
    by (apply (contains_has_char "(" _ _ E); reflexivity).
  assert (Happ : forall a b, has_char "(" (a ++ b)
                             = has_char "(" a || has_char "(" b).
  { induction a as [|x a IH]; intros b; simpl; [reflexivity|].
    rewrite IH, orb_assoc. reflexivity. }
  rewrite Happ, Hl, (identifier_no_paren _ (exn_type_name_identifier e)) in H.
  discriminate.
Qed.

Ltac tld_markers :=
  repeat first
    [ block_step
    | progress cbv beta
    | progress tld_setters
    | apply inv_modify; intros ? ?; cbn [TldChecker.dns_errors];
      first [ assumption
            | apply Forall_app; split;
              [ assumption
              | constructor;
                [ first [ reflexivity
                        | apply generic_error_one_marker; reflexivity ]
                | constructor ] ] ] ].

Lemma dns_steps_one_marker (net : Network) (d : string) :
  inv (fun l =>
         Forall (fun e => contains "NXDOMAIN (IP)" e
                          && contains "NXDOMAIN (NS)" e = false)
                (TldChecker.dns_errors l))
      (bind (TldChecker.check_ip net d)
         (fun _ => bind (TldChecker.check_ns net d)
            (fun _ => TldChecker.check_mx net d))).
Proof. tld_blocks. tld_markers. Qed.

(** The guard of step 4 never fails: WHOIS is wanted whatever DNS said. *)
Lemma whois_always_wanted (net : Network) (d : string) (t : list query) :
  let o1 := TldChecker.check_ip net d (TldChecker.init_locals d) t in
  let o2 := TldChecker.check_ns net d (store o1) (queries o1) in
  let o3 := TldChecker.check_mx net d (store o2) (queries o2) in
  TldChecker.whois_wanted (store o3) = true.
Proof.
  intros o1 o2 o3.
  assert (H : Forall (fun e => contains "NXDOMAIN (IP)" e
                               && contains "NXDOMAIN (NS)" e = false)
                (TldChecker.dns_errors (store o3))).
  { pose proof (dns_steps_one_marker net d (TldChecker.init_locals d) t
                  (Forall_nil _)) as H.
    destruct (bind_total (TldChecker.check_ip net d)
                (fun _ => bind (TldChecker.check_ns net d)
                   (fun _ => TldChecker.check_mx net d))
                (TldChecker.init_locals d) t (check_ip_total net d))
      as [a1 E1].
    rewrite E1 in H. fold o1 in H.
    destruct (bind_total (TldChecker.check_ns net d)
                (fun _ => TldChecker.check_mx net d)
                (store o1) (queries o1) (check_ns_total net d))
      as [a2 E2].
    rewrite E2 in H. exact H. }
  unfold TldChecker.whois_wanted.
  assert (Hex : existsb (fun e => contains "NXDOMAIN (IP)" e
                                  && contains "NXDOMAIN (NS)" e)
                  (TldChecker.dns_errors (store o3)) = false).
  { induction H as [|e es He Hes IH]; simpl; [reflexivity|].
    rewrite He, IH. reflexivity. }
  rewrite Hex. apply orb_true_r.
Qed.
Section QueryRules.
Context {L : Type}.

Lemma keeps_ret {A : Type} (a : A) : keeps_queries (@ret L A a).
Proof. intros l t q H. exact H. Qed.

Lemma keeps_lift {A : Type} (r : exn + A) : keeps_queries (@lift L A r).
Proof. intros l t q H. exact H. Qed.

Lemma keeps_get : keeps_queries (@get L).
Proof. intros l t q H. exact H. Qed.

Lemma keeps_modify (f : L -> L) : keeps_queries (modify f).
Proof. intros l t q H. exact H. Qed.

Lemma keeps_ask {A : Type} (q0 : query) (r : exn + A) :
  keeps_queries (@ask L A q0 r).
Proof. intros l t q H. simpl. apply in_or_app. left. exact H. Qed.

Lemma keeps_bind {A B : Type} (c : M L A) (k : A -> M L B) :
  keeps_queries c -> (forall a, keeps_queries (k a)) ->
  keeps_queries (bind c k).
Proof.
  intros Hc Hk l t q H. rewrite bind_run.
  specialize (Hc l t q H).
  destruct (res (c l t)); simpl; [exact Hc | apply Hk; exact Hc].
Qed.

Lemma keeps_try {A : Type} (b : M L A) (h : exn -> M L A) :
  keeps_queries b -> (forall e, keeps_queries (h e)) ->
  keeps_queries (try_except b h).
Proof.
  intros Hb Hh l t q H. rewrite try_run.
  specialize (Hb l t q H).
  destruct (res (b l t)); simpl; [apply Hh; exact Hb | exact Hb].
Qed.

Lemma keeps_for_each {A : Type} (xs : list A) (body : A -> M L unit) :
  (forall x, keeps_queries (body x)) -> keeps_queries (for_each xs body).
Proof.
  intros Hb. induction xs as [|x xs IH]; simpl.
  - apply keeps_ret.
  - apply keeps_bind; [apply Hb | intros _; exact IH].
Qed.

(** A guarded query is logged before anything else happens. *)
Lemma try_ask_logged {A B : Type} (q : query) (r : exn + A)
  (k : A -> M L B) (h : exn -> M L B) l t :
  (forall a, keeps_queries (k a)) -> (forall e, keeps_queries (h e)) ->
  In q (queries (try_except (bind (ask q r) k) h l t)).
Proof.
  intros Hk Hh.
  assert (Hq : In q (t ++ [q])%list)
    by (apply in_or_app; right; left; reflexivity).
  destruct r as [e|a].
  - rewrite try_run, bind_ask_err. simpl. apply Hh. exact Hq.
  - apply (keeps_try (k a) h (Hk a) Hh l (t ++ [q])%list q) in Hq.
    rewrite try_run in *. rewrite bind_ask_ok. exact Hq.
Qed.

End QueryRules.

Ltac keeps_step :=
  match goal with
  | |- keeps_queries (bind _ _) => apply keeps_bind
  | |- keeps_queries (try_except _ _) => apply keeps_try
  | |- keeps_queries (for_each _ _) => apply keeps_for_each
  | |- keeps_queries (ret _) => apply keeps_ret
  | |- keeps_queries (lift _) => apply keeps_lift
  | |- keeps_queries (ask _ _) => apply keeps_ask
  | |- keeps_queries get => apply keeps_get
  | |- keeps_queries (modify _) => apply keeps_modify
  | |- keeps_queries (if ?b then _ else _) => destruct b
  | |- keeps_queries (match ?x with _ => _ end) => destruct x
  | |- forall _, _ => intro
  end.

Ltac tld_keeps :=
  repeat first [ keeps_step | progress cbv beta | progress tld_setters ].

(** For every network and every domain variant the WHOIS server is
    asked: the branch that skips the lookup is never taken. *)
Lemma whois_always_queried (net : Network) (d : string) (t : list query) :
  In (QWhois d)
     (queries (@TldChecker.get_domain_variant_info net unit d tt t)).
Proof.
  rewrite variant_info_call. cbn [queries].
  destruct (variant_info_steps net d (TldChecker.init_locals d) t)
    as [_ Hq].
  rewrite Hq. clear Hq.
  assert (Hn : keeps_queries TldChecker.assemble_notes)
    by (unfold TldChecker.assemble_notes; tld_keeps).
  apply Hn.
  pose proof (whois_always_wanted net d t) as Hw. cbv zeta in Hw.
  unfold TldChecker.check_whois at 1.
  rewrite bind_get, Hw.
  apply try_ask_logged; tld_keeps.
Qed.

(** The sentence of the skipped lookup is never among the notes. *)
Ltac tld_notes :=
  repeat first
    [ block_step
    | progress cbv beta
    | progress cbv zeta
    | progress tld_setters
    | apply inv_modify; intros ? ?; cbn [TldChecker.whois_errors];
      first [ assumption
            | apply Forall_app; split;
              [ assumption | constructor; [ reflexivity | constructor ] ] ] ].

Lemma skip_note_never_written (net : Network) (d : string) (t : list query) :
  ~ In "Skipped WHOIS due to DNS indicating non-existence."
       (TldChecker.whois_errors
          (store (TldChecker.get_domain_variant_info_body net d
                    (TldChecker.init_locals d) t))).
Proof.
  assert (Hall : Forall (fun s => String.prefix "S" s = false)
                   (TldChecker.whois_errors
                      (store (TldChecker.get_domain_variant_info_body net d
                                (TldChecker.init_locals d) t)))).
  { destruct (variant_info_steps net d (TldChecker.init_locals d) t)
      as [Hs _].
    rewrite Hs. clear Hs.
    assert (Hn : inv (fun l => Forall (fun s => String.prefix "S" s = false)
                                 (TldChecker.whois_errors l))
                   TldChecker.assemble_notes)
      by (unfold TldChecker.assemble_notes; tld_notes).
    apply Hn.
    pose proof (whois_always_wanted net d t) as Hw. cbv zeta in Hw.
    unfold TldChecker.check_whois at 1. rewrite bind_get, Hw.
    match goal with
    | |- Forall _ (TldChecker.whois_errors (store (?c ?l3 ?t3))) =>
        assert (Hc : inv (fun l0 => Forall (fun s => String.prefix "S" s = false)
                                      (TldChecker.whois_errors l0)) c)
          by tld_notes;
        apply Hc
    end.
    assert (Hd : inv (fun l => Forall (fun s => String.prefix "S" s = false)
                                 (TldChecker.whois_errors l))
                   (bind (TldChecker.check_ip net d)
                      (fun _ => bind (TldChecker.check_ns net d)
                         (fun _ => TldChecker.check_mx net d))))
      by (tld_blocks; tld_notes).
    pose proof (Hd (TldChecker.init_locals d) t (Forall_nil _)) as H.
    destruct (bind_total (TldChecker.check_ip net d)
                (fun _ => bind (TldChecker.check_ns net d)
                   (fun _ => TldChecker.check_mx net d))
                (TldChecker.init_locals d) t (check_ip_total net d))
      as [a1 E1].
    rewrite E1 in H.
    destruct (bind_total (TldChecker.check_ns net d)
                (fun _ => TldChecker.check_mx net d)
                (store (TldChecker.check_ip net d (TldChecker.init_locals d) t))
                (queries (TldChecker.check_ip net d
                            (TldChecker.init_locals d) t))
                (check_ns_total net d))
      as [a2 E2].
    rewrite E2 in H. exact H. }
  intros Hin. rewrite Forall_forall in Hall.
  specialize (Hall _ Hin). discriminate Hall.
Qed.

(** C1, on a variant that does not exist.  Both the A/AAAA lookup and
    the NS lookup are answered NXDOMAIN, and yet the WHOIS server is
    queried; the notes hold what the WHOIS server answered, not the
    sentence "Skipped WHOIS due to DNS indicating non-existence.". *)
Theorem C1_whois_queried_despite_nxdomain :
  let d := "example-brand.xyz" in
  let run := @TldChecker.get_domain_variant_info Samples.net_nxdomain unit
               d tt [] in
  dns_addr Samples.net_nxdomain d RdA
  = inl (Exn NXDOMAIN "The DNS query name does not exist.")
  /\ dns_ns Samples.net_nxdomain d
     = inl (Exn NXDOMAIN "The DNS query name does not exist.")
  /\ queries run = [QDns d RdA; QDns d RdNS; QDns d RdMX; QWhois d]
  /\ option_map (dict_get "WHOIS Notes/Errors")
       (match res run with inr i => Some i | inl _ => None end)
     = Some (Some ("DNS: DNS NXDOMAIN (IP); DNS NXDOMAIN (MX); "
                   ++ "DNS NXDOMAIN (NS) | WHOIS: WHOIS: No match/Not found "
                   ++ "(likely available or invalid query).")).
Proof. vm_compute. repeat split. Qed.
(* ================================================================== *)
(** * The WHOIS normalizers *)
(* ================================================================== *)

(** [get_val] on a field that is absent, empty, or cannot be read. *)
Lemma get_val_missing (w : whois_obj) (attr : string) (fl dt : bool) :
  TldChecker.field_missing w attr = true ->
  TldChecker.get_val w attr fl dt = "N/A".
Proof.
  unfold TldChecker.field_missing, TldChecker.get_val. intros H.
  apply negb_true_iff in H. rewrite H. reflexivity.
Qed.

(** [get_val] on a list: the first element for a date, the sorted
    distinct elements otherwise. *)
Lemma get_val_list (w : whois_obj) (attr : string) (fl : bool)
  (v0 : pyval) (rest : list pyval) :
  TldChecker.field_value w attr = PList (v0 :: rest) ->
  TldChecker.get_val w attr fl true = str v0
  /\ TldChecker.get_val w attr fl false
     = join ", "
         (sorted_set (map (fun v => strip (str v)) (filter truthy (v0 :: rest)))).
Proof.
  intros H. unfold TldChecker.get_val. rewrite H. split; reflexivity.
Qed.

(** Step 4 on a record that carries data: the five columns read with
    [get_val], and the registrant column with its fallback. *)
Lemma check_whois_data (net : Network) (d : string) (w : whois_obj)
  (l : TldChecker.locals) (t : list query) :
  TldChecker.whois_wanted l = true ->
  whois_reply net d = inr (Some w) ->
  TldChecker.whois_has_data (Some w) = inr true ->
  let i := TldChecker.info (store (TldChecker.check_whois net d l t)) in
  i = dict_set "WHOIS Registrant Org"
        (if String.eqb (TldChecker.get_val w "org" false false) "N/A"
         then TldChecker.get_val w "registrant_organization" false false
         else TldChecker.get_val w "org" false false)
        (dict_set "WHOIS Domain Status"
           (TldChecker.get_val w "status" true false)
           (dict_set "WHOIS Registrar"
              (TldChecker.get_val w "registrar" false false)
              (dict_set "WHOIS Expiration Date"
                 (TldChecker.get_val w "expiration_date" false true)
                 (dict_set "WHOIS Updated Date"
                    (TldChecker.get_val w "updated_date" false true)
                    (dict_set "WHOIS Creation Date"
                       (TldChecker.get_val w "creation_date" false true)
                       (TldChecker.info l)))))).
Proof.
  intros Hw Hr Hd i. subst i. unfold TldChecker.check_whois.
  rewrite bind_get, Hw. rewrite try_run.
  match goal with
  | |- context [res (?b l t)] => remember (b l t) as o eqn:Ho
  end.
  rewrite Hr, bind_ask_ok, Hd, bind_lift_ok, bind_get in Ho.
  cbv iota in Ho. revert Ho. tld_setters. intros Ho.
  repeat rewrite bind_modify in Ho. tld_proj.
  match type of Ho with
  | o = (if ?c then _ else _) _ _ => destruct c
  end.
  - rewrite modify_run in Ho. subst o. reflexivity.
  - match type of Ho with
    | o = (if ?c then _ else _) _ _ => destruct c
    end.
    + rewrite modify_run in Ho. subst o. reflexivity.
    + rewrite ret_run in Ho. subst o. reflexivity.
Qed.

(** The WHOIS columns of a variant whose record carries data. *)
Lemma variant_whois_columns (net : Network) (d : string) (w : whois_obj)
  (t : list query) :
  whois_reply net d = inr (Some w) ->
  TldChecker.whois_has_data (Some w) = inr true ->
  let i := TldChecker.info
             (store (TldChecker.get_domain_variant_info_body net d
                       (TldChecker.init_locals d) t)) in
  dict_get "WHOIS Creation Date" i
  = Some (TldChecker.get_val w "creation_date" false true)
  /\ dict_get "WHOIS Updated Date" i
     = Some (TldChecker.get_val w "updated_date" false true)
  /\ dict_get "WHOIS Expiration Date" i
     = Some (TldChecker.get_val w "expiration_date" false true)
  /\ dict_get "WHOIS Registrar" i
     = Some (TldChecker.get_val w "registrar" false false)
  /\ dict_get "WHOIS Domain Status" i
     = Some (TldChecker.get_val w "status" true false).
Proof.
  intros Hr Hd i. subst i.
  destruct (variant_info_steps net d (TldChecker.init_locals d) t) as [Hs _].
  rewrite Hs. clear Hs.
  pose proof (check_whois_data net d w _
                (queries
                   (TldChecker.check_mx net d
                      (store
                         (TldChecker.check_ns net d
                            (store (TldChecker.check_ip net d
                                      (TldChecker.init_locals d) t))
                            (queries (TldChecker.check_ip net d
                                        (TldChecker.init_locals d) t))))
                      (queries
                         (TldChecker.check_ns net d
                            (store (TldChecker.check_ip net d
                                      (TldChecker.init_locals d) t))
                            (queries (TldChecker.check_ip net d
                                        (TldChecker.init_locals d) t))))))
                (whois_always_wanted net d t) Hr Hd) as Hi.
  cbv zeta in Hi.
  repeat split.
  - apply (assemble_notes_frame "WHOIS Creation Date" _ eq_refl).
    rewrite Hi.
    repeat (rewrite dict_get_set_other by reflexivity).
    apply dict_get_set_same.
  - apply (assemble_notes_frame "WHOIS Updated Date" _ eq_refl).
    rewrite Hi.
    repeat (rewrite dict_get_set_other by reflexivity).
    apply dict_get_set_same.
  - apply (assemble_notes_frame "WHOIS Expiration Date" _ eq_refl).
    rewrite Hi.
    repeat (rewrite dict_get_set_other by reflexivity).
    apply dict_get_set_same.
  - apply (assemble_notes_frame "WHOIS Registrar" _ eq_refl).
    rewrite Hi.
    repeat (rewrite dict_get_set_other by reflexivity).
    apply dict_get_set_same.
  - apply (assemble_notes_frame "WHOIS Domain Status" _ eq_refl).
    rewrite Hi.
    repeat (rewrite dict_get_set_other by reflexivity).
    apply dict_get_set_same.
Qed.

(** The collector's date line and status line, as run. *)
Lemma date_line_run (w : whois_obj) (label attr : string)
  (l : Collector.locals) (t : list query) :
  Collector.date_line w label attr l t
  = match getattr w attr with
    | inl e => MkOut (inl e) l t
    | inr v =>
        MkOut (inr tt)
          (Collector.Locals
             (List.app (Collector.info_parts l)
                [label ++ ": "
                 ++ (if truthy (Collector.first_if_list v)
                     then str (Collector.first_if_list v) else "N/A")])
             (Collector.errors l) (Collector.ip_addresses l)
             (Collector.mail_servers l))
          t
    end.
Proof.
  unfold Collector.date_line. destruct (getattr w attr); reflexivity.
Qed.

Lemma status_line_run (w : whois_obj) (l : Collector.locals)
  (t : list query) :
  Collector.status_line w l t
  = match getattr w "status" with
    | inl e => MkOut (inl e) l t
    | inr st =>
        match (if is_list st
               then (if truthy st then join_val ", " st else inr "N/A")
               else inr (if truthy st then str st else "N/A")) with
        | inl e => MkOut (inl e) l t
        | inr txt =>
            MkOut (inr tt)
              (Collector.Locals
                 (List.app (Collector.info_parts l) ["Domain Status: " ++ txt])
                 (Collector.errors l) (Collector.ip_addresses l)
                 (Collector.mail_servers l))
              t
        end
    end.
Proof.
  unfold Collector.status_line. destruct (getattr w "status") as [e|st].
  - reflexivity.
  - rewrite bind_lift_ok. destruct (is_list st); [|reflexivity].
    destruct (truthy st); [|reflexivity].
    destruct (join_val ", " st); reflexivity.
Qed.

Lemma join_items_strings (i : nat) (items : list string) :
  join_items i (map PStr items) = inr items.
Proof.
  revert i. induction items as [|s items IH]; intros i; simpl.
  - reflexivity.
  - rewrite IH. reflexivity.
Qed.
(** C5 as stated fails for the collector: a status list is joined as it
    came, duplicates included, where the TLD checker on the same record
    gives the sorted distinct codes. *)
Lemma C5_counterexample :
  let text :=
    match res (@Collector.get_domain_info Samples.net_live unit
                 "example.com" tt []) with
    | inr s => s
    | inl _ => ""
    end in
  getattr Samples.sample_record "status"
  = inr (PList [PStr "b"; PStr "a"; PStr "b"])
  /\ contains "Domain Status: b, a, b" text = true
  /\ contains "Domain Status: a, b" text = false
  /\ TldChecker.get_val Samples.sample_record "status" true false = "a, b".
Proof. vm_compute. repeat split. Qed.

(** C5, amended.  In the TLD Variant Checker a non-empty list-valued
    WHOIS field is flattened by [get_val]: a date field (creation,
    updated, expiration) takes the text of its first element; any other
    list field, domain status included, is the comma-separated list, in
    ascending order and without duplicates, of the stripped texts of its
    non-empty elements; these are the values of the row's columns when the
    record carries data.  In the Domain-Info Collector a date list shows
    the text of its first element (["N/A"] when that element is empty)
    and a non-empty status list of strings is joined in the order
    received, duplicates included. *)
Theorem C5_list_fields :
  (forall (w : whois_obj) (attr : string) (fl : bool) (v0 : pyval)
          (rest : list pyval),
      TldChecker.field_value w attr = PList (v0 :: rest) ->
      let texts := map (fun v => strip (str v)) (filter truthy (v0 :: rest)) in
      TldChecker.get_val w attr fl true = str v0
      /\ TldChecker.get_val w attr fl false = join ", " (sorted_set texts)
      /\ Sorted (fun u v => String.leb u v = true) (sorted_set texts)
      /\ NoDup (sorted_set texts)
      /\ (forall x, In x (sorted_set texts) <-> In x texts))
  /\ (forall (net : Network) (d : string) (w : whois_obj) (t : list query),
         whois_reply net d = inr (Some w) ->
         TldChecker.whois_has_data (Some w) = inr true ->
         exists info,
           res (@TldChecker.get_domain_variant_info net unit d tt t) = inr info
           /\ dict_get "WHOIS Creation Date" info
              = Some (TldChecker.get_val w "creation_date" false true)
           /\ dict_get "WHOIS Updated Date" info
              = Some (TldChecker.get_val w "updated_date" false true)
           /\ dict_get "WHOIS Expiration Date" info
              = Some (TldChecker.get_val w "expiration_date" false true)
           /\ dict_get "WHOIS Registrar" info
              = Some (TldChecker.get_val w "registrar" false false)
           /\ dict_get "WHOIS Domain Status" info
              = Some (TldChecker.get_val w "status" true false))
  /\ (forall (w : whois_obj) (label attr : string) (v0 : pyval)
             (rest : list pyval) (l : Collector.locals) (t : list query),
         w_getattr w attr = Some (PList (v0 :: rest)) ->
         Collector.info_parts (store (Collector.date_line w label attr l t))
         = List.app (Collector.info_parts l)
             [label ++ ": " ++ (if truthy v0 then str v0 else "N/A")])
  /\ (forall (w : whois_obj) (items : list string) (l : Collector.locals)
             (t : list query),
         w_getattr w "status" = Some (PList (map PStr items)) ->
         items <> [] ->
         Collector.info_parts (store (Collector.status_line w l t))
         = List.app (Collector.info_parts l)
             ["Domain Status: " ++ join ", " items]).
Proof.
  split; [|split; [|split]].
  - intros w attr fl v0 rest H texts.
    destruct (get_val_list w attr fl v0 rest H) as [Hd Ho].
    split; [exact Hd|]. split; [exact Ho|].
    split; [apply sorted_set_Sorted|].
    split; [apply sorted_set_NoDup|].
    intros x. apply sorted_set_In.
  - intros net d w t Hr Hd. eexists. rewrite variant_info_call.
    split; [reflexivity|].
    apply (variant_whois_columns net d w t Hr Hd).
  - intros w label attr v0 rest l t H.
    rewrite date_line_run. unfold getattr. rewrite H. reflexivity.
  - intros w items l t H Hne.
    rewrite status_line_run. unfold getattr. rewrite H.
    destruct items as [|s items]; [congruence|].
    cbn [is_list truthy nonnil map]. unfold join_val.
    change (PStr s :: map PStr items) with (map PStr (s :: items)).
    rewrite join_items_strings. reflexivity.
Qed.

Lemma C5_list_fields_witness :
  TldChecker.get_val Samples.sample_record "creation_date" false true
  = "1995-08-14 04:00:00"
  /\ TldChecker.get_val Samples.sample_record "status" true false = "a, b"
  /\ (exists info,
         res (@TldChecker.get_domain_variant_info Samples.net_live unit
                "example.com" tt []) = inr info
         /\ dict_get "WHOIS Domain Status" info = Some "a, b")
  /\ Collector.info_parts
       (store (Collector.status_line Samples.sample_record
                 Collector.init_locals []))
     = ["Domain Status: b, a, b"].
Proof.
  destruct C5_list_fields as [Hval [Hcol [_ Hstatus]]].
  split; [|split; [|split]].
  - apply (Hval Samples.sample_record "creation_date" false
             (PDate (Datetime 1995 8 14 4 0 0 0))
             [PDate (Datetime 1995 8 14 0 0 0 0)] eq_refl).
  - apply (Hval Samples.sample_record "status" true
             (PStr "b") [PStr "a"; PStr "b"] eq_refl).
  - destruct (Hcol Samples.net_live "example.com" Samples.sample_record []
                eq_refl eq_refl) as [info [Hres [_ [_ [_ [_ Hst]]]]]].
    exists info. split; [exact Hres | exact Hst].
  - apply (Hstatus Samples.sample_record ["b"; "a"; "b"]
             Collector.init_locals [] eq_refl).
    discriminate.
Defined.
(* ================================================================== *)
(** * Missing WHOIS fields *)
(* ================================================================== *)

Section EnsuresRules.
Context {L : Type}.

Lemma ensures_bind_here {A B : Type} (c : M L A) (k : A -> M L B)
  (Q : L -> Prop) :
  ensures c Q -> (forall a, inv Q (k a)) -> ensures (bind c k) Q.
Proof.
  intros Hc Hk l t b. rewrite bind_run.
  destruct (res (c l t)) as [e|a] eqn:E; simpl.
  - discriminate.
  - intros _. apply Hk. apply (Hc l t a E).
Qed.

Lemma ensures_bind_later {A B : Type} (c : M L A) (k : A -> M L B)
  (Q : L -> Prop) :
  (forall a, ensures (k a) Q) -> ensures (bind c k) Q.
Proof.
  intros Hk l t b. rewrite bind_run.
  destruct (res (c l t)) as [e|a] eqn:E; simpl.
  - discriminate.
  - apply Hk.
Qed.

Lemma ensures_bind_lift {A B : Type} (r : exn + A) (k : A -> M L B)
  (Q : L -> Prop) :
  (forall a, r = inr a -> ensures (k a) Q) -> ensures (bind (lift r) k) Q.
Proof.
  intros Hk l t b. destruct r as [e|a].
  - rewrite bind_lift_err. discriminate.
  - rewrite bind_lift_ok. apply (Hk a eq_refl).
Qed.

Lemma ensures_modify (f : L -> L) (Q : L -> Prop) :
  (forall l, Q (f l)) -> ensures (modify f) Q.
Proof. intros H l t a _. apply H. Qed.

End EnsuresRules.

Lemma first_if_list_falsy (v : pyval) :
  truthy v = false -> truthy (Collector.first_if_list v) = false.
Proof. destruct v as [| | |[|x l]]; simpl; congruence. Qed.

Lemma getattr_value (w : whois_obj) (attr : string) (v : pyval) :
  getattr w attr = inr v -> getattr_default w attr = v.
Proof.
  unfold getattr, getattr_default.
  destruct (w_getattr w attr); congruence.
Qed.

(** A line appended by [append_info] is in [info_parts]. *)
Lemma append_info_adds (line : string) :
  ensures (Collector.append_info line)
    (fun l => In line (Collector.info_parts l)).
Proof.
  unfold Collector.append_info. apply ensures_modify.
  intros l. simpl. apply in_or_app. right. left. reflexivity.
Qed.

(** The three sub-blocks, on a field that is empty. *)
Lemma date_line_na (w : whois_obj) (label attr : string) :
  truthy (getattr_default w attr) = false ->
  ensures (Collector.date_line w label attr)
    (fun l => In (label ++ ": N/A") (Collector.info_parts l)).
Proof.
  intros Hf l t a. rewrite date_line_run.
  destruct (getattr w attr) as [e|v] eqn:E; [discriminate|].
  intros _. simpl.
  rewrite (getattr_value w attr v E) in Hf.
  rewrite (first_if_list_falsy v Hf).
  apply in_or_app. right. left. reflexivity.
Qed.

Lemma status_line_na (w : whois_obj) :
  truthy (getattr_default w "status") = false ->
  ensures (Collector.status_line w)
    (fun l => In "Domain Status: N/A" (Collector.info_parts l)).
Proof.
  intros Hf l t a. rewrite status_line_run.
  destruct (getattr w "status") as [e|v] eqn:E; [discriminate|].
  rewrite (getattr_value w "status" v E) in Hf. rewrite Hf.
  destruct (is_list v); intros _; simpl;
    apply in_or_app; right; left; reflexivity.
Qed.

Lemma name_server_line_na (w : whois_obj) :
  truthy (getattr_default w "name_servers") = false ->
  ensures (Collector.name_server_line w)
    (fun l => In "Name Server: N/A" (Collector.info_parts l)).
Proof.
  intros Hf. unfold Collector.name_server_line.
  apply ensures_bind_lift. intros v Hv.
  rewrite (getattr_value w "name_servers" v Hv) in Hf. rewrite Hf.
  apply append_info_adds.
Qed.

Lemma fmt_or_na_falsy (w : whois_obj) (attr : string) (v : pyval) :
  getattr w attr = inr v ->
  truthy (getattr_default w attr) = false ->
  Collector.fmt_or_na v = "N/A".
Proof.
  intros Hv Hf. rewrite (getattr_value w attr v Hv) in Hf.
  unfold Collector.fmt_or_na. rewrite Hf. reflexivity.
Qed.

Lemma guarded_or_na_falsy (w : whois_obj) (attr : string) :
  truthy (getattr_default w attr) = false ->
  Collector.guarded_or_na w attr = "N/A".
Proof.
  intros Hf. unfold Collector.guarded_or_na.
  rewrite Hf, andb_false_r. reflexivity.
Qed.

Lemma registrar_url_na (w : whois_obj) (url : pyval) :
  truthy (getattr_default w "registrar_url") = false ->
  truthy (getattr_default w "registrar") = false ->
  Collector.registrar_url_of w = inr url ->
  str url = "N/A".
Proof.
  intros Hu Hr. unfold Collector.registrar_url_of.
  rewrite Hu, andb_false_r.
  destruct (getattr w "registrar") as [e|v] eqn:E; [discriminate|].
  rewrite (getattr_value w "registrar" v E) in Hr. rewrite Hr.
  intros H. injection H as <-. reflexivity.
Qed.

(** Looking for the statement of [whois_fields] that writes a line:
    either the statement at hand writes it and the rest keeps it, or it
    is written later. *)
Ltac line_here :=
  apply ensures_bind_here;
  [ first [ apply append_info_adds
          | apply date_line_na; assumption
          | apply status_line_na; assumption ]
  | intros; keeps_line ].

Ltac line_search :=
  first
    [ line_here
    | apply name_server_line_na; assumption
    | apply ensures_bind_lift; intros ? ?; line_search
    | apply ensures_bind_later; intros ?; line_search ].

(** The collector's WHOIS block on a field that is absent or empty:
    when the block runs to its end the field's line reads ["N/A"]. *)
Lemma whois_fields_missing (w : whois_obj) (dn : pyval)
  (label attr : string) :
  In (label, attr) Collector.labelled_fields ->
  truthy (getattr_default w attr) = false ->
  ensures (Collector.whois_fields w dn)
    (fun l => In (label ++ ": N/A") (Collector.info_parts l)).
Proof.
  intros Hin Hf. unfold Collector.whois_fields.
  simpl in Hin.
  repeat match goal with
         | H : _ \/ _ |- _ => destruct H as [H|H]
         end; try contradiction; injection Hin as <- <-.
  - apply ensures_bind_later. intros dn_text.
    apply ensures_bind_later. intros _.
    apply ensures_bind_lift. intros v Hv.
    rewrite (fmt_or_na_falsy w _ v Hv Hf). line_here.
  - do 4 (apply ensures_bind_later; intros ?).
    apply ensures_bind_lift. intros v Hv.
    rewrite (fmt_or_na_falsy w _ v Hv Hf). line_here.
  - line_search.
  - line_search.
  - line_search.
  - do 11 (apply ensures_bind_later; intros ?).
    apply ensures_bind_lift. intros v Hv.
    rewrite (fmt_or_na_falsy w _ v Hv Hf). line_here.
  - rewrite (guarded_or_na_falsy w _ Hf). line_search.
  - rewrite (guarded_or_na_falsy w _ Hf). line_search.
  - rewrite (guarded_or_na_falsy w _ Hf). line_search.
  - line_search.
  - line_search.
Qed.
(** The same at the level of [get_domain_info]. *)
Lemma domain_info_missing (net : Network) (d : string) (w : whois_obj)
  (dn : pyval) (t : list query) (label attr : string) :
  whois_reply net d = inr (Some w) ->
  obj_truthy w = true ->
  getattr w "domain_name" = inr dn ->
  truthy dn = true ->
  res (Collector.whois_fields w dn Collector.init_locals
         (t ++ [QWhois d])%list) = inr tt ->
  In (label, attr) Collector.labelled_fields ->
  truthy (getattr_default w attr) = false ->
  In (label ++ ": N/A")
     (Collector.info_parts
        (store (Collector.get_domain_info_body net d
                  Collector.init_locals t))).
Proof.
  intros Hr Ht Hdn Htr Hres Hin Hf.
  destruct (domain_info_steps net d Collector.init_locals t) as [Hs _].
  rewrite Hs. clear Hs.
  apply mx_block_keeps. apply ip_block_keeps.
  unfold Collector.whois_block.
  match goal with
  | |- context [try_except ?b ?h] =>
      assert (Hbody : b Collector.init_locals t
                      = Collector.whois_fields w dn
                          Collector.init_locals (t ++ [QWhois d])%list)
  end.
  { rewrite Hr, bind_ask_ok. cbv beta iota. rewrite Ht.
    rewrite Hdn, bind_lift_ok, Htr. reflexivity. }
  rewrite try_run, !Hbody, Hres.
  apply (whois_fields_missing w dn label attr Hin Hf _ _ tt Hres).
Qed.

(** Step 4 leaves ["N/A"] in a column whose fields are missing. *)
Lemma check_whois_missing (net : Network) (d : string) (col : string)
  (attrs : list string) :
  In (col, attrs) TldChecker.whois_columns ->
  (forall w, whois_reply net d = inr (Some w) ->
             forallb (TldChecker.field_missing w) attrs = true) ->
  inv (fun l => dict_get col (TldChecker.info l) = Some "N/A")
      (TldChecker.check_whois net d).
Proof.
  intros Hin Hmiss. unfold TldChecker.check_whois.
  assert (Hcol : existsb (String.eqb col)
                   [ "Full Domain Queried"; "DNS Resolves (A/AAAA)";
                     "IP Addresses"; "Name Servers (NS)"; "Mail Servers (MX)";
                     "WHOIS Notes/Errors" ] = false).
  { simpl in Hin.
    repeat match goal with
           | H : _ \/ _ |- _ => destruct H as [H|H]
           end; try contradiction; injection Hin as <- <-; reflexivity. }
  apply inv_bind_get. intros l0 _.
  destruct (TldChecker.whois_wanted l0); [|tld_frame].
  apply inv_try; [|intros e; tld_frame].
  apply inv_bind_ask. intros a Ha.
  apply inv_bind_lift. intros has_data _.
  apply inv_bind_get. intros l1 _.
  destruct a as [w|]; [destruct has_data|]; [|solve [tld_frame]..].
  specialize (Hmiss w Ha). cbv zeta.
  simpl in Hin.
  repeat match goal with
         | H : _ \/ _ |- _ => destruct H as [H|H]
         end; try contradiction; injection Hin as <- <-;
    simpl in Hmiss; rewrite ?andb_true_r in Hmiss;
    try (apply andb_true_iff in Hmiss; destruct Hmiss as [Hm1 Hm2]);
    repeat first
      [ block_step
      | progress cbv beta
      | progress tld_setters
      | apply inv_modify; intros ? ?; cbn [TldChecker.info];
        first
          [ assumption
          | rewrite dict_get_set_other by reflexivity; assumption
          | repeat match goal with
                   | H : TldChecker.field_missing ?w ?a = true
                     |- context [TldChecker.get_val ?w ?a ?f ?dt] =>
                       rewrite (get_val_missing w a f dt H)
                   end;
            cbn [String.eqb Ascii.eqb Bool.eqb]; apply dict_get_set_same ] ].
Qed.

(** The WHOIS columns of a variant whose fields are missing. *)
Lemma variant_missing_column (net : Network) (d : string) (t : list query)
  (col : string) (attrs : list string) :
  In (col, attrs) TldChecker.whois_columns ->
  (forall w, whois_reply net d = inr (Some w) ->
             forallb (TldChecker.field_missing w) attrs = true) ->
  dict_get col
    (TldChecker.info
       (store (TldChecker.get_domain_variant_info_body net d
                 (TldChecker.init_locals d) t)))
  = Some "N/A".
Proof.
  intros Hin Hmiss.
  assert (Hcol : String.eqb col "IP Addresses" = false
                 /\ String.eqb col "DNS Resolves (A/AAAA)" = false
                 /\ String.eqb col "Name Servers (NS)" = false
                 /\ String.eqb col "Mail Servers (MX)" = false
                 /\ String.eqb col "WHOIS Notes/Errors" = false
                 /\ dict_get col (TldChecker.info (TldChecker.init_locals d))
                    = Some "N/A").
  { simpl in Hin.
    repeat match goal with
           | H : _ \/ _ |- _ => destruct H as [H|H]
           end; try contradiction; injection Hin as <- <-;
      repeat split. }
  destruct Hcol as [H1 [H2 [H3 [H4 [H5 H0]]]]].
  destruct (variant_info_steps net d (TldChecker.init_locals d) t) as [Hs _].
  rewrite Hs. clear Hs.
  apply (assemble_notes_frame col _ H5).
  apply (check_whois_missing net d col attrs Hin Hmiss).
  apply (check_mx_frame net d col _ H4).
  apply (check_ns_frame net d col _ H3).
  apply (check_ip_frame net d col _ H1 H2).
  exact H0.
Qed.
(** C3 as stated fails twice: the error row of the TLD checker holds
    only three keys, so [DictWriter] writes its WHOIS columns as empty
    strings; and in the collector a field whose lookup fails, and that is
    not guarded by [hasattr], ends the WHOIS block with an error line
    instead of a ["N/A"] line. *)
Lemma C3_counterexample :
  let text :=
    match res (@Collector.get_domain_info Samples.net_no_registry_id unit
                 "example.com" tt []) with
    | inr s => s
    | inl _ => ""
    end in
  (TldChecker.extract_meaningful_base TldChecker.sample_extract "co.uk" = ""
   /\ res (TldChecker.main TldChecker.sample_extract Samples.net_live
             ["co.uk"] (TldChecker.MainLocals []) [])
      = inr (Some [ TldChecker.output_header;
                    [ "co.uk"; "Error"; ""; ""; ""; ""; ""; ""; ""; ""; "";
                      ""; ""; "";
                      "Could not extract base name from input." ] ]))
  /\ (hasattr Samples.record_no_registry_id "registry_domain_id" = false
      /\ contains "Registry Domain ID" text = false
      /\ contains ("WHOIS Attribute Error: 'Record' object has no attribute "
                   ++ "'registry_domain_id'") text = true).
Proof. vm_compute. repeat split. Qed.

(** C3, amended.  In every row the TLD Variant Checker writes for a
    variant, a WHOIS column renders as ["N/A"] whenever each field it is
    read from is absent, empty or cannot be looked up (and whenever the
    lookup itself fails or returns nothing); [get_val] returns ["N/A"]
    for such a field.  The error row written when no base name is
    extracted holds the input, ["Error"] and the note, and the empty
    string in every other column.  In the Domain-Info Collector, when
    the WHOIS block of a record that carries a domain name runs to its
    end, each labelled field that is absent or empty has the line
    [<label>: N/A]. *)
Theorem C3_missing_fields :
  (forall (net : Network) (d : string) (t : list query) (col : string)
          (attrs : list string),
      In (col, attrs) TldChecker.whois_columns ->
      (forall w, whois_reply net d = inr (Some w) ->
                 forallb (TldChecker.field_missing w) attrs = true) ->
      exists info,
        res (@TldChecker.get_domain_variant_info net unit d tt t) = inr info
        /\ dict_get col info = Some "N/A")
  /\ (forall (w : whois_obj) (attr : string) (fl dt : bool),
         TldChecker.field_missing w attr = true ->
         TldChecker.get_val w attr fl dt = "N/A")
  /\ (forall (orig : string),
         TldChecker.row_fields (TldChecker.error_row orig)
         = [ orig; "Error"; ""; ""; ""; ""; ""; ""; ""; ""; ""; ""; ""; "";
             "Could not extract base name from input." ])
  /\ (forall (net : Network) (d : string) (w : whois_obj) (dn : pyval)
             (t : list query) (label attr : string),
         whois_reply net d = inr (Some w) ->
         obj_truthy w = true ->
         getattr w "domain_name" = inr dn ->
         truthy dn = true ->
         res (Collector.whois_fields w dn Collector.init_locals
                (t ++ [QWhois d])%list) = inr tt ->
         In (label, attr) Collector.labelled_fields ->
         truthy (getattr_default w attr) = false ->
         In (label ++ ": N/A")
            (Collector.info_parts
               (store (Collector.get_domain_info_body net d
                         Collector.init_locals t)))).
Proof.
  split; [|split; [|split]].
  - intros net d t col attrs Hin Hmiss. eexists.
    rewrite variant_info_call. split; [reflexivity|].
    apply (variant_missing_column net d t col attrs Hin Hmiss).
  - apply get_val_missing.
  - intros orig. reflexivity.
  - apply domain_info_missing.
Qed.

Lemma C3_missing_fields_witness :
  (exists info,
      res (@TldChecker.get_domain_variant_info Samples.net_live unit
             "example.com" tt []) = inr info
      /\ dict_get "WHOIS Registrant Org" info = Some "N/A")
  /\ (exists info,
         res (@TldChecker.get_domain_variant_info Samples.net_nxdomain unit
                "example-brand.xyz" tt []) = inr info
         /\ dict_get "WHOIS Registrar" info = Some "N/A")
  /\ TldChecker.get_val Samples.sample_record "updated_date" false true
     = "N/A"
  /\ In "Registrar IANA ID: N/A"
        (Collector.info_parts
           (store (Collector.get_domain_info_body Samples.net_live
                     "example.com" Collector.init_locals []))).
Proof.
  destruct C3_missing_fields as [Hcol [Hval [_ Hline]]].
  split; [|split; [|split]].
  - apply (Hcol Samples.net_live "example.com" []
             "WHOIS Registrant Org" ["org"; "registrant_organization"]).
    + simpl. tauto.
    + intros w Hw. injection Hw as <-. reflexivity.
  - apply (Hcol Samples.net_nxdomain "example-brand.xyz" []
             "WHOIS Registrar" ["registrar"]).
    + simpl. tauto.
    + intros w Hw. discriminate Hw.
  - apply (Hval Samples.sample_record "updated_date" false true eq_refl).
  - apply (Hline Samples.net_live "example.com" Samples.sample_record
             (PStr "EXAMPLE.COM") [] "Registrar IANA ID" "iana_id");
      try reflexivity.
    simpl. tauto.
Defined.

(* ================================================================== *)
(** * The queries a block sends, and what its result depends on *)
(* ================================================================== *)

Section TraceRules.
Context {L : Type}.

Lemma emits_ret {A : Type} (a : A) : emits (@ret L A a) [].
Proof. intros l t. simpl. symmetry. apply app_nil_r. Qed.

Lemma emits_lift {A : Type} (r : exn + A) : emits (@lift L A r) [].
Proof. intros l t. simpl. symmetry. apply app_nil_r. Qed.

Lemma emits_get : emits (@get L) [].
Proof. intros l t. simpl. symmetry. apply app_nil_r. Qed.

Lemma emits_modify (f : L -> L) : emits (modify f) [].
Proof. intros l t. simpl. symmetry. apply app_nil_r. Qed.

Lemma emits_ask {A : Type} (q : query) (r : exn + A) :
  emits (@ask L A q r) [q].
Proof. intros l t. reflexivity. Qed.

(** A statement followed by statements that send nothing. *)
Lemma emits_bind_quiet {A B : Type} (c : M L A) (k : A -> M L B)
  (qs : list query) :
  emits c qs -> (forall a, emits (k a) []) -> emits (bind c k) qs.
Proof.
  intros Hc Hk l t. rewrite bind_run.
  destruct (res (c l t)) as [e|a]; simpl.
  - apply Hc.
  - rewrite Hk, app_nil_r. apply Hc.
Qed.

(** A statement that cannot raise, followed by others. *)
Lemma emits_bind_total {A B : Type} (c : M L A) (k : A -> M L B)
  (qs1 qs2 : list query) :
  total c -> emits c qs1 -> (forall a, emits (k a) qs2) ->
  emits (bind c k) (qs1 ++ qs2)%list.
Proof.
  intros Ht Hc Hk l t. rewrite bind_run.
  destruct (Ht l t) as [a Ha]. rewrite Ha.
  rewrite Hk, Hc. symmetry. apply app_assoc.
Qed.

Lemma emits_bind_ask_ok {A B : Type} (q : query) (a : A) (k : A -> M L B)
  (qs : list query) :
  emits (k a) qs -> emits (bind (ask q (inr a)) k) (q :: qs).
Proof.
  intros Hk l t. rewrite bind_ask_ok, Hk, <- app_assoc. reflexivity.
Qed.

Lemma emits_bind_ask_err {A B : Type} (q : query) (e : exn)
  (k : A -> M L B) :
  emits (bind (ask q (@inl exn A e)) k) [q].
Proof. intros l t. reflexivity. Qed.

Lemma emits_assoc {A B C : Type} (c : M L A) (k : A -> M L B)
  (k' : B -> M L C) (qs : list query) :
  emits (bind c (fun a => bind (k a) k')) qs -> emits (bind (bind c k) k') qs.
Proof. intros H l t. rewrite bind_assoc. apply H. Qed.

(** A guarded body whose handlers send nothing. *)
Lemma emits_try {A : Type} (b : M L A) (h : exn -> M L A) (qs : list query) :
  emits b qs -> (forall e, emits (h e) []) -> emits (try_except b h) qs.
Proof.
  intros Hb Hh l t. rewrite try_run.
  destruct (res (b l t)) as [e|a]; simpl.
  - rewrite Hh, app_nil_r. apply Hb.
  - apply Hb.
Qed.

Lemma emits_for_each_quiet {A : Type} (xs : list A) (body : A -> M L unit) :
  (forall x, emits (body x) []) -> emits (for_each xs body) [].
Proof.
  intros Hb. induction xs as [|x xs IH]; simpl.
  - apply emits_ret.
  - apply emits_bind_quiet; [apply Hb | intros _; exact IH].
Qed.

(** A loop whose body cannot raise sends the queries of each pass, in
    the order of the passes. *)
Lemma emits_for_each {A : Type} (xs : list A) (body : A -> M L unit)
  (f : A -> list query) :
  (forall x, total (body x)) -> (forall x, emits (body x) (f x)) ->
  emits (for_each xs body) (flat_map f xs).
Proof.
  intros Ht Hb. induction xs as [|x xs IH]; simpl.
  - apply emits_ret.
  - apply emits_bind_total; [apply Ht | apply Hb | intros _; exact IH].
Qed.

Lemma emits_call {L' A : Type} (init : L') (body : M L' A)
  (qs : list query) :
  emits body qs -> emits (@call L L' A init body) qs.
Proof. intros H l t. unfold call. simpl. apply H. Qed.

Lemma oblivious_ret {A : Type} (a : A) : oblivious (@ret L A a).
Proof. intros l t t'. split; reflexivity. Qed.

Lemma oblivious_raise {A : Type} (e : exn) : oblivious (@raise L A e).
Proof. intros l t t'. split; reflexivity. Qed.

Lemma oblivious_lift {A : Type} (r : exn + A) : oblivious (@lift L A r).
Proof. intros l t t'. split; reflexivity. Qed.

Lemma oblivious_get : oblivious (@get L).
Proof. intros l t t'. split; reflexivity. Qed.

Lemma oblivious_modify (f : L -> L) : oblivious (modify f).
Proof. intros l t t'. split; reflexivity. Qed.

Lemma oblivious_ask {A : Type} (q : query) (r : exn + A) :
  oblivious (@ask L A q r).
Proof. intros l t t'. split; reflexivity. Qed.

Lemma oblivious_bind {A B : Type} (c : M L A) (k : A -> M L B) :
  oblivious c -> (forall a, oblivious (k a)) -> oblivious (bind c k).
Proof.
  intros Hc Hk l t t'. rewrite !bind_run.
  destruct (Hc l t t') as [Hr Hs]. rewrite <- Hr, <- Hs.
  destruct (res (c l t)) as [e|a]; simpl.
  - split; reflexivity.
  - apply Hk.
Qed.

Lemma oblivious_try {A : Type} (b : M L A) (h : exn -> M L A) :
  oblivious b -> (forall e, oblivious (h e)) -> oblivious (try_except b h).
Proof.
  intros Hb Hh l t t'. rewrite !try_run.
  destruct (Hb l t t') as [Hr Hs]. rewrite <- Hr.
  destruct (res (b l t)) as [e|a] eqn:E; simpl.
  - rewrite <- Hs. apply Hh.
  - split; [congruence | exact Hs].
Qed.

Lemma oblivious_for_each {A : Type} (xs : list A) (body : A -> M L unit) :
  (forall x, oblivious (body x)) -> oblivious (for_each xs body).
Proof.
  intros Hb. induction xs as [|x xs IH]; simpl.
  - apply oblivious_ret.
  - apply oblivious_bind; [apply Hb | intros _; exact IH].
Qed.

Lemma oblivious_call {L' A : Type} (init : L') (body : M L' A) :
  oblivious body -> oblivious (@call L L' A init body).
Proof.
  intros H l t t'. unfold call. simpl.
  split; [apply H | reflexivity].
Qed.

End TraceRules.

Ltac trace_step :=
  match goal with
  | |- emits (bind (bind _ _) _) _ => apply emits_assoc
  | |- emits (bind (ask _ (inr _)) _) _ => apply emits_bind_ask_ok
  | |- emits (bind (ask _ (inl _)) _) _ => apply emits_bind_ask_err
  | |- emits (bind _ _) [] => apply emits_bind_quiet
  | |- emits (try_except _ _) _ => apply emits_try
  | |- emits (for_each _ _) [] => apply emits_for_each_quiet
  | |- emits (ret _) _ => apply emits_ret
  | |- emits (lift _) _ => apply emits_lift
  | |- emits get _ => apply emits_get
  | |- emits (modify _) _ => apply emits_modify
  | |- emits (if ?b then _ else _) _ => destruct b
  | |- emits (match ?x with _ => _ end) _ => destruct x
  | |- oblivious (bind _ _) => apply oblivious_bind
  | |- oblivious (try_except _ _) => apply oblivious_try
  | |- oblivious (for_each _ _) => apply oblivious_for_each
  | |- oblivious (call _ _) => apply oblivious_call
  | |- oblivious (ret _) => apply oblivious_ret
  | |- oblivious (raise _) => apply oblivious_raise
  | |- oblivious (lift _) => apply oblivious_lift
  | |- oblivious (ask _ _) => apply oblivious_ask
  | |- oblivious get => apply oblivious_get
  | |- oblivious (modify _) => apply oblivious_modify
  | |- oblivious (if ?b then _ else _) => destruct b
  | |- oblivious (match ?x with _ => _ end) => destruct x
  | |- forall _, _ => intro
  end.

Ltac tld_trace :=
  repeat first [ trace_step | progress cbv beta | progress cbv zeta
               | progress tld_setters ].

Ltac collector_trace :=
  repeat first [ trace_step | progress cbv beta | progress cbv zeta
               | progress collector_setters | progress collector_lines ].

(** ** The TLD checker: what a variant costs *)

Lemma check_ip_oblivious (net : Network) (d : string) :
  oblivious (TldChecker.check_ip net d).
Proof. unfold TldChecker.check_ip. tld_trace. Qed.

Lemma check_ns_oblivious (net : Network) (d : string) :
  oblivious (TldChecker.check_ns net d).
Proof. unfold TldChecker.check_ns. tld_trace. Qed.

Lemma check_mx_oblivious (net : Network) (d : string) :
  oblivious (TldChecker.check_mx net d).
Proof. unfold TldChecker.check_mx. tld_trace. Qed.

Lemma check_whois_oblivious (net : Network) (d : string) :
  oblivious (TldChecker.check_whois net d).
Proof. unfold TldChecker.check_whois. tld_trace. Qed.

Lemma assemble_notes_oblivious : oblivious TldChecker.assemble_notes.
Proof. unfold TldChecker.assemble_notes. tld_trace. Qed.

Lemma variant_body_oblivious (net : Network) (d : string) :
  oblivious (TldChecker.get_domain_variant_info_body net d).
Proof.
  unfold TldChecker.get_domain_variant_info_body.
  repeat first
    [ apply check_ip_oblivious | apply check_ns_oblivious
    | apply check_mx_oblivious | apply check_whois_oblivious
    | apply assemble_notes_oblivious | trace_step ].
Qed.







(** ** The TLD checker: the DNS steps, case by case *)

(** The A/AAAA step: both columns are written when both lookups answer
    and some address came back; in every other case the step leaves the
    dict and the flag as they were. *)
Lemma check_ip_cases (net : Network) (d : string) (l : TldChecker.locals)
  (t : list query) :
  TldChecker.ip_addresses_list l = [] ->
  let s := store (TldChecker.check_ip net d l t) in
  match dns_addr net d RdA, dns_addr net d RdAAAA with
  | inr la, inr l6 =>
      if nonnil (la ++ l6)%list then
        TldChecker.info s
        = dict_set "DNS Resolves (A/AAAA)" "Yes"
            (dict_set "IP Addresses" (join ", " (sorted_set (la ++ l6)%list))
               (TldChecker.info l))
        /\ TldChecker.dns_resolved_ip s = true
        /\ TldChecker.dns_errors s = TldChecker.dns_errors l
      else
        TldChecker.info s = TldChecker.info l
        /\ TldChecker.dns_resolved_ip s = TldChecker.dns_resolved_ip l
        /\ TldChecker.dns_errors s = TldChecker.dns_errors l
  | _, _ =>
      TldChecker.info s = TldChecker.info l
      /\ TldChecker.dns_resolved_ip s = TldChecker.dns_resolved_ip l
      /\ exists label, TldChecker.dns_errors s
                       = (TldChecker.dns_errors l ++ [label])%list
  end.
Proof.
  intros Hnil s. subst s. unfold TldChecker.check_ip.
  rewrite try_run.
  match goal with
  | |- context [res (?b l t)] => remember (b l t) as o eqn:Ho
  end.
  rewrite !for_each_cons_eq, for_each_nil_eq in Ho.
  repeat rewrite bind_assoc in Ho.
  destruct (dns_addr net d RdA) as [e|la].
  - rewrite bind_ask_err in Ho. subst o. tld_proj.
    destruct (dns_addr net d RdAAAA);
      (destruct (exn_cls e); tld_setters; simpl;
       repeat split; eexists; reflexivity).
  - rewrite bind_ask_ok in Ho.
    unfold TldChecker.append_ip at 1 in Ho.
    rewrite bind_for_each_modify, tld_fold_append_ip in Ho.
    repeat rewrite bind_assoc in Ho.
    destruct (dns_addr net d RdAAAA) as [e|l6].
    + rewrite bind_ask_err in Ho. subst o. tld_proj.
      destruct (exn_cls e); tld_setters; simpl;
        repeat split; eexists; reflexivity.
    + rewrite bind_ask_ok in Ho.
      unfold TldChecker.append_ip at 1 in Ho.
      rewrite bind_for_each_modify, tld_fold_append_ip in Ho.
      rewrite bind_ret, bind_get in Ho.
      tld_proj. rewrite Hnil in Ho. cbn [app] in Ho.
      destruct (nonnil (la ++ l6)%list) eqn:Hne.
      * revert Ho. tld_setters. intros Ho. repeat rewrite bind_modify in Ho.
        rewrite modify_run in Ho. subst o. tld_proj.
        repeat split.
      * rewrite ret_run in Ho. subst o. tld_proj. repeat split.
Qed.

(** The NS step. *)
Lemma tld_fold_append_ns (xs : list string) (l : TldChecker.locals) :
  fold_left
    (fun s x =>
       TldChecker.Locals (TldChecker.info s) (TldChecker.dns_errors s)
         (TldChecker.whois_errors s) (TldChecker.dns_resolved_ip s)
         (TldChecker.dns_resolved_ns s) (TldChecker.ip_addresses_list s)
         (TldChecker.name_servers_list s ++ [rstrip_char "." x])%list
         (TldChecker.mail_servers_list s))
    xs l
  = TldChecker.Locals (TldChecker.info l) (TldChecker.dns_errors l)
      (TldChecker.whois_errors l) (TldChecker.dns_resolved_ip l)
      (TldChecker.dns_resolved_ns l) (TldChecker.ip_addresses_list l)
      (TldChecker.name_servers_list l ++ map (rstrip_char ".") xs)%list
      (TldChecker.mail_servers_list l).
Proof.
  revert l. induction xs as [|x xs IH]; intros l; simpl.
  - rewrite app_nil_r. destruct l; reflexivity.
  - rewrite IH. simpl. rewrite <- app_assoc. reflexivity.
Qed.

Lemma check_ns_cases (net : Network) (d : string) (l : TldChecker.locals)
  (t : list query) :
  TldChecker.name_servers_list l = [] ->
  let s := store (TldChecker.check_ns net d l t) in
  TldChecker.dns_resolved_ip s = TldChecker.dns_resolved_ip l
  /\ match dns_ns net d with
     | inr targets =>
         TldChecker.dns_errors s = TldChecker.dns_errors l
         /\ if nonnil targets then
              TldChecker.info s
              = dict_set "Name Servers (NS)"
                  (join ", " (sorted_set (map (rstrip_char ".") targets)))
                  (TldChecker.info l)
              /\ TldChecker.dns_resolved_ns s = true
            else
              TldChecker.info s = TldChecker.info l
              /\ TldChecker.dns_resolved_ns s = TldChecker.dns_resolved_ns l
     | inl e =>
         TldChecker.info s = TldChecker.info l
         /\ TldChecker.dns_resolved_ns s = TldChecker.dns_resolved_ns l
         /\ ((exn_cls e = NXDOMAIN /\ TldChecker.dns_resolved_ip l = true
              /\ TldChecker.dns_errors s = TldChecker.dns_errors l)
             \/ exists label, TldChecker.dns_errors s
                              = (TldChecker.dns_errors l ++ [label])%list)
     end.
Proof.
  intros Hnil s. subst s. unfold TldChecker.check_ns.
  rewrite try_run.
  match goal with
  | |- context [res (?b l t)] => remember (b l t) as o eqn:Ho
  end.
  destruct (dns_ns net d) as [e|targets].
  - rewrite bind_ask_err in Ho. subst o. tld_proj.
    destruct (exn_cls e) eqn:Hc; tld_setters;
      try (simpl; repeat split; right; eexists; reflexivity).
    rewrite bind_get.
    destruct (TldChecker.dns_resolved_ip l) eqn:Hip; simpl.
    + repeat split; try assumption. left. repeat split.
    + repeat split; try assumption. right. eexists; reflexivity.
  - rewrite bind_ask_ok in Ho.
    unfold TldChecker.append_ns at 1 in Ho.
    rewrite (bind_for_each_modify
               (fun x s =>
                  TldChecker.Locals (TldChecker.info s) (TldChecker.dns_errors s)
                    (TldChecker.whois_errors s) (TldChecker.dns_resolved_ip s)
                    (TldChecker.dns_resolved_ns s)
                    (TldChecker.ip_addresses_list s)
                    (TldChecker.name_servers_list s ++ [rstrip_char "." x])%list
                    (TldChecker.mail_servers_list s))),
      tld_fold_append_ns in Ho.
    rewrite bind_get in Ho.
    tld_proj. rewrite Hnil in Ho. cbn [app] in Ho.
    destruct targets as [|x xs].
    + simpl in Ho. rewrite ret_run in Ho. subst o. tld_proj. repeat split.
    + change (nonnil (map (rstrip_char ".") (x :: xs))) with true in Ho.
      cbv iota in Ho.
      revert Ho. tld_setters. intros Ho. repeat rewrite bind_modify in Ho.
      rewrite modify_run in Ho. subst o. tld_proj.
      repeat split.
Qed.

(** ** The TLD checker: the row of a variant *)

Lemma variant_info_store (net : Network) (d : string) (t : list query) :
  TldChecker.variant_info net d
  = TldChecker.info
      (store (TldChecker.get_domain_variant_info_body net d
                (TldChecker.init_locals d) t)).
Proof.
  unfold TldChecker.variant_info. rewrite variant_info_call. cbn [res].
  f_equal. apply (variant_body_oblivious net d).
Qed.

Lemma check_ip_keeps_ns (net : Network) (d : string) (ns : list string)
  (b : bool) :
  inv (fun l => TldChecker.name_servers_list l = ns
                /\ TldChecker.dns_resolved_ns l = b)
      (TldChecker.check_ip net d).
Proof. unfold TldChecker.check_ip. tld_same. Qed.

(** The column of one step, read in the finished dict. *)
Lemma variant_column_after_ip (net : Network) (d col : string)
  (t : list query) :
  String.eqb col "Name Servers (NS)" = false ->
  String.eqb col "Mail Servers (MX)" = false ->
  existsb (String.eqb col)
    [ "WHOIS Creation Date"; "WHOIS Updated Date"; "WHOIS Expiration Date";
      "WHOIS Registrar"; "WHOIS Domain Status"; "WHOIS Registrant Org" ]
  = false ->
  String.eqb col "WHOIS Notes/Errors" = false ->
  dict_get col (TldChecker.variant_info net d)
  = dict_get col
      (TldChecker.info
         (store (TldChecker.check_ip net d (TldChecker.init_locals d) t))).
Proof.
  intros Hns Hmx Hw Hn. rewrite (variant_info_store net d t).
  destruct (variant_info_steps net d (TldChecker.init_locals d) t) as [Hs _].
  rewrite Hs. clear Hs.
  apply (assemble_notes_frame col _ Hn).
  apply (check_whois_frame net d col _ Hw).
  apply (check_mx_frame net d col _ Hmx).
  apply (check_ns_frame net d col _ Hns).
  reflexivity.
Qed.

Lemma variant_column_after_ns (net : Network) (d col : string)
  (t : list query) :
  String.eqb col "Mail Servers (MX)" = false ->
  existsb (String.eqb col)
    [ "WHOIS Creation Date"; "WHOIS Updated Date"; "WHOIS Expiration Date";
      "WHOIS Registrar"; "WHOIS Domain Status"; "WHOIS Registrant Org" ]
  = false ->
  String.eqb col "WHOIS Notes/Errors" = false ->
  let o1 := TldChecker.check_ip net d (TldChecker.init_locals d) t in
  dict_get col (TldChecker.variant_info net d)
  = dict_get col
      (TldChecker.info
         (store (TldChecker.check_ns net d (store o1) (queries o1)))).
Proof.
  intros Hmx Hw Hn o1. rewrite (variant_info_store net d t).
  destruct (variant_info_steps net d (TldChecker.init_locals d) t) as [Hs _].
  rewrite Hs. clear Hs.
  apply (assemble_notes_frame col _ Hn).
  apply (check_whois_frame net d col _ Hw).
  apply (check_mx_frame net d col _ Hmx).
  reflexivity.
Qed.


(** X2.  The two address columns of a variant.  When the A lookup and
    the AAAA lookup both answer and at least one address came back,
    ["DNS Resolves (A/AAAA)"] is ["Yes"] and ["IP Addresses"] lists the
    distinct addresses in ascending order.  In every other case, and so
    whenever one of the two lookups raises even though the other
    returned addresses, the columns stay ["No"] and ["N/A"]. *)
Theorem variant_ip_columns :
  forall (net : Network) (d : string),
    dict_get "DNS Resolves (A/AAAA)" (TldChecker.variant_info net d)
    = Some (match dns_addr net d RdA, dns_addr net d RdAAAA with
            | inr la, inr l6 => if nonnil (la ++ l6)%list then "Yes" else "No"
            | _, _ => "No"
            end)
    /\ dict_get "IP Addresses" (TldChecker.variant_info net d)
       = Some (match dns_addr net d RdA, dns_addr net d RdAAAA with
               | inr la, inr l6 =>
                   if nonnil (la ++ l6)%list
                   then join ", " (sorted_set (la ++ l6)%list)
                   else "N/A"
               | _, _ => "N/A"
               end).
Proof.
  intros net d.
  rewrite (variant_column_after_ip net d "DNS Resolves (A/AAAA)" [])
    by reflexivity.
  rewrite (variant_column_after_ip net d "IP Addresses" []) by reflexivity.
  pose proof (check_ip_cases net d (TldChecker.init_locals d) [] eq_refl)
    as H. cbv zeta in H.
  destruct (dns_addr net d RdA) as [e|la];
    [|destruct (dns_addr net d RdAAAA) as [e|l6];
      [|destruct (nonnil (la ++ l6)%list)]];
    destruct H as [Hi _]; rewrite Hi; split; reflexivity.
Qed.

Lemma variant_ns_value (net : Network) (d : string) :
  dict_get "Name Servers (NS)" (TldChecker.variant_info net d)
  = Some (match dns_ns net d with
          | inr (x :: xs) =>
              join ", " (sorted_set (map (rstrip_char ".") (x :: xs)))
          | _ => "N/A"
          end).
Proof.
  rewrite (variant_column_after_ns net d "Name Servers (NS)" [])
    by reflexivity.
  cbv zeta.
  set (o1 := TldChecker.check_ip net d (TldChecker.init_locals d) []).
  assert (Hnil : TldChecker.name_servers_list (store o1) = [])
    by (apply (check_ip_keeps_ns net d [] false); split; reflexivity).
  assert (H0 : dict_get "Name Servers (NS)" (TldChecker.info (store o1))
               = Some "N/A")
    by (apply (check_ip_frame net d "Name Servers (NS)" _ eq_refl eq_refl);
        reflexivity).
  pose proof (check_ns_cases net d (store o1) (queries o1) Hnil) as H.
  cbv zeta in H. destruct H as [_ H].
  destruct (dns_ns net d) as [e|[|x xs]].
  - destruct H as [Hi _]. rewrite Hi. exact H0.
  - destruct H as [_ [Hi _]]. rewrite Hi. exact H0.
  - destruct H as [_ [Hi _]]. rewrite Hi. apply dict_get_set_same.
Qed.

Lemma variant_ip_value (net : Network) (d : string) :
  dict_get "IP Addresses" (TldChecker.variant_info net d)
  = Some (match dns_addr net d RdA, dns_addr net d RdAAAA with
          | inr la, inr l6 =>
              if nonnil (la ++ l6)%list
              then join ", " (sorted_set (la ++ l6)%list)
              else "N/A"
          | _, _ => "N/A"
          end).
Proof.
  rewrite (variant_column_after_ip net d "IP Addresses" []) by reflexivity.
  pose proof (check_ip_cases net d (TldChecker.init_locals d) [] eq_refl)
    as H. cbv zeta in H.
  destruct (dns_addr net d RdA) as [e|la];
    [|destruct (dns_addr net d RdAAAA) as [e|l6];
      [|destruct (nonnil (la ++ l6)%list)]];
    destruct H as [Hi _]; rewrite Hi; reflexivity.
Qed.

(** X3.  The name-server column of a variant: the distinct targets of
    the NS answer, each without its trailing dots, in ascending order
    and comma-separated; ["N/A"] when the lookup raises or answers
    nothing. *)
Theorem variant_ns_column :
  forall (net : Network) (d : string),
    dict_get "Name Servers (NS)" (TldChecker.variant_info net d)
    = Some (match dns_ns net d with
            | inr (x :: xs) =>
                join ", " (sorted_set (map (rstrip_char ".") (x :: xs)))
            | _ => "N/A"
            end)
    /\ Sorted (fun u v => String.leb u v = true)
         (match dns_ns net d with
          | inr targets => sorted_set (map (rstrip_char ".") targets)
          | inl _ => []
          end)
    /\ NoDup (match dns_ns net d with
              | inr targets => sorted_set (map (rstrip_char ".") targets)
              | inl _ => []
              end).
Proof.
  intros net d. split; [|split].
  - apply variant_ns_value.
  - destruct (dns_ns net d); [constructor | apply sorted_set_Sorted].
  - destruct (dns_ns net d); [constructor | apply sorted_set_NoDup].
Qed.

(** ** Substrings of the notes *)

Lemma prefix_app (x post : string) : String.prefix x (x ++ post) = true.
Proof.
  induction x as [|c x IH]; simpl.
  - destruct post; reflexivity.
  - destruct (ascii_dec c c) as [_|N]; [exact IH | congruence].
Qed.

Lemma contains_prefix (x s : string) :
  String.prefix x s = true -> contains x s = true.
Proof. intros H. destruct s; cbn [contains]; rewrite H; reflexivity. Qed.

Lemma contains_here (x post : string) : contains x (x ++ post) = true.
Proof. apply contains_prefix, prefix_app. Qed.

Lemma contains_app_r (x pre s : string) :
  contains x s = true -> contains x (pre ++ s) = true.
Proof.
  intros H. induction pre as [|c pre IH]; simpl; [exact H|].
  rewrite IH. apply orb_true_r.
Qed.

Lemma prefix_app_l (x s post : string) :
  String.prefix x s = true -> String.prefix x (s ++ post) = true.
Proof.
  revert s. induction x as [|c x IH]; intros s H.
  - destruct (s ++ post); reflexivity.
  - destruct s as [|b s]; [discriminate|]. simpl in *.
    destruct (ascii_dec c b); [apply IH; exact H | discriminate].
Qed.

Lemma contains_app_l (x s post : string) :
  contains x s = true -> contains x (s ++ post) = true.
Proof.
  induction s as [|c s IH]; intros H.
  - simpl in H. rewrite orb_false_r in H.
    destruct x; [|discriminate]. simpl. destruct post; reflexivity.
  - simpl in H. apply orb_true_iff in H. destruct H as [H|H].
    + change (String c s ++ post) with (String c (s ++ post)).
      apply contains_prefix.
      apply (prefix_app_l x (String c s) post H).
    + change (String c s ++ post) with (String c (s ++ post)).
      cbn [contains]. rewrite (IH H). apply orb_true_r.
Qed.

Lemma join_cons (sep x : string) (l : list string) :
  join sep (x :: l)
  = x ++ match l with [] => "" | _ => sep ++ join sep l end.
Proof.
  unfold join. destruct l; simpl; [|reflexivity].
  clear. induction x; simpl; congruence.
Qed.

(** An item of a joined list is a substring of the result. *)
Lemma join_contains (sep x : string) (l : list string) :
  In x l -> contains x (join sep l) = true.
Proof.
  induction l as [|y l IH]; intros H; [destruct H|].
  rewrite join_cons. destruct H as [->|H].
  - apply contains_here.
  - apply contains_app_r. destruct l as [|z l]; [destruct H|].
    apply contains_app_r. apply IH. exact H.
Qed.

(** The notes column quotes every DNS error and every WHOIS note. *)
Lemma assemble_notes_mentions (label : string) (l : TldChecker.locals)
  (t : list query) :
  In label (TldChecker.dns_errors l) \/ In label (TldChecker.whois_errors l) ->
  exists notes,
    dict_get "WHOIS Notes/Errors"
      (TldChecker.info (store (TldChecker.assemble_notes l t))) = Some notes
    /\ contains label notes = true.
Proof.
  intros H. unfold TldChecker.assemble_notes.
  rewrite bind_get. unfold TldChecker.set_info. rewrite modify_run.
  tld_proj. eexists. split; [apply dict_get_set_same|].
  destruct H as [H|H].
  - destruct (TldChecker.dns_errors l) as [|e es] eqn:E; [destruct H|].
    change (nonnil (e :: es)) with true. cbv iota.
    rewrite <- E in *. clear E.
    match goal with
    | |- contains _ (if nonnil (?a ++ ?b)%list then _ else _) = true =>
        change (a ++ b)%list with (hd "" a :: b)
    end.
    cbv iota. change (nonnil (_ :: _)) with true. cbv iota.
    rewrite join_cons. cbn [hd]. apply contains_app_l.
    apply contains_app_r. apply join_contains.
    apply sorted_set_In. exact H.
  - destruct (TldChecker.whois_errors l) as [|e es] eqn:E; [destruct H|].
    change (nonnil (e :: es)) with true. cbv iota.
    rewrite <- E in *. clear E.
    assert (Hw : contains label
                   ("WHOIS: "
                    ++ join "; " (sorted_set (TldChecker.whois_errors l)))
                 = true).
    { apply contains_app_r. apply join_contains.
      apply sorted_set_In. exact H. }
    destruct (nonnil (TldChecker.dns_errors l)).
    + match goal with
      | |- contains _ (if nonnil ([?a] ++ [?b])%list then _ else _) = true =>
          change ([a] ++ [b])%list with [a; b]
      end.
      change (nonnil [_; _]) with true. cbv iota.
      rewrite join_cons. apply contains_app_r.
      apply contains_app_r. exact Hw.
    + exact Hw.
Qed.

(** The notes are ["OK"] only when both lists of errors are empty. *)
Lemma assemble_notes_ok (l : TldChecker.locals) (t : list query) :
  dict_get "WHOIS Notes/Errors"
    (TldChecker.info (store (TldChecker.assemble_notes l t))) = Some "OK" ->
  TldChecker.dns_errors l = [] /\ TldChecker.whois_errors l = [].
Proof.
  unfold TldChecker.assemble_notes.
  rewrite bind_get. unfold TldChecker.set_info. rewrite modify_run.
  tld_proj. rewrite dict_get_set_same.
  destruct (TldChecker.dns_errors l) as [|e es];
    destruct (TldChecker.whois_errors l) as [|w ws];
    cbn [nonnil app]; cbv iota; intros H.
  - split; reflexivity.
  - injection H as H. discriminate H.
  - injection H as H. discriminate H.
  - injection H as H. unfold join in H. simpl in H. discriminate H.
Qed.

(** ** The TLD checker: mail servers without an exchange name *)

Lemma mx_sort_key_cases (rdata : Z * string) :
  TldChecker.mx_sort_key (TldChecker.mx_entry rdata)
  = match split (rstrip_char "." (snd rdata)) with
    | [] => inl (Exn IndexError "list index out of range")
    | name :: _ => inr (fst rdata, name)
    end.
Proof.
  unfold TldChecker.mx_sort_key, TldChecker.mx_entry.
  change (str_of_int (fst rdata) ++ " " ++ rstrip_char "." (snd rdata))
    with (str_of_int (fst rdata)
          ++ String " "%char (rstrip_char "." (snd rdata))).
  rewrite (split_token (str_of_int (fst rdata)) " "%char _
             (str_of_int_nonempty _) (str_of_int_no_space _) eq_refl).
  cbn [nth_error]. rewrite int_of_str_of_int.
  destruct (split (rstrip_char "." (snd rdata))); reflexivity.
Qed.

Lemma decorate_null (answers : list (Z * string)) (rdata : Z * string) :
  In rdata answers ->
  rstrip_char "." (snd rdata) = "" ->
  decorate TldChecker.mx_sort_key (map TldChecker.mx_entry answers)
  = inl (Exn IndexError "list index out of range").
Proof.
  intros Hin Hnull. induction answers as [|a answers IH]; [destruct Hin|].
  cbn [map decorate]. rewrite mx_sort_key_cases.
  destruct Hin as [->|Hin].
  - rewrite Hnull. reflexivity.
  - destruct (split (rstrip_char "." (snd a))); [reflexivity|].
    rewrite (IH Hin). reflexivity.
Qed.

Lemma check_mx_null (net : Network) (d : string)
  (answers : list (Z * string)) (rdata : Z * string)
  (l : TldChecker.locals) (t : list query) :
  dns_mx net d = inr answers ->
  In rdata answers ->
  rstrip_char "." (snd rdata) = "" ->
  TldChecker.mail_servers_list l = [] ->
  TldChecker.info (store (TldChecker.check_mx net d l t)) = TldChecker.info l
  /\ TldChecker.dns_errors (store (TldChecker.check_mx net d l t))
     = (TldChecker.dns_errors l ++ ["DNS MX Error: IndexError"])%list.
Proof.
  intros HM Hin Hnull Hnil. unfold TldChecker.check_mx.
  rewrite try_run.
  match goal with
  | |- context [res (?b l t)] => remember (b l t) as o eqn:Ho
  end.
  rewrite HM, bind_ask_ok in Ho.
  unfold TldChecker.append_mx at 1 in Ho.
  rewrite bind_for_each_modify, tld_fold_append_mx in Ho.
  rewrite bind_get in Ho. tld_proj. rewrite Hnil in Ho. cbn [app] in Ho.
  assert (Hnn : nonnil (map TldChecker.mx_entry answers) = true)
    by (destruct answers; [destruct Hin|reflexivity]).
  rewrite Hnn in Ho. unfold sort_with_key in Ho.
  rewrite (decorate_null answers rdata Hin Hnull), bind_lift_err in Ho.
  subst o. tld_proj. split; reflexivity.
Qed.

Lemma check_whois_keeps_dns_errors (net : Network) (d : string)
  (es : list string) :
  inv (fun l => TldChecker.dns_errors l = es) (TldChecker.check_whois net d).
Proof. unfold TldChecker.check_whois. tld_same. Qed.

Lemma dns_steps_keep_whois_errors (net : Network) (d : string) :
  inv (fun l => TldChecker.whois_errors l = [])
      (bind (TldChecker.check_ip net d)
         (fun _ => bind (TldChecker.check_ns net d)
            (fun _ => TldChecker.check_mx net d))).
Proof. tld_blocks. tld_same. Qed.

Lemma check_mx_keeps_flags (net : Network) (d : string) (a b : bool) :
  inv (fun l => TldChecker.dns_resolved_ip l = a
                /\ TldChecker.dns_resolved_ns l = b)
      (TldChecker.check_mx net d).
Proof. unfold TldChecker.check_mx. tld_same. Qed.

(** X4.  A mail-server answer that holds a record whose exchange name is
    empty once its trailing dots are removed, such as the null MX record
    [0 .], costs the variant its whole mail-server column: the sort key
    finds no second token, the column stays ["N/A"] also for the other
    records of the answer, and the notes quote
    ["DNS MX Error: IndexError"]. *)
Theorem variant_mx_without_exchange :
  forall (net : Network) (d : string) (answers : list (Z * string))
         (rdata : Z * string),
    dns_mx net d = inr answers ->
    In rdata answers ->
    rstrip_char "." (snd rdata) = "" ->
    dict_get "Mail Servers (MX)" (TldChecker.variant_info net d) = Some "N/A"
    /\ exists notes,
         dict_get "WHOIS Notes/Errors" (TldChecker.variant_info net d)
         = Some notes
         /\ contains "DNS MX Error: IndexError" notes = true.
Proof.
  intros net d answers rdata HM Hin Hnull.
  rewrite (variant_info_store net d []).
  destruct (variant_info_steps net d (TldChecker.init_locals d) [])
    as [Hs _].
  rewrite Hs. clear Hs.
  set (o1 := TldChecker.check_ip net d (TldChecker.init_locals d) []).
  set (o2 := TldChecker.check_ns net d (store o1) (queries o1)).
  set (o3 := TldChecker.check_mx net d (store o2) (queries o2)).
  assert (Hnil : TldChecker.mail_servers_list (store o2) = [])
    by (apply check_ns_keeps_mx_list, check_ip_keeps_mx_list; reflexivity).
  destruct (check_mx_null net d answers rdata (store o2) (queries o2)
              HM Hin Hnull Hnil) as [Hi He].
  fold o3 in Hi, He.
  split.
  - apply (assemble_notes_frame "Mail Servers (MX)" _ eq_refl).
    apply (check_whois_frame net d "Mail Servers (MX)" _ eq_refl).
    rewrite Hi.
    apply (check_ns_frame net d "Mail Servers (MX)" _ eq_refl).
    apply (check_ip_frame net d "Mail Servers (MX)" _ eq_refl eq_refl).
    reflexivity.
  - apply assemble_notes_mentions. left.
    rewrite (check_whois_keeps_dns_errors net d _ (store o3) (queries o3)
               eq_refl).
    rewrite He. apply in_or_app. right. left. reflexivity.
Qed.

Lemma variant_mx_without_exchange_witness :
  dict_get "Mail Servers (MX)"
    (TldChecker.variant_info Samples.net_null_mx "example.com") = Some "N/A".
Proof.
  exact (proj1 (variant_mx_without_exchange Samples.net_null_mx "example.com"
                  [(0%Z, ".")] (0%Z, ".") eq_refl (or_introl eq_refl)
                  eq_refl)).
Defined.

(** ** The TLD checker: rows whose notes are ["OK"] *)

Ltac tld_grew H :=
  exfalso; revert H; tld_setters;
  repeat first [ rewrite bind_modify | rewrite modify_run ];
  tld_proj; intros H; symmetry in H; apply app_cons_not_nil in H; exact H.

(** The WHOIS step adds no note only when the lookup returned a record
    with data for a name that resolves. *)
Lemma check_whois_quiet (net : Network) (d : string) (l : TldChecker.locals)
  (t : list query) :
  TldChecker.whois_wanted l = true ->
  TldChecker.whois_errors (store (TldChecker.check_whois net d l t)) = [] ->
  exists w,
    whois_reply net d = inr (Some w)
    /\ TldChecker.whois_has_data (Some w) = inr true
    /\ TldChecker.dns_resolved_ip l || TldChecker.dns_resolved_ns l = true.
Proof.
  intros Hw. unfold TldChecker.check_whois.
  rewrite bind_get, Hw, try_run.
  match goal with
  | |- context [res (?b l t)] => remember (b l t) as o eqn:Ho
  end.
  destruct (whois_reply net d) as [e|[w|]].
  - rewrite bind_ask_err in Ho. subst o. tld_proj. intros H.
    destruct (exn_cls e);
      try match goal with
          | H : context [if ?c then _ else _] |- _ => destruct c
          end;
      tld_grew H.
  - rewrite bind_ask_ok in Ho.
    destruct (TldChecker.whois_has_data (Some w)) as [e|[|]] eqn:Hd.
    + rewrite bind_lift_err in Ho. subst o. tld_proj. intros H.
      destruct (exn_cls e);
        try match goal with
            | H : context [if ?c then _ else _] |- _ => destruct c
            end;
        tld_grew H.
    + rewrite bind_lift_ok, bind_get in Ho. cbv iota in Ho.
      revert Ho. tld_setters. intros Ho.
      repeat rewrite bind_modify in Ho. tld_proj.
      destruct (TldChecker.dns_resolved_ip l || TldChecker.dns_resolved_ns l)
        eqn:Hact.
      * intros _. exists w. repeat split. exact Hd.
      * cbn [negb] in Ho. rewrite andb_true_r in Ho.
        match type of Ho with
        | o = (if ?c then _ else _) _ _ => destruct c
        end; rewrite modify_run in Ho; subst o; tld_proj; intros H;
          symmetry in H; apply app_cons_not_nil in H; destruct H.
    + rewrite bind_lift_ok, bind_get in Ho. cbv iota in Ho.
      subst o. intros H.
      match goal with
      | H : context [if ?c then _ else _] |- _ => destruct c
      end; tld_grew H.
  - rewrite bind_ask_ok in Ho. cbn [TldChecker.whois_has_data] in Ho.
    rewrite bind_lift_ok, bind_get in Ho. subst o. intros H.
    match goal with
    | H : context [if ?c then _ else _] |- _ => destruct c
    end; tld_grew H.
Qed.

(** X5.  A variant's notes read ["OK"] only when nothing went wrong:
    the A lookup and the AAAA lookup both answered, the WHOIS lookup
    returned a record that carries data, and the name resolves, by an
    address or by a name server. *)
Theorem variant_notes_ok :
  forall (net : Network) (d : string),
    dict_get "WHOIS Notes/Errors" (TldChecker.variant_info net d)
    = Some "OK" ->
    (exists w,
        whois_reply net d = inr (Some w)
        /\ TldChecker.whois_has_data (Some w) = inr true)
    /\ (exists la l6,
           dns_addr net d RdA = inr la /\ dns_addr net d RdAAAA = inr l6
           /\ ((la ++ l6)%list <> []
               \/ exists targets,
                    dns_ns net d = inr targets /\ targets <> [])).
Proof.
  intros net d. rewrite (variant_info_store net d []).
  destruct (variant_info_steps net d (TldChecker.init_locals d) [])
    as [Hs _].
  rewrite Hs. clear Hs.
  set (o1 := TldChecker.check_ip net d (TldChecker.init_locals d) []).
  set (o2 := TldChecker.check_ns net d (store o1) (queries o1)).
  set (o3 := TldChecker.check_mx net d (store o2) (queries o2)).
  intros Hok. apply assemble_notes_ok in Hok. destruct Hok as [Hde Hwe].
  rewrite (check_whois_keeps_dns_errors net d _ (store o3) (queries o3)
             eq_refl) in Hde.
  pose proof (whois_always_wanted net d []) as Hw. cbv zeta in Hw.
  fold o1 o2 o3 in Hw.
  destruct (check_whois_quiet net d (store o3) (queries o3) Hw Hwe)
    as [w [Hr [Hd Hact]]].
  split; [exists w; split; assumption|].
  (* the flags after the MX step are those the first two steps left *)
  destruct (check_mx_keeps_flags net d _ _ (store o2) (queries o2)
              (conj eq_refl eq_refl)) as [Hf1 Hf2].
  fold o3 in Hf1, Hf2. rewrite Hf1, Hf2 in Hact. clear Hf1 Hf2.
  (* no DNS error was recorded *)
  assert (Hgrow : exists extra,
             TldChecker.dns_errors (store o3)
             = (TldChecker.dns_errors (store o2) ++ extra)%list).
  { assert (Hinv : inv (fun l0 => exists extra,
                          TldChecker.dns_errors l0
                          = (TldChecker.dns_errors (store o2) ++ extra)%list)
                     (TldChecker.check_mx net d)).
    { unfold TldChecker.check_mx.
      repeat first
        [ block_step
        | progress cbv beta
        | progress tld_setters
        | apply inv_modify; intros ? ?; cbn [TldChecker.dns_errors];
          first [ assumption
                | match goal with
                  | H : exists _, _ |- _ =>
                      destruct H as [extra ->]; eexists;
                      rewrite <- app_assoc; reflexivity
                  end ] ]. }
    apply Hinv. exists []. symmetry. apply app_nil_r. }
  destruct Hgrow as [extra Hgrow]. rewrite Hgrow in Hde.
  apply app_eq_nil in Hde. destruct Hde as [Hde2 _].
  assert (Hns0 : TldChecker.name_servers_list (store o1) = []
                 /\ TldChecker.dns_resolved_ns (store o1) = false)
    by (apply (check_ip_keeps_ns net d [] false); split; reflexivity).
  destruct Hns0 as [Hnil Hnsf].
  pose proof (check_ns_cases net d (store o1) (queries o1) Hnil) as Hns.
  cbv zeta in Hns. fold o2 in Hns. destruct Hns as [Hip2 Hns].
  pose proof (check_ip_cases net d (TldChecker.init_locals d) [] eq_refl)
    as Hip. cbv zeta in Hip. fold o1 in Hip.
  rewrite Hip2 in Hact.
  assert (Hde1 : TldChecker.dns_errors (store o1) = []).
  { destruct (dns_ns net d) as [e|targets].
    - destruct Hns as [_ [_ [[_ [_ He]]|[label He]]]].
      + rewrite <- He. exact Hde2.
      + rewrite He in Hde2. apply app_eq_nil in Hde2.
        destruct Hde2 as [_ Hde2]. discriminate Hde2.
    - destruct Hns as [He _]. rewrite <- He. exact Hde2. }
  destruct (dns_addr net d RdA) as [e|la].
  { destruct Hip as [_ [_ [label He]]]. rewrite He in Hde1.
    destruct (TldChecker.dns_errors (TldChecker.init_locals d));
      discriminate Hde1. }
  destruct (dns_addr net d RdAAAA) as [e|l6].
  { destruct Hip as [_ [_ [label He]]]. rewrite He in Hde1.
    destruct (TldChecker.dns_errors (TldChecker.init_locals d));
      discriminate Hde1. }
  exists la, l6. split; [reflexivity|]. split; [reflexivity|].
  destruct (nonnil (la ++ l6)%list) eqn:Hnn.
  - left. intros E. rewrite E in Hnn. discriminate Hnn.
  - right. destruct Hip as [_ [Hipf _]]. rewrite Hipf in Hact.
    cbn [TldChecker.init_locals TldChecker.dns_resolved_ip orb] in Hact.
    destruct (dns_ns net d) as [e|targets].
    + destruct Hns as [_ [Hf _]]. rewrite Hf, Hnsf in Hact.
      discriminate Hact.
    + exists targets. split; [reflexivity|].
      destruct targets as [|x xs]; [|discriminate].
      destruct Hns as [_ [_ Hf]]. rewrite Hf, Hnsf in Hact.
      discriminate Hact.
Qed.

Lemma variant_notes_ok_witness :
  dict_get "WHOIS Notes/Errors"
    (TldChecker.variant_info Samples.net_live "example.com") = Some "OK"
  /\ exists w,
       whois_reply Samples.net_live "example.com" = inr (Some w)
       /\ TldChecker.whois_has_data (Some w) = inr true.
Proof.
  split; [reflexivity|].
  exact (proj1 (variant_notes_ok Samples.net_live "example.com" eq_refl)).
Defined.

(** ** The TLD checker: the output file *)

Section AppendingLoops.
Context {L R A : Type}.
Variable ext : L -> list R -> L.
Hypothesis ext_nil : forall l, ext l [] = l.
Hypothesis ext_app : forall l r1 r2, ext (ext l r1) r2 = ext l (r1 ++ r2)%list.


End AppendingLoops.












(** ** Trimming and lower-casing *)

Lemma lower_char_idem (c : ascii) : lower_char (lower_char c) = lower_char c.
Proof. destruct c as [[] [] [] [] [] [] [] []]; reflexivity. Qed.

Lemma isspace_lower_char (c : ascii) : isspace (lower_char c) = isspace c.
Proof. destruct c as [[] [] [] [] [] [] [] []]; reflexivity. Qed.

Lemma lower_idem (s : string) : lower (lower s) = lower s.
Proof.
  unfold lower. induction s as [|c s IH]; [reflexivity|].
  cbn [map_chars]. rewrite lower_char_idem, IH. reflexivity.
Qed.

Lemma lower_cons (c : ascii) (s : string) :
  lower (String c s) = String (lower_char c) (lower s).
Proof. reflexivity. Qed.

Lemma lower_lstrip (s : string) : lower (lstrip s) = lstrip (lower s).
Proof.
  induction s as [|c s IH]; [reflexivity|].
  rewrite lower_cons. cbn [lstrip]. rewrite isspace_lower_char.
  destruct (isspace c); [exact IH | reflexivity].
Qed.

Lemma lower_rstrip (s : string) : lower (rstrip s) = rstrip (lower s).
Proof.
  unfold rstrip. induction s as [|c s IH]; [reflexivity|].
  rewrite lower_cons. cbn [rstrip_with]. rewrite <- IH.
  rewrite isspace_lower_char.
  destruct (rstrip_with isspace s) as [|b r].
  - cbn [lower map_chars]. destruct (isspace c); reflexivity.
  - reflexivity.
Qed.

Lemma lower_strip (s : string) : lower (strip s) = strip (lower s).
Proof. unfold strip. rewrite lower_rstrip, lower_lstrip. reflexivity. Qed.

Lemma rstrip_with_cons (p : ascii -> bool) (c : ascii) (s : string) :
  rstrip_with p (String c s)
  = match rstrip_with p s with
    | EmptyString => if p c then EmptyString else String c EmptyString
    | r => String c r
    end.
Proof. reflexivity. Qed.

Lemma rstrip_with_idem (p : ascii -> bool) (s : string) :
  rstrip_with p (rstrip_with p s) = rstrip_with p s.
Proof.
  induction s as [|c s IH]; [reflexivity|].
  rewrite rstrip_with_cons.
  destruct (rstrip_with p s) as [|b r] eqn:E.
  - destruct (p c) eqn:Hc; [reflexivity|].
    rewrite rstrip_with_cons. cbn [rstrip_with]. rewrite Hc. reflexivity.
  - rewrite rstrip_with_cons, IH. reflexivity.
Qed.

Lemma lstrip_idem (s : string) : lstrip (lstrip s) = lstrip s.
Proof.
  induction s as [|c s IH]; [reflexivity|].
  cbn [lstrip]. destruct (isspace c) eqn:Hc; [exact IH|].
  cbn [lstrip]. rewrite Hc. reflexivity.
Qed.

(** Trimming the right end of a string that has no blank at its left
    end leaves none there. *)
Lemma lstrip_rstrip_lstrip (s : string) :
  lstrip (rstrip (lstrip s)) = rstrip (lstrip s).
Proof.
  induction s as [|c s IH]; [reflexivity|].
  cbn [lstrip]. destruct (isspace c) eqn:Hc; [exact IH|].
  unfold rstrip. cbn [rstrip_with].
  destruct (rstrip_with isspace s); rewrite ?Hc; cbn [lstrip];
    rewrite Hc; reflexivity.
Qed.

Lemma strip_idem (s : string) : strip (strip s) = strip s.
Proof.
  unfold strip. rewrite lstrip_rstrip_lstrip.
  unfold rstrip. apply rstrip_with_idem.
Qed.

(** What both programs make of an input name does not change when the
    name is trimmed or lower-cased again. *)
Lemma normalise_strip (s : string) :
  strip (lower (strip s)) = strip (lower s).
Proof. rewrite lower_strip. apply strip_idem. Qed.

Lemma normalise_idem (s : string) :
  lower (strip (lower (strip s))) = lower (strip s).
Proof. rewrite !lower_strip, strip_idem, lower_idem. reflexivity. Qed.

(** X7.  The base name of an input does not depend on the case of its
    letters nor on blanks around it, and the public-suffix extractor is
    always handed a trimmed, lower-case name. *)
Theorem extract_meaningful_base_normalises :
  forall (extract : string -> TldChecker.ExtractResult) (fqdn : string),
    TldChecker.extract_meaningful_base extract (strip fqdn)
    = TldChecker.extract_meaningful_base extract fqdn
    /\ TldChecker.extract_meaningful_base extract (lower fqdn)
       = TldChecker.extract_meaningful_base extract fqdn
    /\ TldChecker.extract_meaningful_base extract (strip (lower fqdn))
       = TldChecker.extract_meaningful_base extract fqdn
    /\ strip (strip (lower fqdn)) = strip (lower fqdn)
    /\ lower (strip (lower fqdn)) = strip (lower fqdn).
Proof.
  intros extract fqdn. unfold TldChecker.extract_meaningful_base.
  repeat split.
  - rewrite <- (lower_strip fqdn), <- lower_strip, strip_idem. reflexivity.
  - rewrite lower_idem. reflexivity.
  - rewrite <- !lower_strip, strip_idem, lower_idem. reflexivity.
  - apply strip_idem.
  - rewrite <- lower_strip. apply lower_idem.
Qed.

(** ** The catalog of suffixes *)

Lemma dotted_startswith (tld : string) :
  startswith "." (if startswith "." tld then tld else "." ++ tld) = true.
Proof.
  destruct (startswith "." tld) eqn:E; [exact E|].
  unfold startswith. simpl. destruct tld; reflexivity.
Qed.

Lemma dotted_fixed (xs : list string) :
  Forall (fun tld => startswith "." tld = true) xs ->
  map (fun tld => if startswith "." tld then tld else "." ++ tld) xs = xs.
Proof.
  induction 1 as [|x xs Hx Hxs IH]; [reflexivity|].
  cbn [map]. rewrite IH, Hx. reflexivity.
Qed.

(** X8.  The catalog as line 20 leaves it, for any list of suffixes
    written in the source: every entry starts with a dot, the entries
    are in strictly ascending order, so none occurs twice, they are
    exactly the suffixes written, each with its dot, and normalising
    again changes nothing.  The catalog in use is the normalised list
    of the source. *)
Theorem tld_catalog_normalised :
  forall (raw : list string),
    let dotted := fun tld => if startswith "." tld then tld else "." ++ tld in
    Forall (fun tld => startswith "." tld = true)
      (TldChecker.normalize_tlds raw)
    /\ StronglySorted (fun u v => String.compare u v = Lt)
         (TldChecker.normalize_tlds raw)
    /\ NoDup (TldChecker.normalize_tlds raw)
    /\ (forall x, In x (TldChecker.normalize_tlds raw)
                  <-> exists tld, In tld raw /\ x = dotted tld)
    /\ TldChecker.normalize_tlds (TldChecker.normalize_tlds raw)
       = TldChecker.normalize_tlds raw
    /\ TldChecker.TLDS_TO_CHECK
       = TldChecker.normalize_tlds TldChecker.TLDS_RAW.
Proof.
  intros raw dotted.
  assert (Hin : forall x, In x (TldChecker.normalize_tlds raw)
                          <-> exists tld, In tld raw /\ x = dotted tld).
  { intros x. unfold TldChecker.normalize_tlds.
    rewrite sorted_set_In, in_map_iff. split.
    - intros [tld [E H]]. exists tld. split; [exact H | symmetry; exact E].
    - intros [tld [H E]]. exists tld. split; [symmetry; exact E | exact H]. }
  assert (Hdot : Forall (fun tld => startswith "." tld = true)
                   (TldChecker.normalize_tlds raw)).
  { apply Forall_forall. intros x Hx. apply Hin in Hx.
    destruct Hx as [tld [_ ->]]. apply dotted_startswith. }
  split; [exact Hdot|].
  split; [apply sorted_nodup_strongly;
          [apply sorted_set_Sorted | apply sorted_set_NoDup]|].
  split; [apply sorted_set_NoDup|].
  split; [exact Hin|].
  split; [|reflexivity].
  pose proof (dotted_fixed _ Hdot) as Hmap. fold dotted in Hmap.
  unfold TldChecker.normalize_tlds at 1. fold dotted. rewrite Hmap.
  apply sorted_nodup_unique.
  - apply sorted_set_Sorted.
  - apply sorted_set_Sorted.
  - apply sorted_set_NoDup.
  - apply sorted_set_NoDup.
  - intros x. apply sorted_set_In.
Qed.

(* ================================================================== *)
(** * The collector: what a domain costs and what its text holds *)
(* ================================================================== *)

Lemma whois_block_oblivious (net : Network) (d : string) :
  oblivious (Collector.whois_block net d).
Proof.
  unfold Collector.whois_block, Collector.whois_fields. collector_trace.
Qed.

Lemma ip_block_oblivious (net : Network) (d : string) :
  oblivious (Collector.ip_block net d).
Proof. unfold Collector.ip_block. collector_trace. Qed.

Lemma mx_block_oblivious (net : Network) (d : string) :
  oblivious (Collector.mx_block net d).
Proof. unfold Collector.mx_block. collector_trace. Qed.

Lemma domain_body_oblivious (net : Network) (d : string) :
  oblivious (Collector.get_domain_info_body net d).
Proof.
  unfold Collector.get_domain_info_body.
  repeat first
    [ apply whois_block_oblivious | apply ip_block_oblivious
    | apply mx_block_oblivious | trace_step ].
Qed.





Lemma domain_text_store (net : Network) (d : string) (t : list query) :
  Collector.domain_text net d
  = Collector.render
      (store (Collector.get_domain_info_body net d Collector.init_locals t)).
Proof.
  unfold Collector.domain_text, Collector.get_domain_info, call.
  cbn [res].
  destruct (domain_info_steps net d Collector.init_locals [])
    as [Hs [_ Hr]].
  rewrite Hr, <- Hs. f_equal. apply (domain_body_oblivious net d).
Qed.



(** ** The collector: the lines of the text *)

Lemma snoc_not_nil {A : Type} (l : list A) (x : A) : (l ++ [x])%list <> [].
Proof. intros H. apply app_eq_nil in H. destruct H as [_ H]. discriminate H. Qed.

Ltac keeps_nonempty :=
  repeat first
    [ block_step
    | progress cbv beta
    | progress collector_setters
    | progress collector_lines
    | apply inv_modify; intros ? ?; simpl;
      first [ assumption | apply snoc_not_nil ] ].

(** Whatever the WHOIS server does, the WHOIS block leaves at least one
    line. *)
Lemma whois_block_says (net : Network) (d : string) (l : Collector.locals)
  (t : list query) :
  Collector.info_parts (store (Collector.whois_block net d l t)) <> [].
Proof.
  unfold Collector.whois_block. rewrite try_run.
  match goal with
  | |- context [res (?b l t)] =>
      assert (Hb : ensures b (fun l0 => Collector.info_parts l0 <> []));
      [|destruct (res (b l t)) as [e|a] eqn:E; [|exact (Hb l t a E)]]
  end.
  - apply ensures_bind_later. intros w.
    destruct w as [w|]; [destruct (obj_truthy w)|].
    + apply ensures_bind_later. intros dn. destruct (truthy dn).
      * unfold Collector.whois_fields.
        apply ensures_bind_later. intros dn_text.
        apply ensures_bind_here;
          [ apply ensures_modify; intros; simpl; apply snoc_not_nil
          | intros; keeps_nonempty ].
      * apply ensures_bind_here;
          [ apply ensures_modify; intros; simpl; apply snoc_not_nil
          | intros; keeps_nonempty ].
    + apply ensures_bind_here;
        [ apply ensures_modify; intros; simpl; apply snoc_not_nil
        | intros; keeps_nonempty ].
    + apply ensures_bind_here;
        [ apply ensures_modify; intros; simpl; apply snoc_not_nil
        | intros; keeps_nonempty ].
  - destruct (exn_cls e); collector_setters;
      rewrite bind_modify, modify_run; collector_proj; apply snoc_not_nil.
Qed.

(** The address block adds exactly one line, and it is the address
    line. *)
Lemma ip_block_line (net : Network) (d : string) (l : Collector.locals)
  (t : list query) :
  exists line extra,
    Collector.info_parts (store (Collector.ip_block net d l t))
    = (Collector.info_parts l ++ [line])%list
    /\ Collector.errors (store (Collector.ip_block net d l t))
       = (Collector.errors l ++ extra)%list
    /\ String.prefix "Server IP (A/AAAA)" line = true
    /\ (forall la e,
           dns_addr net d RdA = inr la -> dns_addr net d RdAAAA = inl e ->
           exn_cls e = NoAnswer ->
           line = "Server IP (A/AAAA): No A/AAAA record found"
           /\ extra = ["DNS NoAnswer for " ++ d ++ " (A/AAAA)"]).
Proof.
  unfold Collector.ip_block. rewrite try_run.
  match goal with
  | |- context [res (?b l t)] => remember (b l t) as o eqn:Ho
  end.
  rewrite !for_each_cons_eq, for_each_nil_eq in Ho.
  repeat rewrite bind_assoc in Ho.
  destruct (dns_addr net d RdA) as [e|la].
  - rewrite bind_ask_err in Ho. subst o. collector_proj.
    destruct (exn_cls e); collector_setters;
      rewrite bind_modify, modify_run; collector_proj;
      eexists; eexists; (split; [reflexivity|]); (split; [reflexivity|]);
      (split; [reflexivity|]); intros ? ? H; discriminate H.
  - rewrite bind_ask_ok in Ho.
    unfold Collector.append_ip at 1 in Ho.
    rewrite bind_for_each_modify, collector_fold_append_ip in Ho.
    repeat rewrite bind_assoc in Ho.
    destruct (dns_addr net d RdAAAA) as [e|l6].
    + rewrite bind_ask_err in Ho. subst o. collector_proj.
      destruct (exn_cls e) eqn:Hc; collector_setters;
        rewrite bind_modify, modify_run; collector_proj;
        eexists; eexists; (split; [reflexivity|]); (split; [reflexivity|]);
        (split; [reflexivity|]); intros ? ? _ H Hn; injection H as <-;
        first [ split; reflexivity | rewrite Hc in Hn; discriminate Hn ].
    + rewrite bind_ask_ok in Ho.
      unfold Collector.append_ip at 1 in Ho.
      rewrite bind_for_each_modify, collector_fold_append_ip in Ho.
      rewrite bind_ret, bind_get in Ho.
      collector_proj.
      unfold Collector.append_info in Ho. rewrite modify_run in Ho.
      subst o. collector_proj.
      eexists. exists []. split; [reflexivity|].
      split; [symmetry; apply app_nil_r|].
      split; [reflexivity|]. intros ? ? _ H. discriminate H.
Qed.

(** So does the mail-server block. *)
Lemma mx_block_line (net : Network) (d : string) (l : Collector.locals)
  (t : list query) :
  exists line extra,
    Collector.info_parts (store (Collector.mx_block net d l t))
    = (Collector.info_parts l ++ [line])%list
    /\ Collector.errors (store (Collector.mx_block net d l t))
       = (Collector.errors l ++ extra)%list
    /\ String.prefix "Mail Server (MX)" line = true.
Proof.
  unfold Collector.mx_block. rewrite try_run.
  match goal with
  | |- context [res (?b l t)] => remember (b l t) as o eqn:Ho
  end.
  destruct (dns_mx net d) as [e|answers].
  - rewrite bind_ask_err in Ho. subst o. collector_proj.
    destruct (exn_cls e); collector_setters;
      rewrite bind_modify, modify_run; collector_proj;
      eexists; eexists; (split; [reflexivity|]); (split; [reflexivity|]);
      reflexivity.
  - rewrite bind_ask_ok in Ho.
    unfold Collector.append_mx at 1 in Ho.
    rewrite bind_for_each_modify, collector_fold_append_mx in Ho.
    rewrite bind_get in Ho. collector_proj.
    unfold Collector.append_info in Ho. rewrite modify_run in Ho.
    subst o. collector_proj.
    eexists. exists []. split; [reflexivity|].
    split; [symmetry; apply app_nil_r|]. reflexivity.
Qed.

Lemma domain_text_lines (net : Network) (d : string) :
  exists whois_lines ip_line mx_line ip_issues mx_issues,
    let s1 := store (Collector.whois_block net d Collector.init_locals []) in
    let lines := (whois_lines ++ [ip_line; mx_line])%list in
    let issues := (Collector.errors s1 ++ ip_issues ++ mx_issues)%list in
    whois_lines <> []
    /\ String.prefix "Server IP (A/AAAA)" ip_line = true
    /\ String.prefix "Mail Server (MX)" mx_line = true
    /\ Collector.domain_text net d
       = (if nonnil issues
          then join nl lines ++ nl ++ nl ++ "Encountered issues:" ++ nl
               ++ join nl issues
          else join nl lines)
    /\ (forall la e,
           dns_addr net d RdA = inr la -> dns_addr net d RdAAAA = inl e ->
           exn_cls e = NoAnswer ->
           ip_line = "Server IP (A/AAAA): No A/AAAA record found"
           /\ ip_issues = ["DNS NoAnswer for " ++ d ++ " (A/AAAA)"])
    /\ whois_lines = Collector.info_parts s1.
Proof.
  rewrite (domain_text_store net d []).
  destruct (domain_info_steps net d Collector.init_locals [])
    as [Hs _].
  rewrite Hs. clear Hs.
  set (o1 := Collector.whois_block net d Collector.init_locals []).
  set (o2 := Collector.ip_block net d (store o1) (queries o1)).
  destruct (ip_block_line net d (store o1) (queries o1))
    as [ip_line [ip_issues [Hi2 [He2 [Hp2 Hv4]]]]].
  fold o2 in Hi2, He2.
  destruct (mx_block_line net d (store o2) (queries o2))
    as [mx_line [mx_issues [Hi3 [He3 Hp3]]]].
  exists (Collector.info_parts (store o1)), ip_line, mx_line, ip_issues,
    mx_issues.
  cbv zeta.
  split; [apply whois_block_says|].
  split; [exact Hp2|]. split; [exact Hp3|].
  split; [|split; [exact Hv4 | reflexivity]].
  unfold Collector.render. rewrite Hi3, He3, Hi2, He2.
  rewrite <- !app_assoc. cbn [app].
  assert (Hnn : nonnil (Collector.info_parts (store o1)
                        ++ [ip_line; mx_line])%list = true).
  { destruct (Collector.info_parts (store o1)); reflexivity. }
  rewrite Hnn. cbn [negb andb]. reflexivity.
Qed.

(** X10.  The text of a domain always holds at least three lines, the
    last two being the address line and the mail-server line, whatever
    failed: at least one line comes from the WHOIS block, then exactly
    one from each DNS block.  So the form headed
    ["Error gathering information:"], kept for a text without lines, is
    never produced; the issues, when there are any, follow the lines
    under ["Encountered issues:"]. *)
Theorem domain_text_shape :
  forall (net : Network) (d : string),
    exists whois_lines ip_line mx_line issues,
      let lines := (whois_lines ++ [ip_line; mx_line])%list in
      whois_lines <> []
      /\ String.prefix "Server IP (A/AAAA)" ip_line = true
      /\ String.prefix "Mail Server (MX)" mx_line = true
      /\ Collector.domain_text net d
         = (if nonnil issues
            then join nl lines ++ nl ++ nl ++ "Encountered issues:" ++ nl
                 ++ join nl issues
            else join nl lines).
Proof.
  intros net d.
  destruct (domain_text_lines net d)
    as [whois_lines [ip_line [mx_line [ip_issues [mx_issues H]]]]].
  cbv zeta in H. destruct H as [Hne [Hp2 [Hp3 [Ht _]]]].
  eexists whois_lines, ip_line, mx_line, _. cbv zeta.
  split; [exact Hne|]. split; [exact Hp2|]. split; [exact Hp3|].
  exact Ht.
Qed.

(** X11.  A host with addresses of one family only.  When the A lookup
    answers and the AAAA lookup raises [NoAnswer], the collector's
    address line reads ["No A/AAAA record found"] whatever the A lookup
    returned, and the failure is listed among the issues. *)
Theorem domain_text_single_family :
  forall (net : Network) (d : string) (la : list string) (e : exn),
    dns_addr net d RdA = inr la ->
    dns_addr net d RdAAAA = inl e ->
    exn_cls e = NoAnswer ->
    exists whois_lines mx_line issues,
      Collector.domain_text net d
      = join nl
          (whois_lines
           ++ ["Server IP (A/AAAA): No A/AAAA record found"; mx_line])%list
        ++ nl ++ nl ++ "Encountered issues:" ++ nl ++ join nl issues
      /\ In ("DNS NoAnswer for " ++ d ++ " (A/AAAA)") issues.
Proof.
  intros net d la e HA H6 Hc.
  destruct (domain_text_lines net d)
    as [whois_lines [ip_line [mx_line [ip_issues [mx_issues H]]]]].
  cbv zeta in H. destruct H as [_ [_ [_ [Ht [Hv4 _]]]]].
  destruct (Hv4 la e HA H6 Hc) as [-> ->].
  eexists whois_lines, mx_line, _. split.
  - rewrite Ht.
    match goal with
    | |- (if nonnil ?l then _ else _) = _ =>
        assert (Hn : nonnil l = true)
    end.
    { destruct (Collector.errors
                  (store (Collector.whois_block net d
                            Collector.init_locals []))); reflexivity. }
    rewrite Hn. reflexivity.
  - apply in_or_app. right. left. reflexivity.
Qed.

Lemma domain_text_single_family_witness :
  dns_addr Samples.net_ipv4_only "example.com" RdA = inr ["192.0.2.1"]
  /\ exists whois_lines mx_line issues,
       Collector.domain_text Samples.net_ipv4_only "example.com"
       = join nl
           (whois_lines
            ++ ["Server IP (A/AAAA): No A/AAAA record found"; mx_line])%list
         ++ nl ++ nl ++ "Encountered issues:" ++ nl ++ join nl issues
       /\ In ("DNS NoAnswer for " ++ "example.com" ++ " (A/AAAA)") issues.
Proof.
  split; [reflexivity|].
  exact (domain_text_single_family Samples.net_ipv4_only "example.com"
           ["192.0.2.1"]
           (Exn NoAnswer
              "The DNS response does not contain an answer to the question.")
           eq_refl eq_refl eq_refl).
Defined.

(** ** The collector: the output file *)





(** X13.  What the collector does with a row depends only on its first
    cell, trimmed and lower-cased: further cells, blanks around the
    name and the case of its letters change neither the row written nor
    the queries sent. *)
Theorem process_row_normalises :
  forall (net : Network) (cell : string) (rest : list string)
         (l : Collector.csv_locals) (t : list query),
    Collector.process_row net (cell :: rest) l t
    = Collector.process_row net [lower (strip cell)] l t
    /\ Collector.process_row net (strip cell :: rest) l t
       = Collector.process_row net (cell :: rest) l t
    /\ Collector.process_row net (lower cell :: rest) l t
       = Collector.process_row net (cell :: rest) l t.
Proof.
  intros net cell rest l t. unfold Collector.process_row.
  rewrite normalise_idem, strip_idem.
  rewrite <- (lower_strip cell), lower_idem.
  repeat split.
Qed.

(** ** The registrar's guessed address *)

Lemma replace_char_removes (c : ascii) (s : string) :
  has_char c (replace_char c "" s) = false.
Proof.
  induction s as [|a s IH]; [reflexivity|].
  cbn [replace_char]. destruct (Ascii.eqb a c) eqn:E.
  - exact IH.
  - cbn [has_char]. rewrite E, IH. reflexivity.
Qed.

Lemma replace_char_absent (c old : ascii) (s : string) :
  has_char c s = false -> has_char c (replace_char old "" s) = false.
Proof.
  induction s as [|a s IH]; intros H; [reflexivity|].
  cbn [has_char] in H. apply orb_false_iff in H. destruct H as [Ha Hs].
  cbn [replace_char]. destruct (Ascii.eqb a old).
  - apply IH. exact Hs.
  - cbn [has_char]. rewrite Ha, (IH Hs). reflexivity.
Qed.

Lemma split_char_head (sep : ascii) (s : string) :
  has_char sep (hd "" (split_char sep s)) = false.
Proof.
  induction s as [|a s IH]; [reflexivity|].
  cbn [split_char]. destruct (Ascii.eqb a sep) eqn:E; [reflexivity|].
  destruct (split_char sep s) as [|h tl].
  - cbn [hd has_char]. rewrite E. reflexivity.
  - cbn [hd has_char] in *. rewrite E, IH. reflexivity.
Qed.

Lemma lower_char_comma (c : ascii) :
  Ascii.eqb (lower_char c) ","%char = Ascii.eqb c ","%char.
Proof. destruct c as [[] [] [] [] [] [] [] []]; reflexivity. Qed.

Lemma has_comma_lower (s : string) :
  has_char "," (lower s) = has_char "," s.
Proof.
  induction s as [|a s IH]; [reflexivity|].
  rewrite lower_cons. cbn [has_char]. rewrite lower_char_comma, IH.
  reflexivity.
Qed.

Lemma replace_char_lower_fixed (old : ascii) (s : string) :
  lower s = s -> lower (replace_char old "" s) = replace_char old "" s.
Proof.
  induction s as [|a s IH]; intros H; [reflexivity|].
  rewrite lower_cons in H. injection H as Ha Hs.
  cbn [replace_char]. destruct (Ascii.eqb a old).
  - apply IH. exact Hs.
  - rewrite lower_cons, Ha, (IH Hs). reflexivity.
Qed.

(** X14.  The host name guessed from a registrar's name holds no space,
    no period, no comma and no upper-case letter, whatever the name. *)
Theorem main_registrar_name_clean :
  forall (registrar : string),
    has_char " " (Collector.main_registrar_name registrar) = false
    /\ has_char "." (Collector.main_registrar_name registrar) = false
    /\ has_char "," (Collector.main_registrar_name registrar) = false
    /\ lower (Collector.main_registrar_name registrar)
       = Collector.main_registrar_name registrar.
Proof.
  intros registrar. unfold Collector.main_registrar_name.
  split; [|split; [|split]].
  - apply replace_char_absent, replace_char_removes.
  - apply replace_char_removes.
  - apply replace_char_absent, replace_char_absent.
    rewrite has_comma_lower. apply split_char_head.
  - apply replace_char_lower_fixed, replace_char_lower_fixed, lower_idem.
Qed.

(** ** The TLD checker: failures in the notes *)

Ltac tld_keeps_error :=
  repeat first
    [ block_step
    | progress cbv beta
    | progress tld_setters
    | apply inv_modify; intros ? ?; cbn [TldChecker.dns_errors];
      first [ assumption | apply in_or_app; left; assumption ] ].

Lemma later_steps_keep_dns_error (net : Network) (d label : string) :
  inv (fun l => In label (TldChecker.dns_errors l))
      (bind (TldChecker.check_ns net d)
         (fun _ => bind (TldChecker.check_mx net d)
            (fun _ => TldChecker.check_whois net d))).
Proof. tld_blocks. tld_keeps_error. Qed.

Lemma later_steps_run (net : Network) (d : string) (l : TldChecker.locals)
  (t : list query) :
  let o2 := TldChecker.check_ns net d l t in
  let o3 := TldChecker.check_mx net d (store o2) (queries o2) in
  store (bind (TldChecker.check_ns net d)
           (fun _ => bind (TldChecker.check_mx net d)
              (fun _ => TldChecker.check_whois net d)) l t)
  = store (TldChecker.check_whois net d (store o3) (queries o3)).
Proof.
  intros o2 o3.
  destruct (bind_total (TldChecker.check_ns net d)
              (fun _ => bind (TldChecker.check_mx net d)
                 (fun _ => TldChecker.check_whois net d))
              l t (check_ns_total net d)) as [a2 E2].
  rewrite E2. fold o2.
  destruct (bind_total (TldChecker.check_mx net d)
              (fun _ => TldChecker.check_whois net d)
              (store o2) (queries o2) (check_mx_total net d)) as [a3 E3].
  rewrite E3. reflexivity.
Qed.

(** The A/AAAA step when the second lookup finds no record. *)
Lemma check_ip_single_family (net : Network) (d : string) (la : list string)
  (e : exn) (l : TldChecker.locals) (t : list query) :
  dns_addr net d RdA = inr la ->
  dns_addr net d RdAAAA = inl e ->
  exn_cls e = NoAnswer ->
  TldChecker.dns_errors (store (TldChecker.check_ip net d l t))
  = (TldChecker.dns_errors l ++ ["DNS NoAnswer (IP)"])%list.
Proof.
  intros HA H6 Hc. unfold TldChecker.check_ip.
  rewrite try_run.
  match goal with
  | |- context [res (?b l t)] => remember (b l t) as o eqn:Ho
  end.
  rewrite !for_each_cons_eq, for_each_nil_eq in Ho.
  repeat rewrite bind_assoc in Ho. rewrite HA, bind_ask_ok in Ho.
  unfold TldChecker.append_ip at 1 in Ho.
  rewrite bind_for_each_modify, tld_fold_append_ip in Ho.
  repeat rewrite bind_assoc in Ho. rewrite H6, bind_ask_err in Ho.
  subst o. tld_proj. rewrite Hc. reflexivity.
Qed.

(** X15.  A host with addresses of one family only, in the TLD
    checker.  When the A lookup answers and the AAAA lookup raises
    [NoAnswer], the row shows no address at all: ["IP Addresses"] stays
    ["N/A"] and ["DNS Resolves (A/AAAA)"] stays ["No"], whatever the A
    lookup returned, and the notes quote ["DNS NoAnswer (IP)"]. *)
Theorem variant_single_family :
  forall (net : Network) (d : string) (la : list string) (e : exn),
    dns_addr net d RdA = inr la ->
    dns_addr net d RdAAAA = inl e ->
    exn_cls e = NoAnswer ->
    dict_get "IP Addresses" (TldChecker.variant_info net d) = Some "N/A"
    /\ dict_get "DNS Resolves (A/AAAA)" (TldChecker.variant_info net d)
       = Some "No"
    /\ exists notes,
         dict_get "WHOIS Notes/Errors" (TldChecker.variant_info net d)
         = Some notes
         /\ contains "DNS NoAnswer (IP)" notes = true.
Proof.
  intros net d la e HA H6 Hc.
  split; [|split].
  - rewrite variant_ip_value, HA, H6. reflexivity.
  - rewrite (variant_column_after_ip net d "DNS Resolves (A/AAAA)" [])
      by reflexivity.
    pose proof (check_ip_cases net d (TldChecker.init_locals d) [] eq_refl)
      as H. cbv zeta in H. rewrite HA, H6 in H.
    destruct H as [Hi _]. rewrite Hi. reflexivity.
  - rewrite (variant_info_store net d []).
    destruct (variant_info_steps net d (TldChecker.init_locals d) [])
      as [Hs _].
    rewrite Hs. clear Hs.
    apply assemble_notes_mentions. left.
    set (o1 := TldChecker.check_ip net d (TldChecker.init_locals d) []).
    rewrite <- (later_steps_run net d (store o1) (queries o1)).
    apply later_steps_keep_dns_error.
    unfold o1. rewrite (check_ip_single_family net d la e _ _ HA H6 Hc).
    apply in_or_app. right. left. reflexivity.
Qed.

Lemma variant_single_family_witness :
  dns_addr Samples.net_ipv4_only "example.com" RdA = inr ["192.0.2.1"]
  /\ dict_get "IP Addresses"
       (TldChecker.variant_info Samples.net_ipv4_only "example.com")
     = Some "N/A".
Proof.
  split; [reflexivity|].
  exact (proj1 (variant_single_family Samples.net_ipv4_only "example.com"
                  ["192.0.2.1"]
                  (Exn NoAnswer
                     "The DNS response does not contain an answer to the question.")
                  eq_refl eq_refl eq_refl)).
Defined.

(** The WHOIS step when the lookup raises. *)
Lemma check_whois_raises (net : Network) (d : string) (e : exn)
  (l : TldChecker.locals) (t : list query) :
  TldChecker.whois_wanted l = true ->
  whois_reply net d = inl e ->
  exists label,
    TldChecker.whois_errors (store (TldChecker.check_whois net d l t))
    = (TldChecker.whois_errors l ++ [label])%list
    /\ (exn_cls e = SocketTimeout -> label = "WHOIS Error: Socket Timeout")
    /\ (exn_cls e = ConnectionResetError ->
        label = "WHOIS Error: ConnectionResetError")
    /\ (exn_cls e = PywhoisError ->
        label
        = if existsb (fun s => contains s (lower (exn_str e)))
               TldChecker.pywhois_no_match_markers
          then "WHOIS: No match/Not found (likely available or invalid query)."
          else "WHOIS Error: " ++ take 100 (exn_str e)).
Proof.
  intros Hw Hr. unfold TldChecker.check_whois.
  rewrite bind_get, Hw, try_run.
  match goal with
  | |- context [res (?b l t)] => remember (b l t) as o eqn:Ho
  end.
  rewrite Hr, bind_ask_err in Ho. subst o. tld_proj.
  destruct (exn_cls e) eqn:Hc;
    try match goal with
        | |- context [if ?c then _ else _] => destruct c
        end;
    tld_setters; rewrite modify_run; tld_proj;
    eexists; (split; [reflexivity|]);
    repeat split; intros H; first [ reflexivity | discriminate H ].
Qed.

(** X16.  A failed WHOIS lookup is always told in the notes, under a
    label that does not depend on the message for a socket timeout and
    for a connection reset, and that reads "No match/Not found" for a
    parser error whose message, in any case of letters, holds one of
    the five markers of line 167; such a row is never ["OK"]. *)
Theorem variant_whois_failure :
  forall (net : Network) (d : string) (e : exn),
    whois_reply net d = inl e ->
    exists notes,
      dict_get "WHOIS Notes/Errors" (TldChecker.variant_info net d)
      = Some notes
      /\ notes <> "OK"
      /\ (exn_cls e = SocketTimeout ->
          contains "WHOIS Error: Socket Timeout" notes = true)
      /\ (exn_cls e = ConnectionResetError ->
          contains "WHOIS Error: ConnectionResetError" notes = true)
      /\ (exn_cls e = PywhoisError ->
          existsb (fun s => contains s (lower (exn_str e)))
            TldChecker.pywhois_no_match_markers = true ->
          contains
            "WHOIS: No match/Not found (likely available or invalid query)."
            notes = true).
Proof.
  intros net d e Hr.
  rewrite (variant_info_store net d []).
  destruct (variant_info_steps net d (TldChecker.init_locals d) [])
    as [Hs _].
  rewrite Hs. clear Hs.
  set (o1 := TldChecker.check_ip net d (TldChecker.init_locals d) []).
  set (o2 := TldChecker.check_ns net d (store o1) (queries o1)).
  set (o3 := TldChecker.check_mx net d (store o2) (queries o2)).
  pose proof (whois_always_wanted net d []) as Hw. cbv zeta in Hw.
  fold o1 o2 o3 in Hw.
  destruct (check_whois_raises net d e (store o3) (queries o3) Hw Hr)
    as [label [He [Ht [Hc Hp]]]].
  assert (Hin : In label
                  (TldChecker.whois_errors
                     (store (TldChecker.check_whois net d (store o3)
                               (queries o3)))))
    by (rewrite He; apply in_or_app; right; left; reflexivity).
  destruct (assemble_notes_mentions label _
              (queries (TldChecker.check_whois net d (store o3) (queries o3)))
              (or_intror Hin)) as [notes [Hn Hcont]].
  exists notes. split; [exact Hn|]. split; [|split; [|split]].
  - intros ->. apply assemble_notes_ok in Hn. destruct Hn as [_ Hn].
    rewrite Hn in Hin. destruct Hin.
  - intros H. rewrite <- (Ht H). exact Hcont.
  - intros H. rewrite <- (Hc H). exact Hcont.
  - intros H Hm. specialize (Hp H). rewrite Hm in Hp.
    rewrite <- Hp. exact Hcont.
Qed.

Lemma variant_whois_failure_witness :
  whois_reply Samples.net_nxdomain "example-brand.xyz"
  = inl (Exn PywhoisError "No match for domain.")
  /\ exists notes,
       dict_get "WHOIS Notes/Errors"
         (TldChecker.variant_info Samples.net_nxdomain "example-brand.xyz")
       = Some notes
       /\ notes <> "OK".
Proof.
  split; [reflexivity|].
  destruct (variant_whois_failure Samples.net_nxdomain "example-brand.xyz"
              (Exn PywhoisError "No match for domain.") eq_refl)
    as [notes [Hn [Hok _]]].
  exists notes. split; [exact Hn | exact Hok].
Defined.

(** ** Records of [python-whois]'s own type *)

(** X17.  On a record of [python-whois]'s own type the test of line 126
    never raises: it holds exactly when the record is not empty and has
    a domain name or a text; the lookup [w.get('domain_name')] in the
    middle never decides. *)
Theorem whois_has_data_entry :
  forall (items : dict pyval),
    let field := fun k => match dict_get k items with
                          | Some v => v
                          | None => PNone
                          end in
    TldChecker.whois_has_data (Some (whois_entry items))
    = inr (nonnil items
           && (truthy (field "domain_name") || truthy (field "text"))).
Proof.
  intros items field.
  unfold TldChecker.whois_has_data, obj_truthy, getattr, dict_get_method,
    whois_entry.
  cbn [w_items w_getattr w_class]. fold (field "domain_name").
  fold (field "text").
  destruct (nonnil items); cbn [negb andb]; [|reflexivity].
  destruct (truthy (field "domain_name")) eqn:E; [reflexivity|].
  reflexivity.
Qed.

(** ** Columns do not depend on the order of the answers *)

Lemma sorted_set_ext (l1 l2 : list string) :
  (forall x, In x l1 <-> In x l2) -> sorted_set l1 = sorted_set l2.
Proof.
  intros H. apply sorted_nodup_unique.
  - apply sorted_set_Sorted.
  - apply sorted_set_Sorted.
  - apply sorted_set_NoDup.
  - apply sorted_set_NoDup.
  - intros x. rewrite !sorted_set_In. apply H.
Qed.

Lemma nonnil_ext {A : Type} (l1 l2 : list A) :
  (forall x, In x l1 <-> In x l2) -> nonnil l1 = nonnil l2.
Proof.
  intros H. destruct l1 as [|a l1], l2 as [|b l2]; try reflexivity.
  - destruct (proj2 (H b) (or_introl eq_refl)).
  - destruct (proj1 (H a) (or_introl eq_refl)).
Qed.

(** X18.  The address column and the name-server column of a variant
    depend only on which answers came back, not on their order nor on
    repetitions: two resolvers that return the same addresses, or the
    same name servers up to trailing dots, give the same column. *)
Theorem variant_columns_order_free :
  forall (net net' : Network) (d : string),
    (forall (la l6 la' l6' : list string),
        dns_addr net d RdA = inr la -> dns_addr net d RdAAAA = inr l6 ->
        dns_addr net' d RdA = inr la' -> dns_addr net' d RdAAAA = inr l6' ->
        (forall x, In x (la ++ l6)%list <-> In x (la' ++ l6')%list) ->
        dict_get "IP Addresses" (TldChecker.variant_info net d)
        = dict_get "IP Addresses" (TldChecker.variant_info net' d))
    /\ (forall (ts ts' : list string),
           dns_ns net d = inr ts -> dns_ns net' d = inr ts' ->
           (forall x, In x (map (rstrip_char ".") ts)
                      <-> In x (map (rstrip_char ".") ts')) ->
           dict_get "Name Servers (NS)" (TldChecker.variant_info net d)
           = dict_get "Name Servers (NS)" (TldChecker.variant_info net' d)).
Proof.
  intros net net' d. split.
  - intros la l6 la' l6' HA H6 HA' H6' Hsame.
    rewrite !variant_ip_value, HA, H6, HA', H6'.
    rewrite (nonnil_ext _ _ Hsame), (sorted_set_ext _ _ Hsame).
    reflexivity.
  - intros ts ts' Hn Hn' Hsame.
    rewrite !variant_ns_value, Hn, Hn'.
    pose proof (nonnil_ext _ _ Hsame) as Hnn.
    pose proof (sorted_set_ext _ _ Hsame) as Hss.
    destruct ts as [|x xs], ts' as [|y ys]; try discriminate Hnn.
    + reflexivity.
    + rewrite Hss. reflexivity.
Qed.

Lemma variant_columns_order_free_witness :
  dict_get "IP Addresses"
    (TldChecker.variant_info Samples.net_live "example.com")
  = dict_get "IP Addresses"
      (TldChecker.variant_info Samples.net_live_reordered "example.com")
  /\ dict_get "Name Servers (NS)"
       (TldChecker.variant_info Samples.net_live "example.com")
     = dict_get "Name Servers (NS)"
         (TldChecker.variant_info Samples.net_live_reordered "example.com").
Proof.
  split.
  - apply (proj1 (variant_columns_order_free Samples.net_live
                    Samples.net_live_reordered "example.com")
             ["2.2.2.2"; "1.1.1.1"] ["::1"]
             ["1.1.1.1"; "2.2.2.2"; "1.1.1.1"] ["::1"]
             eq_refl eq_refl eq_refl eq_refl).
    intros x. simpl. tauto.
  - apply (proj2 (variant_columns_order_free Samples.net_live
                    Samples.net_live_reordered "example.com")
             ["ns2.example."; "ns1.example."] ["ns1.example"; "ns2.example."]
             eq_refl eq_refl).
    intros x. simpl. tauto.
Defined.

(** ** The collector: a failed WHOIS lookup *)




(** ** The TLD checker: a name without DNS *)

(** The WHOIS step for a name that neither lookup resolved. *)
Lemma check_whois_unresolved (net : Network) (d : string)
  (l : TldChecker.locals) (t : list query) :
  TldChecker.whois_wanted l = true ->
  TldChecker.dns_resolved_ip l = false ->
  TldChecker.dns_resolved_ns l = false ->
  let errs :=
    TldChecker.whois_errors (store (TldChecker.check_whois net d l t)) in
  (whois_reply net d = inr None ->
   In "Domain likely not registered (WHOIS empty/no match)." errs)
  /\ (forall w,
         whois_reply net d = inr (Some w) ->
         TldChecker.whois_has_data (Some w) = inr false ->
         In "Domain likely not registered (WHOIS empty/no match)." errs)
  /\ (forall w,
         whois_reply net d = inr (Some w) ->
         TldChecker.whois_has_data (Some w) = inr true ->
         In (if String.eqb (TldChecker.get_val w "domain_name" false false)
                  "N/A"
                || negb (nonempty
                           (TldChecker.get_val w "domain_name" false false))
             then "WHOIS data sparse or domain may be available."
             else "WHOIS found, but no active DNS (A/AAAA or NS).")
            errs).
Proof.
  intros Hw Hip Hns errs. subst errs. unfold TldChecker.check_whois.
  rewrite bind_get, Hw, try_run.
  match goal with
  | |- context [res (?b l t)] => remember (b l t) as o eqn:Ho
  end.
  split; [|split].
  - intros Hr. rewrite Hr, bind_ask_ok in Ho.
    cbn [TldChecker.whois_has_data] in Ho.
    rewrite bind_lift_ok, bind_get, Hip, Hns in Ho.
    cbn [orb negb] in Ho. cbv iota in Ho.
    revert Ho. tld_setters. intros Ho. rewrite modify_run in Ho.
    subst o. tld_proj. apply in_or_app. right. left. reflexivity.
  - intros w Hr Hd. rewrite Hr, bind_ask_ok, Hd in Ho.
    rewrite bind_lift_ok, bind_get, Hip, Hns in Ho.
    cbn [orb negb] in Ho. cbv iota in Ho.
    revert Ho. tld_setters. intros Ho. rewrite modify_run in Ho.
    subst o. tld_proj. apply in_or_app. right. left. reflexivity.
  - intros w Hr Hd. rewrite Hr, bind_ask_ok, Hd in Ho.
    rewrite bind_lift_ok, bind_get, Hip, Hns in Ho.
    cbv iota in Ho. revert Ho. tld_setters. intros Ho.
    repeat rewrite bind_modify in Ho. tld_proj.
    cbn [orb negb] in Ho. rewrite andb_true_r in Ho.
    destruct (String.eqb (TldChecker.get_val w "domain_name" false false)
                "N/A"
              || negb (nonempty
                         (TldChecker.get_val w "domain_name" false false)));
      rewrite modify_run in Ho; subst o; tld_proj;
      apply in_or_app; right; left; reflexivity.
Qed.

(** X20.  A name that DNS does not know: the A lookup raises and the
    NS lookup raises.  Then the notes tell what WHOIS said: an empty
    reply reads "Domain likely not registered", a record with data and
    a domain name reads "WHOIS found, but no active DNS", and a record
    with data and no domain name reads "WHOIS data sparse or domain may
    be available". *)
Theorem variant_without_dns :
  forall (net : Network) (d : string) (e1 e2 : exn),
    dns_addr net d RdA = inl e1 ->
    dns_ns net d = inl e2 ->
    exists notes,
      dict_get "WHOIS Notes/Errors" (TldChecker.variant_info net d)
      = Some notes
      /\ (whois_reply net d = inr None ->
          contains "Domain likely not registered (WHOIS empty/no match)."
            notes = true)
      /\ (forall w,
             whois_reply net d = inr (Some w) ->
             TldChecker.whois_has_data (Some w) = inr true ->
             TldChecker.get_val w "domain_name" false false <> "N/A" ->
             TldChecker.get_val w "domain_name" false false <> "" ->
             contains "WHOIS found, but no active DNS (A/AAAA or NS)."
               notes = true)
      /\ (forall w,
             whois_reply net d = inr (Some w) ->
             TldChecker.whois_has_data (Some w) = inr true ->
             TldChecker.get_val w "domain_name" false false = "N/A" ->
             contains "WHOIS data sparse or domain may be available."
               notes = true).
Proof.
  intros net d e1 e2 HA HN.
  rewrite (variant_info_store net d []).
  destruct (variant_info_steps net d (TldChecker.init_locals d) [])
    as [Hs _].
  rewrite Hs. clear Hs.
  set (o1 := TldChecker.check_ip net d (TldChecker.init_locals d) []).
  set (o2 := TldChecker.check_ns net d (store o1) (queries o1)).
  set (o3 := TldChecker.check_mx net d (store o2) (queries o2)).
  set (o4 := TldChecker.check_whois net d (store o3) (queries o3)).
  pose proof (whois_always_wanted net d []) as Hw. cbv zeta in Hw.
  fold o1 o2 o3 in Hw.
  (* neither flag is set *)
  pose proof (check_ip_cases net d (TldChecker.init_locals d) [] eq_refl)
    as Hip. cbv zeta in Hip. fold o1 in Hip. rewrite HA in Hip.
  destruct Hip as [_ [Hip1 _]].
  assert (Hns0 : TldChecker.name_servers_list (store o1) = []
                 /\ TldChecker.dns_resolved_ns (store o1) = false)
    by (apply (check_ip_keeps_ns net d [] false); split; reflexivity).
  destruct Hns0 as [Hnil Hns1].
  pose proof (check_ns_cases net d (store o1) (queries o1) Hnil) as Hns.
  cbv zeta in Hns. fold o2 in Hns. rewrite HN in Hns.
  destruct Hns as [Hip2 [_ [Hns2 _]]].
  destruct (check_mx_keeps_flags net d _ _ (store o2) (queries o2)
              (conj eq_refl eq_refl)) as [Hf1 Hf2].
  fold o3 in Hf1, Hf2.
  rewrite Hip2, Hip1 in Hf1. rewrite Hns2, Hns1 in Hf2.
  cbn [TldChecker.init_locals TldChecker.dns_resolved_ip] in Hf1.
  pose proof (check_whois_unresolved net d (store o3) (queries o3)
                Hw Hf1 Hf2) as Hcases.
  cbv zeta in Hcases. fold o4 in Hcases.
  destruct Hcases as [Hnone [_ Hdata]].
  assert (Hnotes : exists notes,
             dict_get "WHOIS Notes/Errors"
               (TldChecker.info
                  (store (TldChecker.assemble_notes (store o4) (queries o4))))
             = Some notes).
  { unfold TldChecker.assemble_notes. rewrite bind_get.
    unfold TldChecker.set_info. rewrite modify_run. tld_proj.
    eexists. apply dict_get_set_same. }
  destruct Hnotes as [notes Hn]. exists notes. split; [exact Hn|].
  assert (Hmention : forall label,
             In label (TldChecker.whois_errors (store o4)) ->
             contains label notes = true).
  { intros label Hin.
    destruct (assemble_notes_mentions label (store o4) (queries o4)
                (or_intror Hin)) as [notes' [Hn' Hc]].
    rewrite Hn in Hn'. injection Hn' as <-. exact Hc. }
  split; [|split].
  - intros Hr. apply Hmention, Hnone, Hr.
  - intros w Hr Hd Hna Hne. apply Hmention.
    specialize (Hdata w Hr Hd).
    destruct (String.eqb (TldChecker.get_val w "domain_name" false false)
                "N/A") eqn:E1.
    + apply String.eqb_eq in E1. contradiction.
    + destruct (TldChecker.get_val w "domain_name" false false) eqn:E2;
        [contradiction Hne; reflexivity|].
      exact Hdata.
  - intros w Hr Hd Hna. apply Hmention.
    specialize (Hdata w Hr Hd). rewrite Hna in Hdata. exact Hdata.
Qed.

Lemma variant_without_dns_witness :
  dns_addr Samples.net_parked "example.com" RdA
  = inl (Exn NXDOMAIN "The DNS query name does not exist.")
  /\ exists notes,
       dict_get "WHOIS Notes/Errors"
         (TldChecker.variant_info Samples.net_parked "example.com")
       = Some notes
       /\ contains "WHOIS found, but no active DNS (A/AAAA or NS)." notes
          = true.
Proof.
  split; [reflexivity|].
  destruct (variant_without_dns Samples.net_parked "example.com"
              (Exn NXDOMAIN "The DNS query name does not exist.")
              (Exn NXDOMAIN "The DNS query name does not exist.")
              eq_refl eq_refl)
    as [notes [Hn [_ [Hfound _]]]].
  exists notes. split; [exact Hn|].
  apply (Hfound Samples.sample_record eq_refl eq_refl).
  - intros H. vm_compute in H. discriminate H.
  - intros H. vm_compute in H. discriminate H.
Defined.
